(** * weather-api: the forecast retrieval pipeline

    A shallow embedding of the Python sources under [app/]:
    - [app/api/models.py]               -> [Models]
    - [app/core/config.py]              -> [Settings]
    - [app/core/cache.py]               -> [TTLCache], [CacheManager]
    - [app/services/timezone_service.py]-> [TimezoneService]
    - [app/services/yrno_client.py]     -> [YrNoClient]
    - [app/services/health_service.py]  -> [HealthService], [HealthCheck]
    - [app/services/weather_service.py] -> [WeatherService], [EventLoop]
    - [app/services/location_service.py]-> [Geocoding]
    - [app/api/routes.py]               -> [Routes]

    Python objects that are mutated through several references (the
    [ForecastResponse] held by a cache entry and returned to the caller) live
    in an explicit heap; plain values (floats, dates, readings) are values. *)

From Stdlib Require Import ZArith List Bool Lia Permutation Sorted SpecFloat.
From stdpp Require Import base gmap strings list pretty.

Open Scope Z_scope.

(* ================================================================== *)
(** ** Python [float]: IEEE-754 binary64, after [SpecFloat] *)
(* ================================================================== *)

Module PyFloat.

Definition prec : Z := 53.
Definition emax : Z := 1024.

Definition float : Type := spec_float.

(** [float(n)] for a Python [int]. *)
Definition of_Z (n : Z) : float :=
  match n with
  | Z0 => S754_zero false
  | _ => binary_normalize prec emax n 0 false
  end.

Definition mul (x y : float) : float := SFmul prec emax x y.
Definition div (x y : float) : float := SFdiv prec emax x y.
Definition add (x y : float) : float := SFadd prec emax x y.

(** Python's [x == y], [x <= y] on floats. *)
Definition eqb (x y : float) : bool := SFeqb x y.
Definition leb (x y : float) : bool := SFleb x y.

(** The float a decimal literal [n / 10^k] denotes: the nearest binary64,
    ties to even (what the parser and [float(str)] compute).  [SFdiv]
    rounds the exact quotient of two integers correctly. *)
Definition of_decimal (neg : bool) (n : N) (k : N) : float :=
  match n with
  | N0 => S754_zero neg
  | Npos p =>
      SFdiv prec emax (S754_finite neg p 0)
                      (S754_finite false (Z.to_pos (10 ^ Z.of_N k)) 0)
  end.

(** What [format(x, '.4f')] prints, before it is laid out as text: a NaN,
    a signed infinity, or a sign and the integer [n] with [n / 10^4] the
    exact value of [x] rounded to four decimals, ties to even. *)
Inductive dec4 :=
  | DNaN
  | DInf (neg : bool)
  | DFin (neg : bool) (n : N).

Definition round_half_even (num den : Z) : Z :=
  let q := num / den in
  let r := num mod den in
  match Z.compare (2 * r) den with
  | Lt => q
  | Gt => q + 1
  | Eq => if Z.even q then q else q + 1
  end.

Definition to_dec4 (x : float) : dec4 :=
  match x with
  | S754_nan => DNaN
  | S754_infinity s => DInf s
  | S754_zero s => DFin s 0
  | S754_finite s m e =>
      let n :=
        if 0 <=? e then Zpos m * 2 ^ e * 10000
        else round_half_even (Zpos m * 10000) (2 ^ (- e)) in
      DFin s (Z.to_N n)
  end.

Definition digit (n : N) : string := pretty (n mod 10)%N.

(** The text of a [dec4]: sign, integer part, point, four digits. *)
Definition render (d : dec4) : string :=
  match d with
  | DNaN => "nan"
  | DInf s => (if s then "-inf" else "inf")
  | DFin s n =>
      (if s then "-" else "") +:+ pretty (n / 10000)%N +:+ "." +:+
      digit (n / 1000) +:+ digit (n / 100) +:+ digit (n / 10) +:+ digit n
  end.

(** [f"{x:.4f}"] *)
Definition format_4f (x : float) : string := render (to_dec4 x).

(** [float(s)] for [s] the text of [d]. *)
Definition of_dec4 (d : dec4) : float :=
  match d with
  | DNaN => S754_nan
  | DInf s => S754_infinity s
  | DFin s n => of_decimal s n 4
  end.

(** [float(f"{x:.4f}")]: the coordinate truncation used at every
    ingestion point. *)
Definition truncate4 (x : float) : float := of_dec4 (to_dec4 x).

End PyFloat.

Abbreviation float := PyFloat.float.

(* ================================================================== *)
(** ** Exceptions and results *)
(* ================================================================== *)

(** The exception classes that occur in the modelled code.  [HTTPError]
    stands for [httpx.HTTPError] and its subclasses (transport errors and
    non-2xx statuses raised by [raise_for_status]); it carries [str(e)]. *)
Inductive exn :=
  | HTTPError (msg : string)
  | ValidationError
  | ValueError
  | OtherError (msg : string).

Inductive result (A : Type) :=
  | Ok (a : A)
  | Raise (e : exn).
Arguments Ok {A} a.
Arguments Raise {A} e.

Definition str_exn (e : exn) : string :=
  match e with
  | HTTPError msg => msg
  | ValidationError => "validation error"
  | ValueError => "value too large"
  | OtherError msg => msg
  end.

(* ================================================================== *)
(** ** [app/core/config.py] *)
(* ================================================================== *)

(** The settings read from the environment are fields; the fixed class
    attributes are constants. *)
Record Settings := {
  CACHE_TTL_SECONDS : Z;
  CACHE_MAX_SIZE : Z;
}.

Definition default_settings : Settings :=
  {| CACHE_TTL_SECONDS := 3600; CACHE_MAX_SIZE := 1000 |}.

Definition TARGET_HOUR : Z := 14.
Definition TARGET_MINUTE : Z := 0.

(* ================================================================== *)
(** ** [datetime] values *)
(* ================================================================== *)

(** A [datetime] is the count of microseconds of its wall clock since the
    start of day 0 of the proleptic calendar, a [date] the count of days, a
    [time] the microseconds since midnight.  For an aware UTC datetime this
    is the instant itself. *)
Definition datetime : Type := Z.
Definition date : Type := Z.
Definition time : Type := Z.

Definition US_PER_SECOND : Z := 1000000.
Definition US_PER_DAY : Z := 86400 * US_PER_SECOND.

(** [dt.date()], [dt.time()], [datetime.combine(d, t)], [time(h, m)] *)
Definition date_of (dt : datetime) : date := dt / US_PER_DAY.
Definition time_of (dt : datetime) : time := dt mod US_PER_DAY.
Definition datetime_combine (d : date) (t : time) : datetime := d * US_PER_DAY + t.
Definition mk_time (h m : Z) : time := (h * 3600 + m * 60) * US_PER_SECOND.

(* ================================================================== *)
(** ** [app/api/models.py] *)
(* ================================================================== *)

Module Models.

Inductive TemperatureUnit := CELSIUS | FAHRENHEIT.

#[global] Instance TemperatureUnit_eq_dec : EqDecision TemperatureUnit.
Proof. solve_decision. Defined.

(** [TemperatureUnit.convert_from_celsius]: [temp_c * 9/5 + 32] is
    [((temp_c * 9) / 5) + 32] in binary64. *)
Definition convert_from_celsius (self : TemperatureUnit) (temp_c : float) : float :=
  match self with
  | CELSIUS => temp_c
  | FAHRENHEIT =>
      PyFloat.add (PyFloat.div (PyFloat.mul temp_c (PyFloat.of_Z 9)) (PyFloat.of_Z 5))
                  (PyFloat.of_Z 32)
  end.

Record Location := {
  latitude : float;
  longitude : float;
  name : option string;
}.

(** [Location.truncate_coordinates] *)
Definition truncate_coordinates (v : float) : float := PyFloat.truncate4 v.

(** [Field(..., ge=lo, le=hi)] on a float: a NaN fails both comparisons. *)
Definition in_range (lo hi : Z) (v : float) : bool :=
  PyFloat.leb (PyFloat.of_Z lo) v && PyFloat.leb v (PyFloat.of_Z hi).

(** [Location(latitude=.., longitude=.., name=..)]: the field constraints,
    then the field validator. *)
Definition new_Location (lat lon : float) (nm : option string) : result Location :=
  if in_range (-90) 90 lat && in_range (-180) 180 lon then
    Ok {| latitude := truncate_coordinates lat;
          longitude := truncate_coordinates lon;
          name := nm |}
  else Raise ValidationError.

Record TemperatureReading := {
  reading_date : date;
  temperature : float;
  unit : TemperatureUnit;
  reading_time : time;
  source_time : datetime;
}.

(** [reading.model_copy(update={"temperature": t, "unit": u})] *)
Definition model_copy_update (r : TemperatureReading) (t : float) (u : TemperatureUnit)
  : TemperatureReading :=
  {| reading_date := reading_date r; temperature := t; unit := u;
     reading_time := reading_time r; source_time := source_time r |}.

Record ForecastResponse := {
  location : Location;
  forecasts : list TemperatureReading;
  days_returned : Z;
  cached : bool;
  stale : bool;
  cached_at : option datetime;
  generated_at : datetime;
}.

(** Attribute assignments [response.f = v]. *)
Definition with_forecasts (v : list TemperatureReading) (r : ForecastResponse) :=
  {| location := location r; forecasts := v; days_returned := days_returned r;
     cached := cached r; stale := stale r; cached_at := cached_at r;
     generated_at := generated_at r |}.
Definition with_days_returned (v : Z) (r : ForecastResponse) :=
  {| location := location r; forecasts := forecasts r; days_returned := v;
     cached := cached r; stale := stale r; cached_at := cached_at r;
     generated_at := generated_at r |}.
Definition with_cached (v : bool) (r : ForecastResponse) :=
  {| location := location r; forecasts := forecasts r; days_returned := days_returned r;
     cached := v; stale := stale r; cached_at := cached_at r;
     generated_at := generated_at r |}.
Definition with_stale (v : bool) (r : ForecastResponse) :=
  {| location := location r; forecasts := forecasts r; days_returned := days_returned r;
     cached := cached r; stale := v; cached_at := cached_at r;
     generated_at := generated_at r |}.
Definition with_cached_at (v : option datetime) (r : ForecastResponse) :=
  {| location := location r; forecasts := forecasts r; days_returned := days_returned r;
     cached := cached r; stale := stale r; cached_at := v;
     generated_at := generated_at r |}.

(** [sorted(v, key=lambda x: x.date)] and [l.sort(key=lambda r: r.date)]:
    Python's sort is stable, so its result is the one of any stable sort;
    here insertion from the right, each element placed after the elements
    whose date is not greater. *)
Fixpoint insert_by_date (x : TemperatureReading) (l : list TemperatureReading)
  : list TemperatureReading :=
  match l with
  | [] => [x]
  | y :: l' =>
      if reading_date x <? reading_date y then x :: y :: l'
      else y :: insert_by_date x l'
  end.

Definition sort_by_date (l : list TemperatureReading) : list TemperatureReading :=
  fold_left (fun acc x => insert_by_date x acc) l [].

(** [ForecastResponse.sort_forecasts] (field validator) *)
Definition sort_forecasts (v : list TemperatureReading) : list TemperatureReading :=
  sort_by_date v.

(** [ForecastResponse.validate_days_count] (model validator, mode after):
    [if self.forecasts:] is the test for a non-empty list. *)
Definition validate_days_count (self : ForecastResponse) : ForecastResponse :=
  match forecasts self with
  | [] => self
  | _ :: _ => with_days_returned (Z.of_nat (length (forecasts self))) self
  end.

(** [ForecastResponse(location=.., forecasts=.., days_returned=..,
    cached=.., generated_at=..)]; [stale] and [cached_at] take their
    defaults. *)
Definition new_ForecastResponse (loc : Location) (fs : list TemperatureReading)
    (days : Z) (c : bool) (gen : datetime) : ForecastResponse :=
  validate_days_count
    {| location := loc; forecasts := sort_forecasts fs; days_returned := days;
       cached := c; stale := false; cached_at := None; generated_at := gen |}.

End Models.

(* ================================================================== *)
(** ** [cachetools.TTLCache] *)
(* ================================================================== *)

(** The third-party cache class behind [CacheManager.cache], after its
    documented behaviour: every item carries the clock reading at which it
    expires ([ttl] after it was last set); an expired item is not in the
    cache; when an insertion would exceed [maxsize] the least recently used
    items are discarded first; an item larger than [maxsize] (every item has
    size 1) is refused with [ValueError].  The links are kept least recently
    used first.  The clock ([time.monotonic]) is read in microseconds, and a
    cache operation reads it once. *)
Module TTLCache.
Section TTLCache.
Context {V : Type}.

Record link := { key : string; value : V; expires : Z }.

Record t := { maxsize : Z; ttl : Z; links : list link }.

Definition new (maxsize_ ttl_ : Z) : t :=
  {| maxsize := maxsize_; ttl := ttl_; links := [] |}.

Definition with_links (ls : list link) (self : t) : t :=
  {| maxsize := maxsize self; ttl := ttl self; links := ls |}.

Definition is_key (k : string) (l : link) : bool := bool_decide (key l = k).

Definition find_link (k : string) (ls : list link) : option link :=
  List.find (is_key k) ls.

Definition remove_link (k : string) (ls : list link) : list link :=
  List.filter (fun l => negb (is_key k l)) ls.

Definition live (now : Z) (l : link) : bool := now <? expires l.

(** [key in cache] *)
Definition contains (now : Z) (k : string) (self : t) : bool :=
  match find_link k (links self) with
  | Some l => live now l
  | None => false
  end.

(** [cache[key]]: [None] is [KeyError]; a hit makes the item the most
    recently used one. *)
Definition getitem (now : Z) (k : string) (self : t) : option (V * t) :=
  match find_link k (links self) with
  | Some l =>
      if live now l
      then Some (value l, with_links (remove_link k (links self) ++ [l]) self)
      else None
  | None => None
  end.

(** [cache.expire(now)] *)
Definition expire (now : Z) (self : t) : t :=
  with_links (List.filter (live now) (links self)) self.

(** [len(cache)] *)
Definition len (now : Z) (self : t) : Z :=
  Z.of_nat (length (links (expire now self))).

(** [while currsize + 1 > maxsize: popitem()] *)
Definition evict (maxsize_ : Z) (ls : list link) : list link :=
  drop (Z.to_nat (Z.of_nat (length ls) + 1 - maxsize_)) ls.

(** [cache[key] = value] *)
Definition setitem (now : Z) (k : string) (v : V) (self : t) : result t :=
  if maxsize self <? 1 then Raise ValueError
  else
    let ls := links (expire now self) in
    let ls' :=
      match find_link k ls with
      | Some _ => ls
      | None => evict (maxsize self) ls
      end in
    Ok (with_links
          (remove_link k ls' ++
             [{| key := k; value := v; expires := now + ttl self * US_PER_SECOND |}])
          self).

(** A method call that mutates the object stored under [k] in place. *)
Definition update_value (f : V -> V) (k : string) (self : t) : t :=
  with_links
    (List.map (fun l => if is_key k l
                        then {| key := key l; value := f (value l); expires := expires l |}
                        else l)
              (links self))
    self.

End TTLCache.
Arguments t : clear implicits.
Arguments link : clear implicits.
End TTLCache.

(* ================================================================== *)
(** ** [app/core/cache.py] *)
(* ================================================================== *)

(** A reference to a [ForecastResponse] object on the heap. *)
Definition loc : Type := nat.

Record CacheEntry := {
  data : loc;
  created_at : datetime;
  hit_count : Z;
}.

(** [CacheEntry.increment_hits] *)
Definition increment_hits (self : CacheEntry) : CacheEntry :=
  {| data := data self; created_at := created_at self; hit_count := hit_count self + 1 |}.

Record CacheManager := {
  cache : TTLCache.t CacheEntry;
  stale_cache : gmap string CacheEntry;
  stats_hits : Z;
  stats_misses : Z;
}.

Module Cache.

(** [CacheManager.__init__] *)
Definition new (settings : Settings) : CacheManager :=
  {| cache := TTLCache.new (CACHE_MAX_SIZE settings) (CACHE_TTL_SECONDS settings);
     stale_cache := ∅;
     stats_hits := 0;
     stats_misses := 0 |}.

(** [CacheManager.generate_key] *)
Definition generate_key (lat lon : float) : string :=
  "forecast:" +:+ PyFloat.format_4f lat +:+ ":" +:+ PyFloat.format_4f lon.

(** [CacheManager.get]: [key in self.cache] and [self.cache[key]] see the
    same clock reading, so the membership test succeeds exactly when the
    lookup finds a live item. *)
Definition get (now : Z) (k : string) (self : CacheManager)
  : option CacheEntry * CacheManager :=
  match TTLCache.getitem now k (cache self) with
  | Some (entry, c) =>
      let entry' := increment_hits entry in
      (Some entry',
       {| cache := TTLCache.update_value increment_hits k c;
          stale_cache := stale_cache self;
          stats_hits := stats_hits self + 1;
          stats_misses := stats_misses self |})
  | None =>
      (None,
       {| cache := cache self;
          stale_cache := stale_cache self;
          stats_hits := stats_hits self;
          stats_misses := stats_misses self + 1 |})
  end.

(** [CacheManager.get_stale] *)
Definition get_stale (k : string) (self : CacheManager) : option CacheEntry :=
  stale_cache self !! k.

(** [CacheManager.set]; [utcnow] is the value of [datetime.utcnow()].  The
    state is returned also when the assignment to the cache raises. *)
Definition set (now : Z) (utcnow : datetime) (k : string) (d : loc)
    (self : CacheManager) : CacheManager * result () :=
  let entry := {| data := d; created_at := utcnow; hit_count := 0 |} in
  let '(stale', c1) :=
    match TTLCache.getitem now k (cache self) with
    | Some (old, c) => (<[k := old]> (stale_cache self), c)
    | None => (stale_cache self, cache self)
    end in
  match TTLCache.setitem now k entry c1 with
  | Ok c2 =>
      ({| cache := c2; stale_cache := stale';
          stats_hits := stats_hits self; stats_misses := stats_misses self |},
       Ok ())
  | Raise e =>
      ({| cache := TTLCache.expire now c1; stale_cache := stale';
          stats_hits := stats_hits self; stats_misses := stats_misses self |},
       Raise e)
  end.

(** [CacheManager.get_size] *)
Definition get_size (now : Z) (self : CacheManager) : Z :=
  TTLCache.len now (cache self).

(** [CacheManager.get_hit_rate] *)
Definition get_hit_rate (self : CacheManager) : option float :=
  let total := stats_hits self + stats_misses self in
  if total =? 0 then None
  else Some (PyFloat.mul (PyFloat.div (PyFloat.of_Z (stats_hits self)) (PyFloat.of_Z total))
                         (PyFloat.of_Z 100)).

Record Statistics := {
  size : Z;
  max_size : Z;
  ttl_seconds : Z;
  hits : Z;
  misses : Z;
  hit_rate : option float;
}.

(** [CacheManager.get_statistics] *)
Definition get_statistics (settings : Settings) (now : Z) (self : CacheManager)
  : Statistics :=
  {| size := get_size now self;
     max_size := CACHE_MAX_SIZE settings;
     ttl_seconds := CACHE_TTL_SECONDS settings;
     hits := stats_hits self;
     misses := stats_misses self;
     hit_rate := get_hit_rate self |}.

End Cache.

(* ================================================================== *)
(** ** [app/services/timezone_service.py] *)
(* ================================================================== *)

(** A [pytz] zone: the UTC offset, in microseconds, in force at a UTC
    instant. *)
Definition tzinfo : Type := datetime -> Z.

Definition UTC : tzinfo := fun _ => 0.

(** The two libraries behind the service.  [pytz_timezone name] is
    [pytz.timezone(name)], [None] for [UnknownTimeZoneError].
    [timezone_at lat lon] is the search of TimezoneFinder for coordinates
    it accepts, followed by [pytz.timezone] on the name found ([None] when
    no name is found): TimezoneFinder returns names of the database pytz
    reads. *)
Record TimezoneService := {
  pytz_timezone : string -> option tzinfo;
  timezone_at : float -> float -> option tzinfo;
}.

Module Timezone.

(** [self.tf.timezone_at(lat=lat, lng=lon)]: TimezoneFinder validates the
    coordinates before it searches, and raises [ValueError] unless
    [-180.0 <= lng <= 180.0] and [-90.0 <= lat <= 90.0]; a NaN fails both
    comparisons. *)
Definition tf_timezone_at (self : TimezoneService) (lat lon : float)
  : result (option tzinfo) :=
  if Models.in_range (-180) 180 lon && Models.in_range (-90) 90 lat
  then Ok (timezone_at self lat lon)
  else Raise ValueError.

(** [TimezoneService.get_timezone]; [if tz_override:] fails for [None] and
    for the empty string.  An override that pytz knows is returned before
    TimezoneFinder is asked. *)
Definition get_timezone (self : TimezoneService) (lat lon : float)
    (tz_override : option string) : result tzinfo :=
  let auto :=
    match tf_timezone_at self lat lon with
    | Raise e => Raise e
    | Ok (Some tz) => Ok tz
    | Ok None => Ok UTC
    end in
  match tz_override with
  | Some s =>
      if bool_decide (s = "") then auto
      else match pytz_timezone self s with
           | Some tz => Ok tz
           | None => auto
           end
  | None => auto
  end.

(** [utc_time.astimezone(tz)]: the wall clock of [utc_time] in the zone. *)
Definition astimezone (utc_time : datetime) (tz : tzinfo) : datetime :=
  utc_time + tz utc_time.

(** [TimezoneService.to_local_time] *)
Definition to_local_time (self : TimezoneService) (utc_time : datetime)
    (lat lon : float) (tz_override : option string) : result datetime :=
  match get_timezone self lat lon tz_override with
  | Raise e => Raise e
  | Ok tz => Ok (astimezone utc_time tz)
  end.

End Timezone.

(* ================================================================== *)
(** ** [app/services/yrno_client.py] and [health_service.py] *)
(* ================================================================== *)

(** [YrNoTimeseriesEntry], with the path [entry.data.instant.details]
    flattened to the field the service reads. *)
Record YrNoTimeseriesEntry := {
  entry_time : datetime;
  air_temperature : float;
}.

(** What [await self.http_client.get(..)] does: it returns a response with
    a status code, or raises. *)
Inductive HttpOutcome :=
  | Response (status_code : Z)
  | Raises (e : exn).

Module YrNoClient.

(** [YrNoClient.check_availability]: no handler surrounds the request. *)
Definition check_availability (probe : HttpOutcome) : result bool :=
  match probe with
  | Response status_code => Ok (status_code =? 200)
  | Raises e => Raise e
  end.

End YrNoClient.

Module HealthService.

(** [HealthService._check_yrno]: [except Exception] returns [False]. *)
Definition _check_yrno (probe : HttpOutcome) : bool :=
  match YrNoClient.check_availability probe with
  | Ok available => available
  | Raise _ => false
  end.

End HealthService.

(* ================================================================== *)
(** ** [app/services/weather_service.py] *)
(* ================================================================== *)

(** The objects the service shares with its callers: the heap of
    [ForecastResponse] objects, the global [cache_manager], and the module
    level registry [fetch_locks] (the keys for which a lock was created). *)
Record World := {
  heap : gmap loc Models.ForecastResponse;
  next_loc : loc;
  cache_manager : CacheManager;
  fetch_locks : gset string;
}.

(** What one call of [get_forecast] reads from outside: the monotonic clock
    at its two cache probes and at the store, [datetime.utcnow()] when the
    response is built and when the entry is created, and the upstream: the
    outcome of [YrNoClient.fetch_forecast]'s request for the query
    parameters [lat], [lon], parsed into entries. *)
Record CallEnv := {
  clock_probe : Z;
  clock_reprobe : Z;
  clock_set : Z;
  utcnow_response : datetime;
  utcnow_entry : datetime;
  upstream : string -> string -> result (list YrNoTimeseriesEntry);
}.

Module WeatherService.
Import Models.

Definition initial_world (settings : Settings) : World :=
  {| heap := ∅; next_loc := 0%nat; cache_manager := Cache.new settings;
     fetch_locks := ∅ |}.

Definition with_heap (h : gmap loc ForecastResponse) (w : World) : World :=
  {| heap := h; next_loc := next_loc w; cache_manager := cache_manager w;
     fetch_locks := fetch_locks w |}.
Definition with_cache_manager (cm : CacheManager) (w : World) : World :=
  {| heap := heap w; next_loc := next_loc w; cache_manager := cm;
     fetch_locks := fetch_locks w |}.
Definition with_fetch_locks (ls : gset string) (w : World) : World :=
  {| heap := heap w; next_loc := next_loc w; cache_manager := cache_manager w;
     fetch_locks := ls |}.

(** Allocation of a new [ForecastResponse] object. *)
Definition alloc (r : ForecastResponse) (w : World) : loc * World :=
  (next_loc w,
   {| heap := <[next_loc w := r]> (heap w); next_loc := S (next_loc w);
      cache_manager := cache_manager w; fetch_locks := fetch_locks w |}).

(** [YrNoClient.fetch_forecast]: the coordinates go out as [f"{lat:.4f}"],
    [f"{lon:.4f}"]. *)
Definition fetch_forecast (env : CallEnv) (lat lon : float)
  : result (list YrNoTimeseriesEntry) :=
  upstream env (PyFloat.format_4f lat) (PyFloat.format_4f lon).

(** *** [_process_timeseries] *)

(** The values of the dict [readings_by_date]. *)
Record Item := { time_diff : Z; reading : TemperatureReading }.

(** A Python dict keeps its keys in insertion order; assigning to a key
    that is present keeps its place. *)
Fixpoint dict_get (d : date) (m : list (date * Item)) : option Item :=
  match m with
  | [] => None
  | (k, v) :: m' => if k =? d then Some v else dict_get d m'
  end.

Fixpoint dict_set (d : date) (v : Item) (m : list (date * Item)) : list (date * Item) :=
  match m with
  | [] => [(d, v)]
  | (k, v') :: m' => if k =? d then (k, v) :: m' else (k, v') :: dict_set d v m'
  end.

(** The local wall clock of an entry and its distance from the target
    time on its own date.  [abs((local_time - target_time).total_seconds())]
    is kept in exact microseconds: both datetimes carry the same [tzinfo],
    so the difference is that of the wall clocks, less than a day, and on
    that range [total_seconds] is strictly increasing. *)
Definition local_time_of (tzs : TimezoneService) (lat lon : float)
    (timezone_override : option string) (entry : YrNoTimeseriesEntry)
  : result datetime :=
  Timezone.to_local_time tzs (entry_time entry) lat lon timezone_override.

Definition time_diff_of (local_time : datetime) : Z :=
  let forecast_date := date_of local_time in
  let target_time := datetime_combine forecast_date (mk_time TARGET_HOUR TARGET_MINUTE) in
  Z.abs (local_time - target_time).

Definition reading_of (local_time : datetime) (entry : YrNoTimeseriesEntry)
  : TemperatureReading :=
  {| reading_date := date_of local_time;
     temperature := air_temperature entry;
     unit := CELSIUS;
     reading_time := time_of local_time;
     source_time := entry_time entry |}.

(** The body of the loop over [timeseries] once [local_time] is known:
    the entry takes the place of its date when the date is new or when it
    is strictly closer than the one kept. *)
Definition keep_closest (readings_by_date : list (date * Item))
    (local_time : datetime) (entry : YrNoTimeseriesEntry) : list (date * Item) :=
  let forecast_date := date_of local_time in
  let item := {| time_diff := time_diff_of local_time;
                 reading := reading_of local_time entry |} in
  match dict_get forecast_date readings_by_date with
  | None => dict_set forecast_date item readings_by_date
  | Some current =>
      if time_diff_of local_time <? time_diff current
      then dict_set forecast_date item readings_by_date
      else readings_by_date
  end.

(** The body of the loop over [timeseries]: [to_local_time] is called for
    every entry, and what it raises leaves the loop. *)
Definition process_entry (tzs : TimezoneService) (lat lon : float)
    (timezone_override : option string)
    (readings_by_date : list (date * Item)) (entry : YrNoTimeseriesEntry)
  : result (list (date * Item)) :=
  match local_time_of tzs lat lon timezone_override entry with
  | Raise e => Raise e
  | Ok local_time => Ok (keep_closest readings_by_date local_time entry)
  end.

(** [for entry in timeseries: ...], from the dict [readings_by_date]. *)
Fixpoint for_entries (body : list (date * Item) -> YrNoTimeseriesEntry ->
                             result (list (date * Item)))
    (timeseries : list YrNoTimeseriesEntry) (readings_by_date : list (date * Item))
  : result (list (date * Item)) :=
  match timeseries with
  | [] => Ok readings_by_date
  | entry :: rest =>
      match body readings_by_date entry with
      | Raise e => Raise e
      | Ok readings_by_date' => for_entries body rest readings_by_date'
      end
  end.

Definition _process_timeseries (tzs : TimezoneService)
    (timeseries : list YrNoTimeseriesEntry) (lat lon : float)
    (timezone_override : option string) : result (list TemperatureReading) :=
  match for_entries (process_entry tzs lat lon timezone_override) timeseries [] with
  | Raise e => Raise e
  | Ok readings_by_date =>
      let readings := List.map (fun kv => reading (snd kv)) readings_by_date in
      Ok (sort_by_date readings)
  end.

(** *** [_convert_units], [_filter_days]: both assign to the object they
    are given and return it *)

Definition convert_reading (target_unit : TemperatureUnit) (r : TemperatureReading)
  : TemperatureReading :=
  model_copy_update r (convert_from_celsius target_unit (temperature r)) target_unit.

Definition _convert_units (response : loc) (target_unit : TemperatureUnit)
    (h : gmap loc ForecastResponse) : gmap loc ForecastResponse :=
  alter (fun r => with_forecasts (List.map (convert_reading target_unit) (forecasts r)) r)
        response h.

(** [l[:n]] for any integer [n] *)
Definition slice_to {A} (n : Z) (l : list A) : list A :=
  if 0 <=? n then take (Z.to_nat n) l
  else take (length l - Z.to_nat (- n)) l.

Definition _filter_days (response : loc) (days : Z)
    (h : gmap loc ForecastResponse) : gmap loc ForecastResponse :=
  alter (fun r => let fs := slice_to days (forecasts r) in
                  with_days_returned (Z.of_nat (length fs)) (with_forecasts fs r))
        response h.

(** The two steps every return path of [get_forecast] ends with:
    [if unit != CELSIUS: response = self._convert_units(response, unit)]
    and [if days: response = self._filter_days(response, days)]. *)
Definition convert_if_needed (unit_ : TemperatureUnit) (response : loc)
    (h : gmap loc ForecastResponse) : gmap loc ForecastResponse :=
  if bool_decide (unit_ <> CELSIUS) then _convert_units response unit_ h else h.

Definition filter_if_requested (days : option Z) (response : loc)
    (h : gmap loc ForecastResponse) : gmap loc ForecastResponse :=
  match days with
  | Some n => if n =? 0 then h else _filter_days response n h
  | None => h
  end.

(** The return path of a cache hit (lines 65-77 and 89-98):
    [response = cached_entry.data] is the stored object itself. *)
Definition serve_cached (cached_entry : CacheEntry) (unit_ : TemperatureUnit)
    (days : option Z) (w : World) : World * loc :=
  let response := data cached_entry in
  let h := alter (with_cached true) response (heap w) in
  let h := alter (with_cached_at (Some (created_at cached_entry))) response h in
  let h := convert_if_needed unit_ response h in
  let h := filter_if_requested days response h in
  (with_heap h w, response).

(** The return path of the stale fallback (lines 110-120). *)
Definition serve_stale (stale_entry : CacheEntry) (unit_ : TemperatureUnit)
    (days : option Z) (w : World) : World * loc :=
  let response := data stale_entry in
  let h := alter (with_cached true) response (heap w) in
  let h := alter (with_stale true) response h in
  let h := alter (with_cached_at (Some (created_at stale_entry))) response h in
  let h := convert_if_needed unit_ response h in
  let h := filter_if_requested days response h in
  (with_heap h w, response).

(** *** [get_forecast], cut at its two suspension points *)

(** Lines 55-82: truncation, key, the first probe, and the creation of the
    lock on a miss.  [Some] is a response returned; with [None] the call
    goes on to acquire the lock. *)
Definition probe (env : CallEnv) (lat lon : float) (days : option Z)
    (unit_ : TemperatureUnit) (w : World) : World * option loc :=
  let lat := PyFloat.truncate4 lat in
  let lon := PyFloat.truncate4 lon in
  let cache_key := Cache.generate_key lat lon in
  match Cache.get (clock_probe env) cache_key (cache_manager w) with
  | (Some cached_entry, cm) =>
      let '(w', response) := serve_cached cached_entry unit_ days (with_cache_manager cm w) in
      (w', Some response)
  | (None, cm) =>
      let lock_key := "lock:" +:+ cache_key in
      (with_fetch_locks ({[lock_key]} ∪ fetch_locks w) (with_cache_manager cm w), None)
  end.

(** Lines 85-98: the second probe, with the lock held. *)
Definition reprobe (env : CallEnv) (lat lon : float) (days : option Z)
    (unit_ : TemperatureUnit) (w : World) : World * option loc :=
  let lat := PyFloat.truncate4 lat in
  let lon := PyFloat.truncate4 lon in
  let cache_key := Cache.generate_key lat lon in
  match Cache.get (clock_reprobe env) cache_key (cache_manager w) with
  | (Some cached_entry, cm) =>
      let '(w', response) := serve_cached cached_entry unit_ days (with_cache_manager cm w) in
      (w', Some response)
  | (None, cm) => (with_cache_manager cm w, None)
  end.

(** Lines 101-159: what follows [await self.yrno_client.fetch_forecast],
    given its outcome. *)
Definition after_fetch (tzs : TimezoneService) (env : CallEnv)
    (outcome : result (list YrNoTimeseriesEntry))
    (lat lon : float) (location_name : option string) (days : option Z)
    (unit_ : TemperatureUnit) (timezone_override : option string) (w : World)
  : World * result loc :=
  let lat := PyFloat.truncate4 lat in
  let lon := PyFloat.truncate4 lon in
  let cache_key := Cache.generate_key lat lon in
  match outcome with
  | Raise (HTTPError msg) =>
      match Cache.get_stale cache_key (cache_manager w) with
      | Some stale_entry =>
          let '(w', response) := serve_stale stale_entry unit_ days w in
          (w', Ok response)
      | None => (w, Raise (HTTPError ("yr.no API unavailable: " +:+ msg)))
      end
  | Raise e => (w, Raise e)
  | Ok timeseries =>
      match _process_timeseries tzs timeseries lat lon timezone_override with
      | Raise e => (w, Raise e)
      | Ok readings =>
          match new_Location lat lon location_name with
          | Raise e => (w, Raise e)
          | Ok location_ =>
              let '(response, w1) :=
                alloc (new_ForecastResponse location_ readings
                         (Z.of_nat (length readings)) false (utcnow_response env)) w in
              match Cache.set (clock_set env) (utcnow_entry env) cache_key response
                      (cache_manager w1) with
              | (cm, Raise e) => (with_cache_manager cm w1, Raise e)
              | (cm, Ok _) =>
                  let w2 := with_cache_manager cm w1 in
                  let h := convert_if_needed unit_ response (heap w2) in
                  let h := filter_if_requested days response h in
                  (with_heap h w2, Ok response)
              end
          end
      end
  end.

(** [WeatherService.get_forecast], run without interleaving. *)
Definition get_forecast (tzs : TimezoneService) (env : CallEnv)
    (lat lon : float) (location_name : option string) (days : option Z)
    (unit_ : TemperatureUnit) (timezone_override : option string) (w : World)
  : World * result loc :=
  match probe env lat lon days unit_ w with
  | (w1, Some response) => (w1, Ok response)
  | (w1, None) =>
      match reprobe env lat lon days unit_ w1 with
      | (w2, Some response) => (w2, Ok response)
      | (w2, None) =>
          let outcome :=
            fetch_forecast env (PyFloat.truncate4 lat) (PyFloat.truncate4 lon) in
          after_fetch tzs env outcome lat lon location_name days unit_
                      timezone_override w2
      end
  end.

End WeatherService.

(* ================================================================== *)
(** ** Concurrent calls of [get_forecast] on the event loop *)
(* ================================================================== *)

(** The calls are coroutines on one asyncio event loop: a call runs without
    interruption up to a point where it suspends.  [get_forecast] suspends
    in two places: in [async with fetch_locks[lock_key]] when the lock is
    taken, and in [await self.yrno_client.fetch_forecast(lat, lon)] while
    the request is in flight.  An [asyncio.Lock] that is free is acquired
    without suspending. *)
Module EventLoop.
Import Models.

Record Request := {
  req_lat : float;
  req_lon : float;
  req_location_name : option string;
  req_days : option Z;
  req_unit : TemperatureUnit;
  req_timezone_override : option string;
}.

Inductive task_state :=
  | Start                       (* created, not yet run *)
  | Waiting                     (* suspended on the lock *)
  | Fetching                    (* holds the lock, its request is in flight *)
  | Done (res : result loc).    (* returned or raised; the lock is released *)

Record Task := { request : Request; status : task_state }.

(** [fetch_log] lists the upstream requests issued so far, by their query
    parameters; [held] is the set of lock keys whose lock is taken. *)
Record System := {
  world : World;
  held : gset string;
  fetch_log : list (string * string);
  tasks : list Task;
}.

Definition cache_key_of (r : Request) : string :=
  Cache.generate_key (PyFloat.truncate4 (req_lat r)) (PyFloat.truncate4 (req_lon r)).

Definition lock_key_of (r : Request) : string := "lock:" +:+ cache_key_of r.

Definition initial_system (w : World) (reqs : list Request) : System :=
  {| world := w; held := ∅; fetch_log := [];
     tasks := List.map (fun r => {| request := r; status := Start |}) reqs |}.

Definition set_status (i : nat) (st : task_state) (ts : list Task) : list Task :=
  alter (fun t => {| request := request t; status := st |}) i ts.

(** What the event loop does next: it runs task [i] (a new task, or one
    suspended on a lock that is free now), or it delivers the response to
    the request of task [i].  The [CallEnv] holds what the task reads from
    outside in that stretch; the outcome of the request is
    [WeatherService.fetch_forecast env] at the coordinates sent.  Any
    waiting task may be the one that gets a freed lock (asyncio wakes the
    longest waiting one). *)
Inductive event :=
  | Run (i : nat) (env : CallEnv)
  | Respond (i : nat) (env : CallEnv).

(** With the lock acquired: the second probe, then the request. *)
Definition locked_section (env : CallEnv) (i : nat) (r : Request) (s : System)
  : System :=
  match WeatherService.reprobe env (req_lat r) (req_lon r) (req_days r) (req_unit r)
          (world s) with
  | (w, Some response) =>
      {| world := w; held := held s; fetch_log := fetch_log s;
         tasks := set_status i (Done (Ok response)) (tasks s) |}
  | (w, None) =>
      {| world := w;
         held := {[lock_key_of r]} ∪ held s;
         fetch_log := fetch_log s ++
           [(PyFloat.format_4f (PyFloat.truncate4 (req_lat r)),
             PyFloat.format_4f (PyFloat.truncate4 (req_lon r)))];
         tasks := set_status i Fetching (tasks s) |}
  end.

Definition with_world (w : World) (s : System) : System :=
  {| world := w; held := held s; fetch_log := fetch_log s; tasks := tasks s |}.

(** One stretch of the event loop; [None] when the event cannot happen in
    this state. *)
Definition step (tzs : TimezoneService) (ev : event) (s : System) : option System :=
  match ev with
  | Run i env =>
      match tasks s !! i with
      | Some {| request := r; status := Start |} =>
          match WeatherService.probe env (req_lat r) (req_lon r) (req_days r)
                  (req_unit r) (world s) with
          | (w, Some response) =>
              Some {| world := w; held := held s; fetch_log := fetch_log s;
                      tasks := set_status i (Done (Ok response)) (tasks s) |}
          | (w, None) =>
              if decide (lock_key_of r ∈ held s)
              then Some {| world := w; held := held s; fetch_log := fetch_log s;
                           tasks := set_status i Waiting (tasks s) |}
              else Some (locked_section env i r (with_world w s))
          end
      | Some {| request := r; status := Waiting |} =>
          if decide (lock_key_of r ∈ held s) then None
          else Some (locked_section env i r s)
      | _ => None
      end
  | Respond i env =>
      match tasks s !! i with
      | Some {| request := r; status := Fetching |} =>
          let outcome :=
            WeatherService.fetch_forecast env (PyFloat.truncate4 (req_lat r))
              (PyFloat.truncate4 (req_lon r)) in
          let '(w, res) :=
            WeatherService.after_fetch tzs env outcome (req_lat r) (req_lon r)
              (req_location_name r) (req_days r) (req_unit r)
              (req_timezone_override r) (world s) in
          Some {| world := w; held := held s ∖ {[lock_key_of r]};
                  fetch_log := fetch_log s;
                  tasks := set_status i (Done res) (tasks s) |}
      | _ => None
      end
  end.

(** A schedule, event by event. *)
Fixpoint run (tzs : TimezoneService) (evs : list event) (s : System) : option System :=
  match evs with
  | [] => Some s
  | ev :: evs' =>
      match step tzs ev s with
      | Some s' => run tzs evs' s'
      | None => None
      end
  end.

Definition is_done (t : Task) : bool :=
  match status t with Done _ => true | _ => false end.

Definition all_done (s : System) : bool := forallb is_done (tasks s).

(** The stretches a task has still to run, at most. *)
Definition task_measure (t : Task) : nat :=
  match status t with
  | Start => 3
  | Waiting => 2
  | Fetching => 1
  | Done _ => 0
  end%nat.

Definition measure (s : System) : nat := sum_list (List.map task_measure (tasks s)).

End EventLoop.

(* ================================================================== *)
(** ** [app/services/location_service.py] *)
(* ================================================================== *)

(** What [self.geolocator.geocode(location_name)] does: it returns a
    location with its coordinates and address, or [None], or raises
    ([GeocoderTimedOut], [GeocoderServiceError] or anything else). *)
Inductive GeocoderOutcome :=
  | Found (lat lon : float) (address : string)
  | NotFound
  | GeocoderRaises (e : exn).

(** What [geocode] returns and caches: [None] or the tuple
    [(latitude, longitude, display_name)]. *)
Definition GeocodeResult : Type := option (float * float * string).

Record LocationService := { location_cache : TTLCache.t GeocodeResult }.

(** What one call of [geocode] reads from outside: the monotonic clock at
    the lookup and at the store, and the geocoder. *)
Record GeocodeEnv := {
  clock_lookup : Z;
  clock_store : Z;
  geolocator_geocode : string -> GeocoderOutcome;
}.

Module Geocoding.

(** [LocationService.__init__]: [TTLCache(maxsize=500, ttl=86400)] *)
Definition new : LocationService := {| location_cache := TTLCache.new 500 86400 |}.

Section geocode.
(** [str.lower] and [str.strip], which follow the Unicode tables *)
Context (lower strip : string -> string).

(** [self.cache[cache_key] = value] inside the [try]: a [ValueError] of
    the cache is caught by [except Exception]. *)
Definition store (env : GeocodeEnv) (cache_key : string) (value : GeocodeResult)
    (self : LocationService) : LocationService * GeocodeResult :=
  match TTLCache.setitem (clock_store env) cache_key value (location_cache self) with
  | Ok c => ({| location_cache := c |}, value)
  | Raise _ =>
      ({| location_cache := TTLCache.expire (clock_store env) (location_cache self) |},
       None)
  end.

(** [LocationService.geocode]; [cache_key in self.cache] and
    [self.cache[cache_key]] see the same clock reading. *)
Definition geocode (env : GeocodeEnv) (location_name : string) (self : LocationService)
  : LocationService * GeocodeResult :=
  let cache_key := strip (lower location_name) in
  match TTLCache.getitem (clock_lookup env) cache_key (location_cache self) with
  | Some (value, c) => ({| location_cache := c |}, value)
  | None =>
      match geolocator_geocode env location_name with
      | NotFound => store env cache_key None self
      | Found lat lon address =>
          store env cache_key
            (Some (PyFloat.truncate4 lat, PyFloat.truncate4 lon, address)) self
      | GeocoderRaises _ => (self, None)
      end
  end.

End geocode.

End Geocoding.

(* ================================================================== *)
(** ** [app/api/routes.py] *)
(* ================================================================== *)

(** [settings.BELGRADE_LAT], [settings.BELGRADE_LON]: the literals
    [44.8125] and [20.4612]. *)
Definition BELGRADE_LAT : float := PyFloat.of_decimal false 448125 4.
Definition BELGRADE_LON : float := PyFloat.of_decimal false 204612 4.

(** What a route handler does: it returns a response object or raises
    [HTTPException(status_code, detail)]. *)
Inductive RouteResult :=
  | Returns (response : loc)
  | HTTPException (status_code : Z) (detail : string).

(** The state behind the routes: the world of the weather service and the
    global [location_service]. *)
Record App := {
  app_world : World;
  app_location_service : LocationService;
}.

Module Routes.
Section routes.
Context (lower strip : string -> string) (tzs : TimezoneService).

(** The [try] block around [weather_service.get_forecast] (lines 104-120
    and 139-155): [except Exception] turns whatever is raised into 504. *)
Definition forecast_or_504 (env : CallEnv) (lat lon : float)
    (location_name : option string) (days : option Z)
    (unit_ : Models.TemperatureUnit) (timezone : option string) (app : App)
  : App * RouteResult :=
  match WeatherService.get_forecast tzs env lat lon location_name days unit_ timezone
          (app_world app) with
  | (w, Ok response) =>
      ({| app_world := w; app_location_service := app_location_service app |},
       Returns response)
  | (w, Raise _) =>
      ({| app_world := w; app_location_service := app_location_service app |},
       HTTPException 504 "Unable to fetch forecast from yr.no")
  end.

(** The handler of [GET /forecast], after FastAPI has checked the query
    parameters against their bounds.  [if location_name and ...] fails
    for [None] and for the empty string. *)
Definition get_forecast (env : CallEnv) (genv : GeocodeEnv)
    (lat lon : option float) (location_name : option string) (days : option Z)
    (unit_ : Models.TemperatureUnit) (timezone : option string) (app : App)
  : App * RouteResult :=
  let '(lat, lon, location_name) :=
    match lat, lon, location_name with
    | None, None, None =>
        (Some BELGRADE_LAT, Some BELGRADE_LON, Some "Belgrade, Serbia")
    | _, _, _ => (lat, lon, location_name)
    end in
  let bad_request :=
    HTTPException 400 "Either coordinates (lat, lon) or location_name must be provided" in
  match lat, lon with
  | Some lat_, Some lon_ =>
      forecast_or_504 env lat_ lon_ location_name days unit_ timezone app
  | _, _ =>
      match location_name with
      | Some nm =>
          if bool_decide (nm = "") then (app, bad_request)
          else
            match Geocoding.geocode lower strip genv nm (app_location_service app) with
            | (ls, None) =>
                ({| app_world := app_world app; app_location_service := ls |},
                 HTTPException 404
                   ("Location not found: '" +:+ nm +:+
                    "'. Please try a different search term or use coordinates."))
            | (ls, Some (lat_, lon_, display_name)) =>
                forecast_or_504 env lat_ lon_ (Some display_name) days unit_ timezone
                  {| app_world := app_world app; app_location_service := ls |}
            end
      | None => (app, bad_request)
      end
  end.

End routes.
End Routes.

(* ================================================================== *)
(** ** [HealthService.check_health] *)
(* ================================================================== *)

Module HealthCheck.

Record HealthStatus := {
  status : string;
  version : string;
  uptime_seconds : float;
  yrno_available : bool;
  cache_size : Z;
  cache_hit_rate : option float;
}.

(** [timedelta.total_seconds()]: the microseconds divided by [10**6], as a
    float. *)
Definition total_seconds (microseconds : Z) : float :=
  match microseconds with
  | Z0 => PyFloat.of_Z 0
  | Zpos p => PyFloat.of_decimal false (Npos p) 6
  | Zneg p => PyFloat.of_decimal true (Npos p) 6
  end.

(** [HealthService.check_health]; [probe] is the outcome of the request
    [check_availability] sends, [utcnow] the value of [datetime.utcnow()],
    [now] the reading of the cache's clock, [app_version] the setting
    [APP_VERSION]. *)
Definition check_health (settings : Settings) (app_version : string)
    (startup_time : datetime) (probe : HttpOutcome) (utcnow : datetime) (now : Z)
    (cache_manager : CacheManager) : HealthStatus :=
  let yrno_available := HealthService._check_yrno probe in
  let uptime := total_seconds (utcnow - startup_time) in
  let cache_stats := Cache.get_statistics settings now cache_manager in
  let status := if yrno_available then "healthy" else "degraded" in
  {| status := status;
     version := app_version;
     uptime_seconds := uptime;
     yrno_available := yrno_available;
     cache_size := Cache.size cache_stats;
     cache_hit_rate := Cache.hit_rate cache_stats |}.

End HealthCheck.

(* ================================================================== *)
(** ** [ForecastRequest] of [app/api/models.py] *)
(* ================================================================== *)

Module Request.

Record ForecastRequest := {
  latitude : option float;
  longitude : option float;
  location_name : option string;
  days : option Z;
  unit : Models.TemperatureUnit;
  timezone : option string;
}.

(** [ForecastRequest.validate_location] (model validator, mode after) *)
Definition validate_location (self : ForecastRequest) : ForecastRequest :=
  let has_coords :=
    match latitude self, longitude self with
    | Some _, Some _ => true
    | _, _ => false
    end in
  let has_name :=
    match location_name self with
    | Some _ => true
    | None => false
    end in
  if negb has_coords && negb has_name then
    {| latitude := Some BELGRADE_LAT; longitude := Some BELGRADE_LON;
       location_name := location_name self; days := days self; unit := unit self;
       timezone := timezone self |}
  else self.

End Request.

(* ================================================================== *)
(** ** Specification vocabulary *)
(* ================================================================== *)

Definition dates (l : list Models.TemperatureReading) : list date :=
  List.map Models.reading_date l.

(** Sorted by [date], strictly: ascending with no date twice. *)
Definition strictly_ascending (l : list Models.TemperatureReading) : Prop :=
  StronglySorted Z.lt (dates l).

Definition ascending (l : list Models.TemperatureReading) : Prop :=
  StronglySorted Z.le (dates l).

(** The local wall clock, the local date, the distance from the target
    time and the dict item of a sample, in the zone of one call. *)
Section sampling_vocabulary.
Context (tz : tzinfo).
Import WeatherService.

Definition sample_local (e : YrNoTimeseriesEntry) : datetime :=
  Timezone.astimezone (entry_time e) tz.
Definition sample_date (e : YrNoTimeseriesEntry) : date := date_of (sample_local e).
Definition sample_dist (e : YrNoTimeseriesEntry) : Z := time_diff_of (sample_local e).
Definition sample_item (e : YrNoTimeseriesEntry) : Item :=
  {| time_diff := sample_dist e; reading := reading_of (sample_local e) e |}.

(** One round of the loop for a sample whose local time was found, and the
    readings the loop and the sort give when it was found for all. *)
Definition sample_step (m : list (date * Item)) (e : YrNoTimeseriesEntry)
  : list (date * Item) :=
  keep_closest m (sample_local e) e.

Definition sampled (ts : list YrNoTimeseriesEntry) : list Models.TemperatureReading :=
  Models.sort_by_date (List.map (fun kv => reading (snd kv)) (fold_left sample_step ts [])).

(** [e], at index [i], is the champion of its date in [ts]: no sample of
    the same local date is strictly closer to the target, and none equally
    close comes before it. *)
Definition champion (ts : list YrNoTimeseriesEntry) (i : nat) (e : YrNoTimeseriesEntry)
  : Prop :=
  ts !! i = Some e /\
  forall j e', ts !! j = Some e' -> sample_date e' = sample_date e ->
    sample_dist e <= sample_dist e' /\ (sample_dist e' = sample_dist e -> (i <= j)%nat).

(** The loop invariant of [_process_timeseries] after the samples [ts]. *)
Definition dict_inv (ts : list YrNoTimeseriesEntry) (m : list (date * Item)) : Prop :=
  NoDup (List.map fst m) /\
  forall d,
    match dict_get d m with
    | None => forall e, e ∈ ts -> sample_date e <> d
    | Some it => exists i e, champion ts i e /\ sample_date e = d /\ it = sample_item e
    end.
End sampling_vocabulary.


Section world_vocabulary.
Import Models.

(** The entries a cache manager holds, live or stale. *)
Definition holds_entry (cm : CacheManager) (e : CacheEntry) : Prop :=
  (exists l, l ∈ TTLCache.links (cache cm) /\ TTLCache.value l = e) \/
  (exists k, stale_cache cm !! k = Some e).

(** Every response object is sorted strictly by date, and every entry of
    the cache manager refers to a response object. *)
Definition world_ok (w : World) : Prop :=
  (forall l r, heap w !! l = Some r -> strictly_ascending (forecasts r)) /\
  (forall e, holds_entry (cache_manager w) e -> is_Some (heap w !! data e)).

(** The worlds that calls of [get_forecast] lead to from the start of the
    process. *)
Inductive reachable (settings : Settings) (tzs : TimezoneService) : World -> Prop :=
  | reachable_initial : reachable settings tzs (WeatherService.initial_world settings)
  | reachable_call w env lat lon location_name days unit_ timezone_override :
      reachable settings tzs w ->
      reachable settings tzs
        (fst (WeatherService.get_forecast tzs env lat lon location_name days unit_
                timezone_override w)).

(** What the two closing steps of [get_forecast] make of a reading list. *)
Definition shaped (unit_ : TemperatureUnit) (days : option Z)
    (fs : list TemperatureReading) : list TemperatureReading :=
  let fs :=
    if bool_decide (unit_ <> CELSIUS)
    then List.map (WeatherService.convert_reading unit_) fs else fs in
  match days with
  | Some n => if n =? 0 then fs else WeatherService.slice_to n fs
  | None => fs
  end.
End world_vocabulary.

(** The operations of [CacheManager], as a caller may issue them in any
    order and at any clock readings, and the cache state they leave.
    [get_stale] and [get_statistics] only read. *)
Inductive cache_op :=
  | OpGet (now : Z) (key : string)
  | OpGetStale (key : string)
  | OpSet (now : Z) (utcnow : datetime) (key : string) (d : loc)
  | OpStatistics (now : Z).

Definition run_op (cm : CacheManager) (op : cache_op) : CacheManager :=
  match op with
  | OpGet now k => snd (Cache.get now k cm)
  | OpGetStale k => cm
  | OpSet now utcnow k d => fst (Cache.set now utcnow k d cm)
  | OpStatistics now => cm
  end.

Definition run_ops (ops : list cache_op) (cm : CacheManager) : CacheManager :=
  fold_left run_op ops cm.

(** [n] distinct keys, each stored and then stored again while live. *)
Definition nth_key (i : nat) : string := "forecast:" +:+ pretty i.

Fixpoint supersede (n : nat) : list cache_op :=
  match n with
  | O => []
  | S i => supersede i ++ [OpSet 0 0 (nth_key i) i; OpSet 0 0 (nth_key i) i]
  end.

(** Requests for one coordinate pair [lat], [lon] while the upstream
    answers and nothing expires: every clock reading lies in a window of
    the length of the time to live, and the request for the coordinates
    succeeds. *)
Section single_flight_vocabulary.
Context (lat lon : float) (ttl : Z).
Import EventLoop.

Definition the_key : string :=
  Cache.generate_key (PyFloat.truncate4 lat) (PyFloat.truncate4 lon).

Definition for_coordinate (r : Request) : Prop := req_lat r = lat /\ req_lon r = lon.

Definition in_window (c : Z) : Prop := 0 <= c < ttl * US_PER_SECOND.

Definition good_env (env : CallEnv) : Prop :=
  in_window (clock_probe env) /\ in_window (clock_reprobe env) /\
  in_window (clock_set env) /\
  exists timeseries,
    WeatherService.fetch_forecast env (PyFloat.truncate4 lat) (PyFloat.truncate4 lon) =
    Ok timeseries.

Definition event_env (ev : event) : CallEnv :=
  match ev with Run _ env | Respond _ env => env end.

Definition good_event (ev : event) : Prop := good_env (event_env ev).

(** The coordinates pass the range checks of [Location]. *)
Definition valid_coordinates : Prop :=
  Models.in_range (-90) 90 (PyFloat.truncate4 lat) &&
  Models.in_range (-180) 180 (PyFloat.truncate4 lon) = true.

(** The cache can hold an item and has the time to live [ttl]. *)
Definition cache_sized (w : World) : Prop :=
  1 <= TTLCache.maxsize (cache (cache_manager w)) /\
  TTLCache.ttl (cache (cache_manager w)) = ttl.

(** No item, live or expired, is under the key; an item is under the key
    that outlives the window. *)
Definition uncached (w : World) : Prop :=
  TTLCache.find_link the_key (TTLCache.links (cache (cache_manager w))) = None.

Definition cached_live (w : World) : Prop :=
  exists l, TTLCache.find_link the_key (TTLCache.links (cache (cache_manager w))) = Some l /\
            ttl * US_PER_SECOND <= TTLCache.expires l.

(** The three phases of the requests for the coordinate: before any of
    them has run; one request in flight, by task [i], the others new or
    waiting for the lock; the forecast cached, every task new, waiting or
    returned. *)
Inductive phase (s : System) : Prop :=
  | phase_idle :
      fetch_log s = [] -> held s = ∅ -> uncached (world s) ->
      Forall (fun t => status t = Start) (tasks s) ->
      phase s
  | phase_in_flight (i : nat) (t : Task) :
      length (fetch_log s) = 1%nat -> held s = {[ "lock:" +:+ the_key ]} ->
      uncached (world s) ->
      tasks s !! i = Some t -> status t = Fetching ->
      (forall j t', tasks s !! j = Some t' -> j <> i ->
                    status t' = Start \/ status t' = Waiting) ->
      phase s
  | phase_cached :
      length (fetch_log s) = 1%nat -> held s = ∅ -> cached_live (world s) ->
      Forall (fun t => status t = Start \/ status t = Waiting \/
                       exists l, status t = Done (Ok l)) (tasks s) ->
      phase s.

Definition system_inv (s : System) : Prop :=
  Forall (fun t => for_coordinate (request t)) (tasks s) /\
  cache_sized (world s) /\
  phase s.

End single_flight_vocabulary.

(** Every held lock belongs to a task whose request is in flight. *)
Definition held_by_fetching (s : EventLoop.System) : Prop :=
  forall k, k ∈ EventLoop.held s ->
    exists j t, EventLoop.tasks s !! j = Some t /\
                EventLoop.status t = EventLoop.Fetching /\
                EventLoop.lock_key_of (EventLoop.request t) = k.

(** Two properties of the locks under any schedule: a task whose request
    is in flight holds its lock, and no two tasks are in flight under one
    lock key. *)
Definition fetching_holds_lock (s : EventLoop.System) : Prop :=
  forall i t, EventLoop.tasks s !! i = Some t ->
    EventLoop.status t = EventLoop.Fetching ->
    EventLoop.lock_key_of (EventLoop.request t) ∈ EventLoop.held s.

Definition one_in_flight_per_key (s : EventLoop.System) : Prop :=
  forall i j ti tj,
    EventLoop.tasks s !! i = Some ti -> EventLoop.tasks s !! j = Some tj ->
    EventLoop.status ti = EventLoop.Fetching ->
    EventLoop.status tj = EventLoop.Fetching ->
    EventLoop.lock_key_of (EventLoop.request ti) =
    EventLoop.lock_key_of (EventLoop.request tj) ->
    i = j.

(** The number of [get] calls among cache operations. *)
Definition is_get (op : cache_op) : bool :=
  match op with OpGet _ _ => true | _ => false end.

Definition count_gets (ops : list cache_op) : Z :=
  Z.of_nat (length (List.filter is_get ops)).

(** The entry [set] creates. *)
Definition new_entry (d : loc) (utcnow : datetime) : CacheEntry :=
  {| data := d; created_at := utcnow; hit_count := 0 |}.

(** A sequence of calls of [get_forecast], one after the other. *)
Record Call := {
  call_env : CallEnv;
  call_lat : float;
  call_lon : float;
  call_location_name : option string;
  call_days : option Z;
  call_unit : Models.TemperatureUnit;
  call_timezone_override : option string;
}.

Definition do_call (tzs : TimezoneService) (c : Call) (w : World) : World * result loc :=
  WeatherService.get_forecast tzs (call_env c) (call_lat c) (call_lon c)
    (call_location_name c) (call_days c) (call_unit c) (call_timezone_override c) w.

Definition run_calls (tzs : TimezoneService) (calls : list Call) (w : World) : World :=
  fold_left (fun w c => fst (do_call tzs c w)) calls w.

(** The clock of a call does not run backwards between its second probe
    and its store. *)
Definition clock_forward (c : Call) : Prop :=
  clock_reprobe (call_env c) <= clock_set (call_env c).

(** A property of every response object of a world. *)
Definition heap_all (Q : Models.ForecastResponse -> Prop) (w : World) : Prop :=
  forall l r, heap w !! l = Some r -> Q r.

(** [days_returned] is the number of forecasts. *)
Definition counts_forecasts (r : Models.ForecastResponse) : Prop :=
  Models.days_returned r = Z.of_nat (length (Models.forecasts r)).

(** Every character of a string passes a test. *)
Fixpoint string_forall (P : Ascii.ascii -> bool) (s : string) : bool :=
  match s with
  | EmptyString => true
  | String c s' => P c && string_forall P s'
  end.

Definition is_digit (c : Ascii.ascii) : bool :=
  (48 <=? Ascii.nat_of_ascii c)%nat && (Ascii.nat_of_ascii c <=? 57)%nat.

Definition is_not (c a : Ascii.ascii) : bool := negb (Ascii.eqb a c).

(** The status code a route result carries, if it is an error. *)
Definition status_of (res : RouteResult) : option Z :=
  match res with
  | Returns _ => None
  | HTTPException status_code _ => Some status_code
  end.

(** [TimezoneService.validate_timezone] *)
Definition validate_timezone (self : TimezoneService) (tz_str : string) : bool :=
  match pytz_timezone self tz_str with
  | Some _ => true
  | None => false
  end.

(** The override of a call decides its zone: it is given, not empty, and
    known to pytz. *)
Definition override_used (self : TimezoneService) (tz_override : option string) : bool :=
  match tz_override with
  | Some s => bool_decide (s <> EmptyString) && validate_timezone self s
  | None => false
  end.

(* ================================================================== *)
(** ** Sample data *)
(* ================================================================== *)

Module Examples.
Import Models.

(** A zone one hour ahead of UTC (Belgrade in winter). *)
Definition plus_one_hour : tzinfo := fun _ => 3600 * US_PER_SECOND.

Definition belgrade_tz : TimezoneService :=
  {| pytz_timezone :=
       fun s => if bool_decide (s = "Europe/Belgrade") then Some plus_one_hour else None;
     timezone_at := fun _ _ => Some plus_one_hour |}.

(** [datetime(2026, 1, 15, h, m)] and the day after; 739631 is
    [date(2026, 1, 15).toordinal()]. *)
Definition jan15 (h m : Z) : datetime := datetime_combine 739631 (mk_time h m).
Definition jan16 (h m : Z) : datetime := datetime_combine 739632 (mk_time h m).

(** The timeseries of [tests/test_weather_service.py]: 5.3 and 6.1 degrees
    at 13:00 UTC on two days. *)
Definition mock_timeseries : list YrNoTimeseriesEntry :=
  [ {| entry_time := jan15 13 0; air_temperature := PyFloat.of_decimal false 53 1 |};
    {| entry_time := jan16 13 0; air_temperature := PyFloat.of_decimal false 61 1 |} ].

(** Samples of one day in Belgrade, named by their local time: 13:00,
    13:50 and 14:10 there are 12:00, 12:50 and 13:10 UTC. *)
Definition sample_1300 : YrNoTimeseriesEntry :=
  {| entry_time := jan15 12 0; air_temperature := PyFloat.of_decimal false 48 1 |}.
Definition sample_1350 : YrNoTimeseriesEntry :=
  {| entry_time := jan15 12 50; air_temperature := PyFloat.of_decimal false 52 1 |}.
Definition sample_1410 : YrNoTimeseriesEntry :=
  {| entry_time := jan15 13 10; air_temperature := PyFloat.of_decimal false 55 1 |}.

Definition env_ok (now : Z) : CallEnv :=
  {| clock_probe := now; clock_reprobe := now; clock_set := now;
     utcnow_response := jan15 10 30; utcnow_entry := jan15 10 30;
     upstream := fun _ _ => Ok mock_timeseries |}.

Definition env_down (now : Z) : CallEnv :=
  {| clock_probe := now; clock_reprobe := now; clock_set := now;
     utcnow_response := jan15 10 30; utcnow_entry := jan15 10 30;
     upstream := fun _ _ => Raise (HTTPError "connect timeout") |}.

(** The literals [44.81254321], [20.46123456], [44.8125], [20.4612]. *)
Definition lat_raw : float := PyFloat.of_decimal false 4481254321 8.
Definition lon_raw : float := PyFloat.of_decimal false 2046123456 8.
Definition lat_belgrade : float := PyFloat.of_decimal false 448125 4.
Definition lon_belgrade : float := PyFloat.of_decimal false 204612 4.

Definition belgrade_key : string := "forecast:44.8125:20.4612".

Definition world0 : World := WeatherService.initial_world default_settings.

(** A world with a live and a stale entry for Belgrade: one forecast was
    served at clock 0, and at clock 1 a second response object was stored
    under the same key by a direct [cache_manager.set], which demoted the
    first. *)
Definition world_served : World :=
  fst (WeatherService.get_forecast belgrade_tz (env_ok 0) lat_raw lon_raw None None
         CELSIUS None world0).

Definition second_response : ForecastResponse :=
  new_ForecastResponse
    {| latitude := lat_belgrade; longitude := lon_belgrade; name := None |}
    [] 0 false (jan15 11 0).

Definition world_live_and_stale : World :=
  let '(l, w) := WeatherService.alloc second_response world_served in
  WeatherService.with_cache_manager
    (fst (Cache.set 1 (jan15 11 0) belgrade_key l (cache_manager w))) w.

(** A clock reading past the expiry of both entries (one hour, in
    microseconds, after clock 1). *)
Definition after_expiry : Z := 3600 * US_PER_SECOND + 2.

(** The literals [-0.00001], [0.00001] and [0.0]. *)
Definition lat_just_south : float := PyFloat.of_decimal true 1 5.
Definition lat_just_north : float := PyFloat.of_decimal false 1 5.
Definition lon_zero : float := PyFloat.of_Z 0.

(** Three concurrent requests for Belgrade, one of them in Fahrenheit. *)
Definition belgrade_request (u : TemperatureUnit) : EventLoop.Request :=
  {| EventLoop.req_lat := lat_belgrade; EventLoop.req_lon := lon_belgrade;
     EventLoop.req_location_name := None; EventLoop.req_days := None;
     EventLoop.req_unit := u; EventLoop.req_timezone_override := None |}.

Definition three_requests : EventLoop.System :=
  EventLoop.initial_system world0
    [belgrade_request CELSIUS; belgrade_request FAHRENHEIT; belgrade_request CELSIUS].

(** A request for Oslo (59.9139, 10.7522), beside one for Belgrade. *)
Definition oslo_request : EventLoop.Request :=
  {| EventLoop.req_lat := PyFloat.of_decimal false 599139 4;
     EventLoop.req_lon := PyFloat.of_decimal false 107522 4;
     EventLoop.req_location_name := None; EventLoop.req_days := None;
     EventLoop.req_unit := CELSIUS; EventLoop.req_timezone_override := None |}.

Definition two_cities : EventLoop.System :=
  EventLoop.initial_system world0 [belgrade_request CELSIUS; oslo_request].

(** Two calls for Belgrade, the second after the entry of the first has
    expired, with a day limit and in Fahrenheit. *)
Definition two_calls : list Call :=
  [ {| call_env := env_ok 0; call_lat := lat_raw; call_lon := lon_raw;
       call_location_name := None; call_days := None;
       call_unit := CELSIUS; call_timezone_override := None |};
    {| call_env := env_ok after_expiry; call_lat := lat_raw;
       call_lon := lon_raw; call_location_name := None;
       call_days := Some 1; call_unit := FAHRENHEIT;
       call_timezone_override := None |} ].

(** A geocoder that finds Oslo at 59.91398765, 10.75221234, and one that
    times out; a new application. *)
Definition oslo_geocoder : GeocodeEnv :=
  {| clock_lookup := 0; clock_store := 0;
     geolocator_geocode := fun _ =>
       Found (PyFloat.of_decimal false 5991398765 8)
             (PyFloat.of_decimal false 1075221234 8) "Oslo, Norway" |}.

Definition geocoder_down (now : Z) : GeocodeEnv :=
  {| clock_lookup := now; clock_store := now;
     geolocator_geocode := fun _ => GeocoderRaises (OtherError "timed out") |}.

Definition new_app : App :=
  {| app_world := world0; app_location_service := Geocoding.new |}.

End Examples.

(* ================================================================== *)
(** ** Sorting by date *)
(* ================================================================== *)

Section sorting.
Import Models.

Lemma insert_by_date_perm x l : Permutation (insert_by_date x l) (x :: l).
Proof.
  induction l as [|y l IH]; simpl; [done|].
  destruct (reading_date x <? reading_date y); [done|].
  rewrite IH. apply perm_swap.
Qed.

Lemma sort_by_date_acc_perm l acc :
  Permutation (fold_left (fun acc x => insert_by_date x acc) l acc) (acc ++ l).
Proof.
  revert acc. induction l as [|x l IH]; intros acc; simpl.
  - by rewrite app_nil_r.
  - rewrite IH, insert_by_date_perm. simpl. apply Permutation_middle.
Qed.

Lemma sort_by_date_perm l : Permutation (sort_by_date l) l.
Proof. unfold sort_by_date. by rewrite sort_by_date_acc_perm. Qed.

Lemma sort_by_date_length l : length (sort_by_date l) = length l.
Proof. apply Permutation_length, sort_by_date_perm. Qed.

Lemma insert_by_date_ascending x l :
  ascending l -> ascending (insert_by_date x l).
Proof.
  unfold ascending, dates. induction l as [|y l IH]; simpl; intros Hs.
  - repeat constructor.
  - inversion Hs as [|? ? Hl Hy]; subst.
    destruct (Z.ltb_spec (reading_date x) (reading_date y)) as [Hlt|Hge]; simpl.
    + constructor; [done|]. constructor; [lia|].
      eapply Forall_impl; [exact Hy|]. simpl. intros; lia.
    + constructor; [by apply IH|].
      change (Forall (Z.le (reading_date y)) (dates (insert_by_date x l))).
      unfold dates. rewrite (insert_by_date_perm x l). simpl.
      constructor; [lia | done].
Qed.

Lemma sort_by_date_ascending l : ascending (sort_by_date l).
Proof.
  unfold sort_by_date.
  assert (H : forall acc, ascending acc ->
            ascending (fold_left (fun acc x => insert_by_date x acc) l acc)).
  { induction l as [|x l IH]; intros acc Hacc; simpl; [done|].
    by apply IH, insert_by_date_ascending. }
  apply H. constructor.
Qed.

Lemma ascending_NoDup_strict (l : list Z) :
  StronglySorted Z.le l -> NoDup l -> StronglySorted Z.lt l.
Proof.
  induction 1 as [|x l Hs IH Hx]; intros Hnd; [constructor|].
  apply NoDup_cons in Hnd as [Hnin Hnd].
  constructor; [by apply IH|].
  rewrite Forall_forall in *. intros y Hy.
  assert (x <> y) by (intros ->; by apply Hnin).
  specialize (Hx y Hy). lia.
Qed.

Lemma strict_NoDup (l : list Z) : StronglySorted Z.lt l -> NoDup l.
Proof.
  induction 1 as [|x l Hs IH Hx]; constructor; [|done].
  intros Hin.
  rewrite Forall_forall in Hx. specialize (Hx x Hin). lia.
Qed.

Lemma sort_by_date_strict l :
  NoDup (dates l) -> strictly_ascending (sort_by_date l).
Proof.
  intros Hnd. apply ascending_NoDup_strict; [apply sort_by_date_ascending|].
  unfold dates. by rewrite (sort_by_date_perm l).
Qed.

End sorting.

(* ================================================================== *)
(** ** The daily sampling of [_process_timeseries] *)
(* ================================================================== *)

Section sampling.
Context (tzs : TimezoneService) (lat lon : float) (ov : option string).
Import Models WeatherService.

Lemma dict_get_set_eq d v m : dict_get d (dict_set d v m) = Some v.
Proof.
  induction m as [|[k v'] m IH]; simpl.
  - by rewrite Z.eqb_refl.
  - destruct (Z.eqb_spec k d) as [->|Hne]; simpl.
    + by rewrite Z.eqb_refl.
    + by destruct (Z.eqb_spec k d).
Qed.

Lemma dict_get_set_ne d d' v m : d <> d' -> dict_get d' (dict_set d v m) = dict_get d' m.
Proof.
  intros Hne. induction m as [|[k v'] m IH]; simpl.
  - by destruct (Z.eqb_spec d d').
  - destruct (Z.eqb_spec k d) as [->|Hkd]; simpl.
    + by destruct (Z.eqb_spec d d').
    + by rewrite IH.
Qed.

Lemma dict_get_None d m : dict_get d m = None <-> d ∉ List.map fst m.
Proof.
  induction m as [|[k v] m IH]; simpl.
  - split; [intros _; apply not_elem_of_nil | done].
  - rewrite not_elem_of_cons. destruct (Z.eqb_spec k d) as [->|Hne].
    + split; [done | by intros [? _]].
    + rewrite IH. split; [by split | by intros [_ ?]].
Qed.

Lemma dict_get_Some_elem d v m : dict_get d m = Some v -> (d, v) ∈ m.
Proof.
  induction m as [|[k v'] m IH]; simpl; [done|].
  destruct (Z.eqb_spec k d) as [->|Hne].
  - intros [= ->]. apply list_elem_of_here.
  - intros H. apply list_elem_of_further. by apply IH.
Qed.

Lemma dict_elem_get d v m : NoDup (List.map fst m) -> (d, v) ∈ m -> dict_get d m = Some v.
Proof.
  induction m as [|[k v'] m IH]; simpl; intros Hnd Hin.
  - by apply elem_of_nil in Hin.
  - apply NoDup_cons in Hnd as [Hk Hnd].
    apply elem_of_cons in Hin as [[= <- <-]|Hin].
    + by rewrite Z.eqb_refl.
    + destruct (Z.eqb_spec k d) as [->|Hne]; [|by apply IH].
      exfalso. apply Hk. change d with (fst (d, v)). by apply list_elem_of_fmap_2.
Qed.

Lemma dict_set_keys d v m :
  List.map fst (dict_set d v m) =
  match dict_get d m with
  | Some _ => List.map fst m
  | None => List.map fst m ++ [d]
  end.
Proof.
  induction m as [|[k v'] m IH]; simpl; [done|].
  destruct (Z.eqb_spec k d) as [->|Hne]; simpl; [done|].
  rewrite IH. by destruct (dict_get d m).
Qed.

Lemma dict_set_NoDup d v m : NoDup (List.map fst m) -> NoDup (List.map fst (dict_set d v m)).
Proof.
  intros Hnd. rewrite dict_set_keys.
  destruct (dict_get d m) eqn:Hg; [done|].
  apply NoDup_app. split; [done|]. split.
  - intros x Hx. rewrite list_elem_of_singleton. intros ->.
    by apply dict_get_None in Hg.
  - apply NoDup_singleton.
Qed.

End sampling.

Section sampling2.
Context (tz : tzinfo).
Import Models WeatherService.

#[local] Abbreviation step := (sample_step tz).
#[local] Abbreviation s_date := (sample_date tz).
#[local] Abbreviation s_dist := (sample_dist tz).
#[local] Abbreviation s_item := (sample_item tz).
#[local] Abbreviation champ := (champion tz).
#[local] Abbreviation inv := (dict_inv tz).

Lemma sample_step_unfold m e :
  step m e =
  match dict_get (s_date e) m with
  | None => dict_set (s_date e) (s_item e) m
  | Some current =>
      if s_dist e <? time_diff current then dict_set (s_date e) (s_item e) m else m
  end.
Proof. reflexivity. Qed.

Lemma champion_snoc_other ts i e0 e :
  champ ts i e0 -> s_date e <> s_date e0 -> champ (ts ++ [e]) i e0.
Proof.
  intros [Hi Hmin] Hne. split.
  - by apply lookup_app_l_Some.
  - intros j e' Hj Hd.
    apply lookup_app_Some in Hj as [Hj|[_ Hj]]; [by apply Hmin|].
    apply list_lookup_singleton_Some in Hj as [_ <-]. congruence.
Qed.

Lemma champion_snoc_keep ts i e0 e :
  champ ts i e0 -> s_dist e0 <= s_dist e -> champ (ts ++ [e]) i e0.
Proof.
  intros [Hi Hmin] Hle. split.
  - by apply lookup_app_l_Some.
  - intros j e' Hj Hd.
    apply lookup_app_Some in Hj as [Hj|[Hlen Hj]]; [by apply Hmin|].
    apply list_lookup_singleton_Some in Hj as [_ <-].
    split; [done|]. intros _. apply lookup_lt_Some in Hi. lia.
Qed.

Lemma champion_snoc_new ts e :
  (forall j e', ts !! j = Some e' -> s_date e' = s_date e -> s_dist e < s_dist e') ->
  champ (ts ++ [e]) (length ts) e.
Proof.
  intros Hlt. split.
  - by apply list_lookup_middle.
  - intros j e' Hj Hd.
    apply lookup_app_Some in Hj as [Hj|[Hlen Hj]].
    + specialize (Hlt j e' Hj Hd). lia.
    + apply list_lookup_singleton_Some in Hj as [_ <-]. split; [lia|done].
Qed.

Lemma dict_inv_nil : inv [] [].
Proof.
  split; [constructor|]. intros d. simpl. intros e He. by apply elem_of_nil in He.
Qed.

Lemma dict_inv_step ts m e : inv ts m -> inv (ts ++ [e]) (step m e).
Proof.
  intros [Hnd Hinv]. rewrite sample_step_unfold.
  pose proof (Hinv (s_date e)) as He.
  split.
  - destruct (dict_get (s_date e) m) as [cur|]; [|by apply dict_set_NoDup].
    destruct (s_dist e <? time_diff cur); [by apply dict_set_NoDup | done].
  - intros d. destruct (decide (s_date e = d)) as [<-|Hne].
    + destruct (dict_get (s_date e) m) as [cur|] eqn:Hcur.
      * destruct He as (i & e0 & Hch & Hd0 & ->). simpl.
        destruct (Z.ltb_spec (s_dist e) (s_dist e0)) as [Hlt|Hge].
        -- rewrite dict_get_set_eq. exists (length ts), e. split; [|done].
           apply champion_snoc_new. intros j e' Hj Hd.
           destruct Hch as [_ Hmin]. specialize (Hmin j e' Hj). 
           rewrite Hd, Hd0 in Hmin. specialize (Hmin eq_refl). lia.
        -- rewrite Hcur. exists i, e0. split; [|done].
           by apply champion_snoc_keep.
      * rewrite dict_get_set_eq. exists (length ts), e. split; [|done].
        apply champion_snoc_new. intros j e' Hj Hd. exfalso.
        eapply He; [|exact Hd]. by eapply list_elem_of_lookup_2.
    + assert (Hget : dict_get d (step m e) = dict_get d m).
      { rewrite sample_step_unfold.
        destruct (dict_get (s_date e) m) as [cur|].
        - destruct (s_dist e <? time_diff cur); [by apply dict_get_set_ne | done].
        - by apply dict_get_set_ne. }
      rewrite <- sample_step_unfold, Hget. specialize (Hinv d).
      destruct (dict_get d m) as [it|].
      * destruct Hinv as (i & e0 & Hch & Hd0 & ->). exists i, e0. split; [|done].
        apply champion_snoc_other; [done | congruence].
      * intros e' He'. apply elem_of_app in He' as [He'|He'].
        -- by apply Hinv.
        -- apply list_elem_of_singleton in He' as ->. done.
Qed.

Lemma dict_inv_fold ts pre m :
  inv pre m -> inv (pre ++ ts) (fold_left step ts m).
Proof.
  revert pre m. induction ts as [|e ts IH]; intros pre m Hinv; simpl.
  - by rewrite app_nil_r.
  - replace (pre ++ e :: ts) with ((pre ++ [e]) ++ ts) by (by rewrite <- app_assoc).
    by apply IH, dict_inv_step.
Qed.

Lemma dict_inv_values ts m :
  inv ts m ->
  List.map (fun kv => reading_date (reading (snd kv))) m = List.map fst m.
Proof.
  intros [Hnd Hinv]. apply map_ext_in. intros [k it] Hin. simpl.
  apply list_elem_of_In in Hin. apply (dict_elem_get _ _ _ Hnd) in Hin.
  specialize (Hinv k). rewrite Hin in Hinv.
  by destruct Hinv as (i & e & _ & <- & ->).
Qed.

End sampling2.

Section sampling3.
Import Models WeatherService.

(** *** The loop in a zone that was found, and in one that was not *)

Lemma tf_timezone_at_in_range (tzs : TimezoneService) (lat lon : float) :
  in_range (-90) 90 lat && in_range (-180) 180 lon = true ->
  Timezone.tf_timezone_at tzs lat lon = Ok (timezone_at tzs lat lon).
Proof.
  intros [Hlat Hlon]%andb_true_iff. unfold Timezone.tf_timezone_at.
  by rewrite Hlat, Hlon.
Qed.

Lemma tf_timezone_at_out_of_range (tzs : TimezoneService) (lat lon : float) :
  in_range (-90) 90 lat && in_range (-180) 180 lon = false ->
  Timezone.tf_timezone_at tzs lat lon = Raise ValueError.
Proof.
  intros H. unfold Timezone.tf_timezone_at.
  rewrite andb_comm in H. by rewrite H.
Qed.

Lemma get_timezone_in_range (tzs : TimezoneService) (lat lon : float)
    (ov : option string) :
  in_range (-90) 90 lat && in_range (-180) 180 lon = true ->
  exists tz, Timezone.get_timezone tzs lat lon ov = Ok tz.
Proof.
  intros H. unfold Timezone.get_timezone. rewrite (tf_timezone_at_in_range _ _ _ H).
  destruct ov as [s|].
  - case_bool_decide.
    + destruct (timezone_at tzs lat lon); eauto.
    + destruct (pytz_timezone tzs s); [eauto|].
      destruct (timezone_at tzs lat lon); eauto.
  - destruct (timezone_at tzs lat lon); eauto.
Qed.

Lemma process_entry_ok (tzs : TimezoneService) (lat lon : float)
    (ov : option string) (tz : tzinfo) m e :
  Timezone.get_timezone tzs lat lon ov = Ok tz ->
  process_entry tzs lat lon ov m e = Ok (sample_step tz m e).
Proof.
  intros Htz. unfold process_entry, local_time_of, Timezone.to_local_time.
  by rewrite Htz.
Qed.

Lemma process_entry_raise (tzs : TimezoneService) (lat lon : float)
    (ov : option string) (x : exn) m e :
  Timezone.get_timezone tzs lat lon ov = Raise x ->
  process_entry tzs lat lon ov m e = Raise x.
Proof.
  intros Htz. unfold process_entry, local_time_of, Timezone.to_local_time.
  by rewrite Htz.
Qed.

Lemma for_entries_ok (tzs : TimezoneService) (lat lon : float)
    (ov : option string) (tz : tzinfo) ts m :
  Timezone.get_timezone tzs lat lon ov = Ok tz ->
  for_entries (process_entry tzs lat lon ov) ts m = Ok (fold_left (sample_step tz) ts m).
Proof.
  intros Htz. revert m. induction ts as [|e ts IH]; intros m; simpl; [done|].
  by rewrite (process_entry_ok _ _ _ _ tz).
Qed.

Lemma process_timeseries_ok (tzs : TimezoneService) (lat lon : float)
    (ov : option string) (tz : tzinfo) ts :
  Timezone.get_timezone tzs lat lon ov = Ok tz ->
  _process_timeseries tzs ts lat lon ov = Ok (sampled tz ts).
Proof.
  intros Htz. unfold _process_timeseries.
  by rewrite (for_entries_ok _ _ _ _ tz).
Qed.

Lemma process_timeseries_raise (tzs : TimezoneService) (lat lon : float)
    (ov : option string) (x : exn) ts :
  Timezone.get_timezone tzs lat lon ov = Raise x ->
  _process_timeseries tzs ts lat lon ov =
  match ts with [] => Ok [] | _ :: _ => Raise x end.
Proof.
  intros Htz. unfold _process_timeseries. destruct ts as [|e ts]; simpl; [done|].
  by rewrite (process_entry_raise _ _ _ _ x).
Qed.

Lemma process_timeseries_in_range (tzs : TimezoneService) (lat lon : float)
    (ov : option string) ts :
  in_range (-90) 90 lat && in_range (-180) 180 lon = true ->
  exists tz, Timezone.get_timezone tzs lat lon ov = Ok tz /\
             _process_timeseries tzs ts lat lon ov = Ok (sampled tz ts).
Proof.
  intros H. destruct (get_timezone_in_range tzs lat lon ov H) as [tz Htz].
  exists tz. split; [done | by apply process_timeseries_ok].
Qed.

Lemma process_timeseries_Ok_sampled (tzs : TimezoneService) (lat lon : float)
    (ov : option string) ts out :
  _process_timeseries tzs ts lat lon ov = Ok out -> exists tz, out = sampled tz ts.
Proof.
  intros Hout. destruct (Timezone.get_timezone tzs lat lon ov) as [tz|x] eqn:Htz.
  - exists tz. rewrite (process_timeseries_ok _ _ _ _ tz) in Hout by done. congruence.
  - rewrite (process_timeseries_raise _ _ _ _ x) in Hout by done.
    destruct ts; [|done]. exists UTC. by injection Hout as <-.
Qed.

(** The distance kept in the dict is that of the time of day of the local
    wall clock from 14:00:00, in microseconds. *)
Lemma time_diff_of_target (local_time : datetime) :
  time_diff_of local_time = Z.abs (local_time mod 86400000000 - 50400000000).
Proof.
  unfold time_diff_of, datetime_combine, date_of, mk_time, TARGET_HOUR, TARGET_MINUTE.
  change US_PER_DAY with 86400000000. change US_PER_SECOND with 1000000.
  rewrite (Z.mod_eq local_time 86400000000) by lia. f_equal. lia.
Qed.

Lemma sampled_invariant (tz : tzinfo) (ts : list YrNoTimeseriesEntry) :
  dict_inv tz ts (fold_left (sample_step tz) ts []).
Proof. exact (dict_inv_fold tz ts [] [] (dict_inv_nil tz)). Qed.

Lemma sampled_spec (tz : tzinfo) (ts : list YrNoTimeseriesEntry) :
  NoDup (dates (sampled tz ts)) /\
  (forall d, d ∈ dates (sampled tz ts) <-> exists e, e ∈ ts /\ sample_date tz e = d) /\
  (forall r, r ∈ sampled tz ts ->
     exists i e, champion tz ts i e /\ r = reading_of (sample_local tz e) e).
Proof.
  pose proof (sampled_invariant tz ts) as Hinv.
  set (out := sampled tz ts).
  set (m := fold_left (sample_step tz) ts []) in *.
  assert (Hout : Permutation out (List.map (fun kv => reading (snd kv)) m))
    by apply sort_by_date_perm.
  assert (Hdates : Permutation (dates out) (List.map fst m)).
  { unfold dates. rewrite Hout, List.map_map.
    by rewrite (dict_inv_values tz ts m Hinv). }
  destruct Hinv as [Hnd Hinv].
  split; [|split].
  - by rewrite Hdates.
  - intros d. rewrite Hdates. specialize (Hinv d). split.
    + intros Hd. destruct (dict_get d m) as [it|] eqn:Hg.
      * destruct Hinv as (i & e & [Hi _] & Hde & _).
        exists e. split; [by eapply list_elem_of_lookup_2 | done].
      * by apply dict_get_None in Hg.
    + intros (e & He & Hde). destruct (dict_get d m) as [it|] eqn:Hg.
      * apply dict_get_Some_elem in Hg. change d with (fst (d, it)).
        by apply list_elem_of_fmap_2.
      * by destruct (Hinv e He).
  - intros r Hr. rewrite Hout in Hr.
    apply list_elem_of_fmap in Hr as ([k it] & -> & Hin). simpl.
    apply (dict_elem_get _ _ _ Hnd) in Hin.
    specialize (Hinv k). rewrite Hin in Hinv.
    destruct Hinv as (i & e & Hch & _ & ->). by exists i, e.
Qed.

(** Claim C2.  In the zone [tz] found for the call, the local wall clock
    of a sample is its UTC instant moved by the offset of the zone, its
    date the whole days of that clock, and its distance that of its time of
    day from 14:00:00, the 50 400 000 000th microsecond of the day (first
    conjunct).  Where a date already has a champion, the next sample of
    that date takes its place exactly when this distance is strictly
    smaller than the one kept (second conjunct).  The sampling returns one
    reading per local date that occurs among the samples, and each reading
    returned is the one of the first sample, among those of its date, at
    the least distance from 14:00: on equal distance the sample seen first
    stays (third conjunct). *)
Theorem process_timeseries_keeps_closest
    (tzs : TimezoneService) (lat lon : float) (ov : option string)
    (ts : list YrNoTimeseriesEntry) (tz : tzinfo) :
  Timezone.get_timezone tzs lat lon ov = Ok tz ->
  (forall e,
      local_time_of tzs lat lon ov e = Ok (sample_local tz e) /\
      sample_local tz e = entry_time e + tz (entry_time e) /\
      sample_date tz e = sample_local tz e / 86400000000 /\
      sample_dist tz e = Z.abs (sample_local tz e mod 86400000000 - 50400000000)) /\
  (forall m e current,
      dict_get (sample_date tz e) m = Some current ->
      exists m',
        process_entry tzs lat lon ov m e = Ok m' /\
        dict_get (sample_date tz e) m' =
        Some (if sample_dist tz e <? time_diff current
              then sample_item tz e else current)) /\
  exists out,
    _process_timeseries tzs ts lat lon ov = Ok out /\
    NoDup (dates out) /\
    (forall d, d ∈ dates out <-> exists e, e ∈ ts /\ sample_date tz e = d) /\
    (forall r, r ∈ out ->
       exists i e, champion tz ts i e /\ r = reading_of (sample_local tz e) e).
Proof.
  intros Htz. split; [|split].
  - intros e. split; [|split; [|split]].
    + unfold local_time_of, Timezone.to_local_time. by rewrite Htz.
    + done.
    + done.
    + apply time_diff_of_target.
  - intros m e current Hcur. exists (sample_step tz m e).
    split; [by apply process_entry_ok|].
    rewrite sample_step_unfold, Hcur.
    destruct (sample_dist tz e <? time_diff current).
    + apply dict_get_set_eq.
    + done.
  - exists (sampled tz ts). split; [by apply process_timeseries_ok|].
    apply sampled_spec.
Qed.

End sampling3.

Section sampling_witness.
Import Models WeatherService Examples.

(** The samples of the tests, in Belgrade: 13:00 UTC is 14:00 there. *)
Lemma process_timeseries_keeps_closest_witness :
  Timezone.get_timezone belgrade_tz lat_belgrade lon_belgrade None = Ok plus_one_hour /\
  exists out,
    _process_timeseries belgrade_tz mock_timeseries lat_belgrade lon_belgrade None = Ok out /\
    NoDup (dates out).
Proof.
  split; [reflexivity|].
  destruct (process_timeseries_keeps_closest belgrade_tz lat_belgrade lon_belgrade None
              mock_timeseries plus_one_hour eq_refl) as (_ & _ & out & Hout & Hnd & _).
  by exists out.
Defined.

(** Two samples of one local date, one hour before 14:00 and ten minutes
    after it: the one ten minutes away is kept, whichever comes first. *)
Example sample_at_600s_beats_sample_at_3600s :
  _process_timeseries belgrade_tz [sample_1300; sample_1410]
    lat_belgrade lon_belgrade None =
  Ok [reading_of (jan15 14 10) sample_1410] /\
  _process_timeseries belgrade_tz [sample_1410; sample_1300]
    lat_belgrade lon_belgrade None =
  Ok [reading_of (jan15 14 10) sample_1410].
Proof. split; reflexivity. Qed.

(** Ten minutes before 14:00 and ten minutes after it are equally far: the
    sample seen first is kept. *)
Example equally_close_samples_keep_the_first :
  _process_timeseries belgrade_tz [sample_1350; sample_1410]
    lat_belgrade lon_belgrade None =
  Ok [reading_of (jan15 13 50) sample_1350] /\
  _process_timeseries belgrade_tz [sample_1410; sample_1350]
    lat_belgrade lon_belgrade None =
  Ok [reading_of (jan15 14 10) sample_1410].
Proof. split; reflexivity. Qed.

End sampling_witness.

(* ================================================================== *)
(** ** Response shaping, the cache, and the worlds of [get_forecast] *)
(* ================================================================== *)

Section shaping.
Import Models WeatherService.

Lemma dates_convert u fs : dates (List.map (convert_reading u) fs) = dates fs.
Proof. unfold dates. rewrite List.map_map. by apply map_ext. Qed.

Lemma StronglySorted_take {A} (R : A -> A -> Prop) n (l : list A) :
  StronglySorted R l -> StronglySorted R (take n l).
Proof.
  intros Hs. revert n. induction Hs as [|x l Hs IH Hx]; intros [|n]; simpl;
    try constructor.
  - apply IH.
  - rewrite Forall_forall in *. intros y Hy. apply Hx.
    apply elem_of_take in Hy as (i & Hi & _). by eapply list_elem_of_lookup_2.
Qed.

Lemma dates_slice_to n fs : dates (slice_to n fs) = slice_to n (dates fs).
Proof.
  unfold slice_to, dates. rewrite length_map.
  destruct (0 <=? n); by rewrite <- fmap_take.
Qed.

Lemma strictly_ascending_slice_to n fs :
  strictly_ascending fs -> strictly_ascending (slice_to n fs).
Proof.
  unfold strictly_ascending. rewrite dates_slice_to. unfold slice_to.
  destruct (0 <=? n); apply StronglySorted_take.
Qed.

Lemma strictly_ascending_shaped u days fs :
  strictly_ascending fs -> strictly_ascending (shaped u days fs).
Proof.
  intros Hs. unfold shaped.
  assert (Hc : strictly_ascending
            (if bool_decide (u <> CELSIUS) then List.map (convert_reading u) fs else fs)).
  { case_bool_decide; [|done]. unfold strictly_ascending. by rewrite dates_convert. }
  destruct days as [n|]; [|done].
  destruct (n =? 0); [done|]. by apply strictly_ascending_slice_to.
Qed.

(** The heap after the two closing steps, at the object they work on and
    elsewhere. *)
Lemma shape_heap_lookup u days l h r :
  h !! l = Some r ->
  exists r', filter_if_requested days l (convert_if_needed u l h) !! l = Some r' /\
    forecasts r' = shaped u days (forecasts r) /\
    location r' = location r /\ cached r' = cached r /\ stale r' = stale r /\
    cached_at r' = cached_at r /\ generated_at r' = generated_at r.
Proof.
  intros Hl. unfold filter_if_requested, convert_if_needed, shaped,
    _filter_days, _convert_units.
  case_bool_decide; destruct days as [n|]; try destruct (n =? 0);
    rewrite ?lookup_alter_eq, ?Hl; simpl; eauto 10.
Qed.

Lemma shape_heap_lookup_ne u days l l' h :
  l <> l' -> filter_if_requested days l (convert_if_needed u l h) !! l' = h !! l'.
Proof.
  intros Hne. unfold filter_if_requested, convert_if_needed, _filter_days, _convert_units.
  case_bool_decide; destruct days as [n|]; try destruct (n =? 0);
    by rewrite ?lookup_alter_ne.
Qed.

End shaping.

Section ttlcache_facts.
Context {V : Type}.
Implicit Types (c : TTLCache.t V) (l : TTLCache.link V) (ls : list (TTLCache.link V)).

Lemma find_link_Some k ls l :
  TTLCache.find_link k ls = Some l -> l ∈ ls /\ TTLCache.key l = k.
Proof.
  unfold TTLCache.find_link. intros H. apply find_some in H as [Hin Hk].
  split; [by apply list_elem_of_In|].
  unfold TTLCache.is_key in Hk. by apply bool_decide_eq_true in Hk.
Qed.

Lemma find_link_None k ls :
  TTLCache.find_link k ls = None -> forall l, l ∈ ls -> TTLCache.key l <> k.
Proof.
  unfold TTLCache.find_link. intros H l Hin Hk.
  apply list_elem_of_In in Hin. pose proof (find_none _ _ H l Hin) as Hf.
  unfold TTLCache.is_key in Hf. by apply bool_decide_eq_false in Hf.
Qed.

Lemma elem_of_remove_link k ls l :
  l ∈ TTLCache.remove_link k ls <-> l ∈ ls /\ TTLCache.key l <> k.
Proof.
  unfold TTLCache.remove_link. rewrite !list_elem_of_In, filter_In.
  unfold TTLCache.is_key. by rewrite negb_true_iff, bool_decide_eq_false.
Qed.

Lemma getitem_Some now k c v c' :
  TTLCache.getitem now k c = Some (v, c') ->
  exists l, l ∈ TTLCache.links c /\ TTLCache.key l = k /\ TTLCache.value l = v /\
            TTLCache.live now l = true /\
            TTLCache.find_link k (TTLCache.links c) = Some l /\
            c' = TTLCache.with_links
                   (TTLCache.remove_link k (TTLCache.links c) ++ [l]) c.
Proof.
  unfold TTLCache.getitem. destruct (TTLCache.find_link k (TTLCache.links c)) as [l|] eqn:Hf;
    [|done].
  destruct (TTLCache.live now l) eqn:Hl; [|done]. intros [= <- <-].
  apply find_link_Some in Hf as Hf'. destruct Hf'. by exists l.
Qed.

Lemma getitem_contains now k c :
  TTLCache.contains now k c = false <-> TTLCache.getitem now k c = None.
Proof.
  unfold TTLCache.contains, TTLCache.getitem.
  destruct (TTLCache.find_link k (TTLCache.links c)) as [l|]; [|done].
  by destruct (TTLCache.live now l).
Qed.

Lemma getitem_links_subseteq now k c v c' l :
  TTLCache.getitem now k c = Some (v, c') ->
  l ∈ TTLCache.links c' -> l ∈ TTLCache.links c.
Proof.
  intros H. apply getitem_Some in H as (l0 & Hin & Hk & _ & _ & _ & ->). simpl.
  rewrite elem_of_app, elem_of_remove_link, list_elem_of_singleton.
  by intros [[? _]| ->].
Qed.

Lemma expire_links_subseteq now c l :
  l ∈ TTLCache.links (TTLCache.expire now c) -> l ∈ TTLCache.links c.
Proof. simpl. rewrite !list_elem_of_In, filter_In. by intros [? _]. Qed.

Lemma evict_subseteq m ls l : l ∈ TTLCache.evict m ls -> l ∈ ls.
Proof.
  unfold TTLCache.evict. apply subseteq_drop.
Qed.

Lemma setitem_Ok now k v c c' :
  TTLCache.setitem now k v c = Ok c' ->
  1 <= TTLCache.maxsize c /\
  exists ls', (forall l, l ∈ ls' -> l ∈ TTLCache.links c) /\
    c' = TTLCache.with_links
           (TTLCache.remove_link k ls' ++
              [{| TTLCache.key := k; TTLCache.value := v;
                  TTLCache.expires := now + TTLCache.ttl c * US_PER_SECOND |}]) c.
Proof.
  unfold TTLCache.setitem. destruct (Z.ltb_spec (TTLCache.maxsize c) 1); [done|].
  intros [= <-]. split; [lia|].
  eexists. split; [|reflexivity].
  intros l Hl. apply expire_links_subseteq with now.
  destruct (TTLCache.find_link k _); [done | by eapply evict_subseteq].
Qed.

Lemma setitem_links_subseteq now k v c c' l :
  TTLCache.setitem now k v c = Ok c' ->
  l ∈ TTLCache.links c' -> TTLCache.value l = v \/ l ∈ TTLCache.links c.
Proof.
  intros H. apply setitem_Ok in H as (_ & ls' & Hsub & ->). simpl.
  rewrite elem_of_app, elem_of_remove_link, list_elem_of_singleton.
  intros [[? _]| ->]; [right; by apply Hsub | by left].
Qed.

Lemma update_value_links f k c l :
  l ∈ TTLCache.links (TTLCache.update_value f k c) ->
  exists l0, l0 ∈ TTLCache.links c /\ TTLCache.key l = TTLCache.key l0 /\
             (TTLCache.value l = TTLCache.value l0 \/
              TTLCache.value l = f (TTLCache.value l0)).
Proof.
  simpl. intros H. apply list_elem_of_fmap in H as (l0 & -> & Hin).
  exists l0. split; [done|]. destruct (TTLCache.is_key k l0); simpl; auto.
Qed.

End ttlcache_facts.

Section cache_manager_facts.

Lemma increment_hits_data e : data (increment_hits e) = data e.
Proof. done. Qed.

Lemma get_miss now k cm :
  TTLCache.contains now k (cache cm) = false ->
  Cache.get now k cm =
  (None, {| cache := cache cm; stale_cache := stale_cache cm;
            stats_hits := stats_hits cm; stats_misses := stats_misses cm + 1 |}).
Proof. intros H. apply getitem_contains in H. unfold Cache.get. by rewrite H. Qed.

Lemma get_None now k cm cm' :
  Cache.get now k cm = (None, cm') ->
  TTLCache.getitem now k (cache cm) = None /\
  cache cm' = cache cm /\ stale_cache cm' = stale_cache cm.
Proof.
  unfold Cache.get. destruct (TTLCache.getitem now k (cache cm)) as [[e c]|]; [done|].
  by intros [= <-].
Qed.

Lemma get_holds now k cm o cm' :
  Cache.get now k cm = (o, cm') ->
  stale_cache cm' = stale_cache cm /\
  (forall e', holds_entry cm' e' -> exists e, holds_entry cm e /\ data e' = data e) /\
  (forall e', o = Some e' -> exists e, holds_entry cm e /\ data e' = data e).
Proof.
  unfold Cache.get.
  destruct (TTLCache.getitem now k (cache cm)) as [[e c]|] eqn:Hg; intros [= <- <-]; simpl.
  - split; [done|]. split.
    + intros e' [(l & Hl & <-)|(k' & Hk')].
      * apply update_value_links in Hl as (l0 & Hl0 & _ & Hv).
        exists (TTLCache.value l0). split.
        -- left. exists l0. split; [|done]. by eapply getitem_links_subseteq.
        -- by destruct Hv as [-> | ->].
      * exists e'. split; [right; by exists k' | done].
    + intros e' [= <-]. apply getitem_Some in Hg as (l & Hl & _ & <- & _).
      exists (TTLCache.value l). split; [left; by exists l | done].
  - split; [done|]. split; [|done].
    intros e' He'. by exists e'.
Qed.

Lemma set_holds now utcnow k d cm cm' res :
  Cache.set now utcnow k d cm = (cm', res) ->
  forall e', holds_entry cm' e' -> data e' = d \/ holds_entry cm e'.
Proof.
  unfold Cache.set.
  destruct (TTLCache.getitem now k (cache cm)) as [[old c]|] eqn:Hg.
  - pose proof Hg as Hg'. apply getitem_Some in Hg' as (l0 & Hl0 & _ & Hv0 & _).
    destruct (TTLCache.setitem now k _ c) as [c2|ex] eqn:Hs; intros [= <- <-];
      intros e' [(l & Hl & <-)|(k' & Hk')]; simpl in *.
    + apply (setitem_links_subseteq _ _ _ _ _ _ Hs) in Hl as [-> | Hl]; [by left|].
      right. left. exists l. split; [|done].
      by apply (getitem_links_subseteq _ _ _ _ _ _ Hg).
    + right. apply lookup_insert_Some in Hk' as [[_ <-]|[_ Hk']].
      * left. by exists l0.
      * right. by exists k'.
    + right. left. exists l. split; [|done].
      apply (getitem_links_subseteq _ _ _ _ _ _ Hg). exact (expire_links_subseteq now _ _ Hl).
    + right. apply lookup_insert_Some in Hk' as [[_ <-]|[_ Hk']].
      * left. by exists l0.
      * right. by exists k'.
  - destruct (TTLCache.setitem now k _ (cache cm)) as [c2|ex] eqn:Hs; intros [= <- <-];
      intros e' [(l & Hl & <-)|(k' & Hk')]; simpl in *.
    + apply (setitem_links_subseteq _ _ _ _ _ _ Hs) in Hl as [-> | Hl]; [by left|].
      right. left. by exists l.
    + right. right. by exists k'.
    + right. left. exists l. split; [|done]. exact (expire_links_subseteq now _ _ Hl).
    + right. right. by exists k'.
Qed.

End cache_manager_facts.

Section world_facts.
Import Models WeatherService.

Lemma shape_heap_lookup_None u days l h :
  h !! l = None -> filter_if_requested days l (convert_if_needed u l h) !! l = None.
Proof.
  intros Hl. unfold filter_if_requested, convert_if_needed, _filter_days, _convert_units.
  case_bool_decide; destruct days as [n|]; try destruct (n =? 0);
    by rewrite ?lookup_alter_eq, ?Hl.
Qed.

Lemma serve_cached_spec e u days w :
  let w' := fst (serve_cached e u days w) in
  snd (serve_cached e u days w) = data e /\
  cache_manager w' = cache_manager w /\
  (forall x, x <> data e -> heap w' !! x = heap w !! x) /\
  (heap w !! data e = None -> heap w' !! data e = None) /\
  (forall r, heap w !! data e = Some r ->
     exists r', heap w' !! data e = Some r' /\
       forecasts r' = shaped u days (forecasts r) /\
       cached r' = true /\ stale r' = stale r /\
       cached_at r' = Some (created_at e) /\
       location r' = location r /\ generated_at r' = generated_at r).
Proof.
  simpl. split; [done|]. split; [done|]. split; [|split].
  - intros x Hx. rewrite shape_heap_lookup_ne by done. by rewrite !lookup_alter_ne.
  - intros Hn. apply shape_heap_lookup_None. by rewrite !lookup_alter_eq, Hn.
  - intros r Hr.
    assert (Hh : alter (with_cached_at (Some (created_at e))) (data e)
                   (alter (with_cached true) (data e) (heap w)) !! data e =
                 Some (with_cached_at (Some (created_at e)) (with_cached true r)))
      by (by rewrite !lookup_alter_eq, Hr).
    destruct (shape_heap_lookup u days _ _ _ Hh)
      as (r' & Hr' & Hf & Hl & Hc & Hs & Hca & Hg).
    exists r'. split; [exact Hr'|]. rewrite Hf, Hl, Hc, Hs, Hca, Hg. done.
Qed.

Lemma serve_stale_spec e u days w :
  let w' := fst (serve_stale e u days w) in
  snd (serve_stale e u days w) = data e /\
  cache_manager w' = cache_manager w /\
  (forall x, x <> data e -> heap w' !! x = heap w !! x) /\
  (heap w !! data e = None -> heap w' !! data e = None) /\
  (forall r, heap w !! data e = Some r ->
     exists r', heap w' !! data e = Some r' /\
       forecasts r' = shaped u days (forecasts r) /\
       cached r' = true /\ stale r' = true /\
       cached_at r' = Some (created_at e) /\
       location r' = location r /\ generated_at r' = generated_at r).
Proof.
  simpl. split; [done|]. split; [done|]. split; [|split].
  - intros x Hx. rewrite shape_heap_lookup_ne by done. by rewrite !lookup_alter_ne.
  - intros Hn. apply shape_heap_lookup_None. by rewrite !lookup_alter_eq, Hn.
  - intros r Hr.
    assert (Hh : alter (with_cached_at (Some (created_at e))) (data e)
                   (alter (with_stale true) (data e)
                      (alter (with_cached true) (data e) (heap w))) !! data e =
                 Some (with_cached_at (Some (created_at e))
                         (with_stale true (with_cached true r))))
      by (by rewrite !lookup_alter_eq, Hr).
    destruct (shape_heap_lookup u days _ _ _ Hh)
      as (r' & Hr' & Hf & Hl & Hc & Hs & Hca & Hg).
    exists r'. split; [exact Hr'|]. rewrite Hf, Hl, Hc, Hs, Hca, Hg. done.
Qed.

(** Serving an entry the world holds keeps the world in order and returns
    a reference to an object. *)
Lemma world_ok_serve (serve : CacheEntry -> TemperatureUnit -> option Z -> World -> World * loc)
    e u days w cm :
  (serve = serve_cached \/ serve = serve_stale) ->
  world_ok w ->
  (forall e', holds_entry cm e' -> exists e0, holds_entry (cache_manager w) e0 /\ data e' = data e0) ->
  (exists e0, holds_entry (cache_manager w) e0 /\ data e = data e0) ->
  let w' := fst (serve e u days (with_cache_manager cm w)) in
  world_ok w' /\ is_Some (heap w' !! snd (serve e u days (with_cache_manager cm w))).
Proof.
  intros Hserve [Hsorted Hrefs] Hcm (e0 & He0 & Hd) w'.
  assert (Hspec :
    snd (serve e u days (with_cache_manager cm w)) = data e /\
    cache_manager w' = cm /\
    (forall x, x <> data e -> heap w' !! x = heap w !! x) /\
    (forall r, heap w !! data e = Some r ->
       exists r', heap w' !! data e = Some r' /\
                  forecasts r' = shaped u days (forecasts r))).
  { destruct Hserve as [-> | ->].
    - destruct (serve_cached_spec e u days (with_cache_manager cm w))
        as (H1 & H2 & H3 & _ & H5).
      repeat split; try done. intros r Hr. destruct (H5 r Hr) as (r' & ? & ? & _). eauto.
    - destruct (serve_stale_spec e u days (with_cache_manager cm w))
        as (H1 & H2 & H3 & _ & H5).
      repeat split; try done. intros r Hr. destruct (H5 r Hr) as (r' & ? & ? & _). eauto. }
  destruct Hspec as (Hres & Hcm' & Hother & Hsame).
  destruct (Hrefs e0 He0) as [r Hr]. rewrite <- Hd in Hr.
  destruct (Hsame r Hr) as (r' & Hr' & Hf).
  split; [split|].
  - intros x rx Hx. destruct (decide (x = data e)) as [->|Hne].
    + rewrite Hr' in Hx. injection Hx as <-. rewrite Hf.
      apply strictly_ascending_shaped. by eapply Hsorted.
    + rewrite Hother in Hx by done. by eapply Hsorted.
  - intros e' He'. rewrite Hcm' in He'. destruct (Hcm e' He') as (e1 & He1 & ->).
    destruct (decide (data e1 = data e)) as [->|Hne].
    + by rewrite Hr'.
    + rewrite Hother by done. by apply Hrefs.
  - rewrite Hres, Hr'. by eexists.
Qed.

End world_facts.

Section world_invariant.
Import Models WeatherService.

Lemma world_ok_initial settings : world_ok (initial_world settings).
Proof.
  split.
  - intros l r H. simpl in H. by rewrite lookup_empty in H.
  - intros e [(l & Hl & _)|(k & Hk)]; simpl in *.
    + by apply elem_of_nil in Hl.
    + by rewrite lookup_empty in Hk.
Qed.

Lemma world_ok_with_cache_manager w cm :
  world_ok w ->
  (forall e', holds_entry cm e' ->
     exists e0, holds_entry (cache_manager w) e0 /\ data e' = data e0) ->
  world_ok (with_cache_manager cm w).
Proof.
  intros [Hs Hr] Hcm. split; [exact Hs|]. simpl.
  intros e' He'. destruct (Hcm e' He') as (e0 & He0 & ->). by apply Hr.
Qed.

Lemma world_ok_cache_lookup now k unit_ days w :
  world_ok w ->
  let res :=
    match Cache.get now k (cache_manager w) with
    | (Some cached_entry, cm) =>
        let '(w', response) :=
          serve_cached cached_entry unit_ days (with_cache_manager cm w) in
        (w', Some response)
    | (None, cm) => (with_cache_manager cm w, None)
    end in
  world_ok (fst res) /\ forall l, snd res = Some l -> is_Some (heap (fst res) !! l).
Proof.
  intros Hok res. subst res.
  destruct (Cache.get now k (cache_manager w)) as [o cm] eqn:Hget.
  apply get_holds in Hget as (_ & Hcm & Ho).
  destruct o as [e|].
  - destruct (world_ok_serve serve_cached e unit_ days w cm) as [H1 H2]; auto.
    destruct (serve_cached e unit_ days (with_cache_manager cm w)) as [w' l'] eqn:Hsv.
    cbn [fst snd] in *. split; [done|]. by intros l [= <-].
  - cbn [fst snd]. split; [|done]. by apply world_ok_with_cache_manager.
Qed.

Lemma world_ok_probe env lat lon days unit_ w :
  world_ok w ->
  world_ok (fst (probe env lat lon days unit_ w)) /\
  forall l, snd (probe env lat lon days unit_ w) = Some l ->
            is_Some (heap (fst (probe env lat lon days unit_ w)) !! l).
Proof.
  intros Hok. unfold probe.
  pose proof (world_ok_cache_lookup (clock_probe env)
    (Cache.generate_key (PyFloat.truncate4 lat) (PyFloat.truncate4 lon)) unit_ days w Hok)
    as H.
  destruct (Cache.get _ _ _) as [[e|] cm]; [exact H|].
  simpl in *. destruct H as [[Hs Hr] _]. split; [|done]. by split.
Qed.

Lemma world_ok_reprobe env lat lon days unit_ w :
  world_ok w ->
  world_ok (fst (reprobe env lat lon days unit_ w)) /\
  forall l, snd (reprobe env lat lon days unit_ w) = Some l ->
            is_Some (heap (fst (reprobe env lat lon days unit_ w)) !! l).
Proof.
  intros Hok. unfold reprobe.
  exact (world_ok_cache_lookup (clock_reprobe env)
    (Cache.generate_key (PyFloat.truncate4 lat) (PyFloat.truncate4 lon)) unit_ days w Hok).
Qed.

End world_invariant.

Section world_invariant_fetch.
Import Models WeatherService.

Lemma sampled_strictly_ascending tz ts : strictly_ascending (sampled tz ts).
Proof.
  pose proof (sampled_invariant tz ts) as Hinv. unfold sampled.
  apply sort_by_date_strict. unfold dates. rewrite List.map_map.
  rewrite (dict_inv_values tz ts _ Hinv). by destruct Hinv.
Qed.

Lemma process_timeseries_strictly_ascending tzs ts lat lon ov out :
  _process_timeseries tzs ts lat lon ov = Ok out -> strictly_ascending out.
Proof.
  intros [tz ->]%process_timeseries_Ok_sampled. apply sampled_strictly_ascending.
Qed.

Lemma new_ForecastResponse_forecasts loc_ fs days c gen :
  forecasts (new_ForecastResponse loc_ fs days c gen) = sort_by_date fs.
Proof.
  unfold new_ForecastResponse, validate_days_count, sort_forecasts. simpl.
  by destruct (sort_by_date fs).
Qed.

Lemma world_ok_shape u days l w :
  world_ok w ->
  world_ok (with_heap (filter_if_requested days l (convert_if_needed u l (heap w))) w).
Proof.
  intros [Hs Hr]. split; simpl.
  - intros x rx Hx. destruct (decide (x = l)) as [->|Hne].
    + destruct (heap w !! l) as [r|] eqn:Hl.
      * destruct (shape_heap_lookup u days l _ r Hl) as (r' & Hr' & Hf & _).
        rewrite Hr' in Hx. injection Hx as <-. rewrite Hf.
        apply strictly_ascending_shaped. by eapply Hs.
      * by rewrite shape_heap_lookup_None in Hx.
    + rewrite shape_heap_lookup_ne in Hx by done. by eapply Hs.
  - intros e He. specialize (Hr e He). destruct (decide (data e = l)) as [<-|Hne].
    + destruct Hr as [r Hl].
      destruct (shape_heap_lookup u days _ _ r Hl) as (r' & Hr' & _). by rewrite Hr'.
    + by rewrite shape_heap_lookup_ne.
Qed.

Lemma shape_is_Some u days l h :
  is_Some (h !! l) -> is_Some (filter_if_requested days l (convert_if_needed u l h) !! l).
Proof.
  intros [r Hl]. destruct (shape_heap_lookup u days _ _ r Hl) as (r' & Hr' & _).
  by rewrite Hr'.
Qed.

Lemma world_ok_alloc r w :
  world_ok w -> strictly_ascending (forecasts r) -> world_ok (snd (alloc r w)).
Proof.
  intros [Hs Hr] Hsorted. split; cbn [alloc snd heap cache_manager].
  - intros x rx Hx. apply lookup_insert_Some in Hx as [[_ <-]|[_ Hx]]; [done|].
    by eapply Hs.
  - intros e He. rewrite lookup_insert. case_decide; [by eexists|]. by apply Hr.
Qed.

Lemma world_ok_after_fetch tzs env outcome lat lon nm days unit_ ov w :
  world_ok w ->
  let res := after_fetch tzs env outcome lat lon nm days unit_ ov w in
  world_ok (fst res) /\ forall l, snd res = Ok l -> is_Some (heap (fst res) !! l).
Proof.
  intros Hok res. subst res. unfold after_fetch.
  set (key := Cache.generate_key _ _).
  destruct outcome as [timeseries|ex].
  - (* the fetch returned *)
    destruct (_process_timeseries _ _ _ _ _) as [readings|e] eqn:Hproc; [|by split].
    destruct (new_Location _ _ nm) as [location_|e]; [|by split].
    set (r := new_ForecastResponse _ _ _ _ _).
    assert (Hr : strictly_ascending (forecasts r)).
    { unfold r. rewrite new_ForecastResponse_forecasts.
      apply sort_by_date_strict, strict_NoDup.
      by eapply process_timeseries_strictly_ascending. }
    pose proof (world_ok_alloc r w Hok Hr) as Hok1.
    destruct (alloc r w) as [response w1] eqn:Halloc.
    assert (Hresp : heap w1 !! response = Some r).
    { unfold alloc in Halloc. injection Halloc as <- <-. apply lookup_insert_eq. }
    cbn [snd] in Hok1.
    destruct (Cache.set _ _ key response (cache_manager w1)) as [cm res] eqn:Hset.
    assert (Hok2 : world_ok (with_cache_manager cm w1)).
    { destruct Hok1 as [Hs1 Hr1]. split; [exact Hs1|].
      intros e He. cbn [with_cache_manager cache_manager heap] in *.
      destruct (set_holds _ _ _ _ _ _ _ Hset e He) as [-> | Hold].
      - by rewrite Hresp.
      - by apply Hr1. }
    destruct res as [[]|e]; cbn [fst snd]; [|by split].
    split.
    + exact (world_ok_shape unit_ days response _ Hok2).
    + intros l [= <-]. cbn [with_heap heap]. apply shape_is_Some.
      cbn [with_cache_manager heap]. by rewrite Hresp.
  - destruct ex as [msg| | |msg]; try (by split).
    (* the fetch raised an HTTP error *)
    destruct (Cache.get_stale key (cache_manager w)) as [se|] eqn:Hst; [|by split].
    assert (Hw : w = with_cache_manager (cache_manager w) w) by (by destruct w).
    rewrite Hw.
    destruct (world_ok_serve serve_stale se unit_ days w (cache_manager w)) as [H1 H2];
      auto.
    { intros e' He'. by exists e'. }
    { exists se. split; [|done]. right. by exists key. }
    destruct (serve_stale se unit_ days (with_cache_manager (cache_manager w) w))
      as [w' l'] eqn:Hsv.
    cbn [fst snd] in *. split; [done|]. by intros l [= <-].
Qed.

Lemma world_ok_get_forecast tzs env lat lon nm days unit_ ov w :
  world_ok w ->
  let res := get_forecast tzs env lat lon nm days unit_ ov w in
  world_ok (fst res) /\ forall l, snd res = Ok l -> is_Some (heap (fst res) !! l).
Proof.
  intros Hok res. subst res. unfold get_forecast.
  destruct (world_ok_probe env lat lon days unit_ w Hok) as [Hok1 Hres1].
  destruct (probe env lat lon days unit_ w) as [w1 [l1|]]; cbn [fst snd] in *.
  { split; [done|]. intros l [= <-]. by apply Hres1. }
  destruct (world_ok_reprobe env lat lon days unit_ w1 Hok1) as [Hok2 Hres2].
  destruct (reprobe env lat lon days unit_ w1) as [w2 [l2|]]; cbn [fst snd] in *.
  { split; [done|]. intros l [= <-]. by apply Hres2. }
  by apply world_ok_after_fetch.
Qed.

Lemma reachable_world_ok settings tzs w : reachable settings tzs w -> world_ok w.
Proof.
  induction 1 as [|w env lat lon nm days unit_ ov Hreach IH].
  - apply world_ok_initial.
  - by apply world_ok_get_forecast.
Qed.

(** Claim C5.  In every world that calls of [get_forecast] lead to, for
    any coordinates, options, clock readings and upstream samples in any
    order, the response a call returns has its forecasts sorted strictly
    ascending by date, hence without a date twice. *)
Theorem get_forecast_sorted_by_date settings tzs w env lat lon nm days unit_ ov w' l :
  reachable settings tzs w ->
  get_forecast tzs env lat lon nm days unit_ ov w = (w', Ok l) ->
  exists r, heap w' !! l = Some r /\ strictly_ascending (forecasts r).
Proof.
  intros Hreach Hcall. apply reachable_world_ok in Hreach.
  destruct (world_ok_get_forecast tzs env lat lon nm days unit_ ov w Hreach) as [Hok Hres].
  rewrite Hcall in Hok, Hres. simpl in *.
  destruct (Hres l eq_refl) as [r Hr]. exists r. split; [done|].
  destruct Hok as [Hs _]. by eapply Hs.
Qed.

End world_invariant_fetch.

Section sorted_witness.
Import Models WeatherService Examples.

(** The first request for Belgrade, in the initial world. *)
Lemma get_forecast_sorted_by_date_witness :
  exists r,
    heap (fst (get_forecast belgrade_tz (env_ok 0) lat_raw lon_raw None None CELSIUS None
                 world0)) !! 0%nat = Some r /\
    strictly_ascending (forecasts r).
Proof.
  apply (get_forecast_sorted_by_date default_settings belgrade_tz world0 (env_ok 0)
           lat_raw lon_raw None None CELSIUS None).
  - apply reachable_initial.
  - vm_compute. reflexivity.
Defined.

End sorted_witness.

(* ================================================================== *)
(** ** The model validator of [ForecastResponse] *)
(* ================================================================== *)

Section days_count.
Import Models.

Lemma validate_days_count_forecasts r : forecasts (validate_days_count r) = forecasts r.
Proof. destruct r as [? fs ? ? ? ? ?]. unfold validate_days_count. by destruct fs. Qed.

(** Claim C10.  A constructed [ForecastResponse] with a non-empty list of
    forecasts has [days_returned] equal to the length of the list, whatever
    the caller supplied; with an empty list the supplied value is kept. *)
Theorem days_returned_forced_to_length
    (loc_ : Location) (fs : list TemperatureReading) (days : Z) (c : bool)
    (gen : datetime) :
  let r := new_ForecastResponse loc_ fs days c gen in
  length (forecasts r) = length fs /\
  (fs <> [] -> days_returned r = Z.of_nat (length (forecasts r))) /\
  (fs = [] -> days_returned r = days).
Proof.
  intros r. subst r. rewrite new_ForecastResponse_forecasts, sort_by_date_length.
  split; [done|].
  unfold new_ForecastResponse, validate_days_count, sort_forecasts.
  cbn [forecasts]. split.
  - intros Hne. destruct (sort_by_date fs) as [|x l] eqn:Hs.
    + apply (f_equal length) in Hs. rewrite sort_by_date_length in Hs.
      by destruct fs.
    + cbn [days_returned with_days_returned]. by rewrite <- Hs, sort_by_date_length.
  - by intros ->.
Qed.

(** The case of [tests/test_models.py]: one reading, [days_returned=999]. *)
Example days_returned_999_overridden (loc_ : Location) (x : TemperatureReading) :
  days_returned (new_ForecastResponse loc_ [x] 999 false 0) = 1.
Proof. reflexivity. Qed.

Example days_returned_kept_when_empty (loc_ : Location) :
  days_returned (new_ForecastResponse loc_ [] 999 false 0) = 999.
Proof. reflexivity. Qed.

End days_count.

(* ================================================================== *)
(** ** The availability probe *)
(* ================================================================== *)

Section availability.

(** Claim C6, where the code departs from it.  No handler surrounds the
    request in [check_availability]: when the request raises because the
    connection is refused, the exception leaves the method, which returns
    no boolean, where its docstring promises [False] for an API that is
    not reachable.  It is the caller [HealthService._check_yrno] that
    catches the exception and reports [false]. *)
Theorem check_availability_raises_on_transport_error :
  YrNoClient.check_availability (Raises (HTTPError "connection refused")) =
  Raise (HTTPError "connection refused") /\
  (forall b : bool,
     YrNoClient.check_availability (Raises (HTTPError "connection refused")) <> Ok b) /\
  HealthService._check_yrno (Raises (HTTPError "connection refused")) = false.
Proof. split; [reflexivity|]. split; [intros b; discriminate | reflexivity]. Qed.

(** Every outcome of the request.  [check_availability] reports [true]
    exactly for status 200 and [false] for every other status; an error
    raised by the request leaves it as that exception.  Its caller
    [HealthService._check_yrno] never raises: it reports [false] for any
    exception and otherwise what [check_availability] returned. *)
Theorem check_availability_outcomes :
  (forall status_code,
     YrNoClient.check_availability (Response status_code) = Ok true <-> status_code = 200) /\
  (forall status_code,
     status_code <> 200 ->
     YrNoClient.check_availability (Response status_code) = Ok false) /\
  (forall e, YrNoClient.check_availability (Raises e) = Raise e) /\
  (forall probe b,
     HealthService._check_yrno probe = b <->
     match probe with
     | Response status_code => b = bool_decide (status_code = 200)
     | Raises _ => b = false
     end).
Proof.
  split; [|split; [|split]].
  - intros s. unfold YrNoClient.check_availability. split.
    + intros [= H]. by apply Z.eqb_eq.
    + intros ->. done.
  - intros s Hne. unfold YrNoClient.check_availability.
    by apply Z.eqb_neq in Hne as ->.
  - done.
  - intros [s|e] b; unfold HealthService._check_yrno, YrNoClient.check_availability.
    + destruct (Z.eqb_spec s 200).
      * rewrite bool_decide_eq_true_2 by done. split; done.
      * rewrite bool_decide_eq_false_2 by done. split; done.
    + split; done.
Qed.

End availability.

(* ================================================================== *)
(** ** The failure path of [get_forecast] *)
(* ================================================================== *)

Section upstream_failure.
Import Models WeatherService.

Lemma probe_miss env lat lon days unit_ w :
  TTLCache.contains (clock_probe env)
    (Cache.generate_key (PyFloat.truncate4 lat) (PyFloat.truncate4 lon))
    (cache (cache_manager w)) = false ->
  exists w1, probe env lat lon days unit_ w = (w1, None) /\
    heap w1 = heap w /\ cache (cache_manager w1) = cache (cache_manager w) /\
    stale_cache (cache_manager w1) = stale_cache (cache_manager w).
Proof.
  intros Hmiss. unfold probe. rewrite (get_miss _ _ _ Hmiss). eexists. by split.
Qed.

Lemma reprobe_miss env lat lon days unit_ w :
  TTLCache.contains (clock_reprobe env)
    (Cache.generate_key (PyFloat.truncate4 lat) (PyFloat.truncate4 lon))
    (cache (cache_manager w)) = false ->
  exists w1, reprobe env lat lon days unit_ w = (w1, None) /\
    heap w1 = heap w /\ cache (cache_manager w1) = cache (cache_manager w) /\
    stale_cache (cache_manager w1) = stale_cache (cache_manager w).
Proof.
  intros Hmiss. unfold reprobe. rewrite (get_miss _ _ _ Hmiss). eexists. by split.
Qed.

(** Claim C3.  When both cache probes miss and the upstream fetch raises an
    HTTP error: if the stale table has an entry for the key, the call
    returns that entry's response object, stamped [cached], [stale] and
    [cached_at] from the entry's creation time, with the unit conversion
    and day limit applied to its readings; if it has none, an HTTP error
    goes to the caller. *)
Theorem get_forecast_upstream_failure
    (tzs : TimezoneService) (env : CallEnv) (lat lon : float) (nm : option string)
    (days : option Z) (unit_ : TemperatureUnit) (ov : option string) (w : World)
    (msg : string) :
  let key := Cache.generate_key (PyFloat.truncate4 lat) (PyFloat.truncate4 lon) in
  TTLCache.contains (clock_probe env) key (cache (cache_manager w)) = false ->
  TTLCache.contains (clock_reprobe env) key (cache (cache_manager w)) = false ->
  fetch_forecast env (PyFloat.truncate4 lat) (PyFloat.truncate4 lon) =
    Raise (HTTPError msg) ->
  match Cache.get_stale key (cache_manager w) with
  | Some stale_entry =>
      exists w',
        get_forecast tzs env lat lon nm days unit_ ov w = (w', Ok (data stale_entry)) /\
        forall r, heap w !! data stale_entry = Some r ->
          exists r', heap w' !! data stale_entry = Some r' /\
            forecasts r' = shaped unit_ days (forecasts r) /\
            cached r' = true /\ stale r' = true /\
            cached_at r' = Some (created_at stale_entry) /\
            location r' = location r /\ generated_at r' = generated_at r
  | None =>
      exists w',
        get_forecast tzs env lat lon nm days unit_ ov w =
          (w', Raise (HTTPError ("yr.no API unavailable: " +:+ msg))) /\
        heap w' = heap w
  end.
Proof.
  intros key Hmiss1 Hmiss2 Hfetch. unfold get_forecast.
  destruct (probe_miss env lat lon days unit_ w Hmiss1) as (w1 & -> & Hh1 & Hc1 & Hs1).
  fold key in Hc1. rewrite <- Hc1 in Hmiss2.
  destruct (reprobe_miss env lat lon days unit_ w1 Hmiss2) as (w2 & -> & Hh2 & Hc2 & Hs2).
  rewrite Hfetch. unfold after_fetch. fold key.
  unfold Cache.get_stale. rewrite Hs2, Hs1.
  destruct (stale_cache (cache_manager w) !! key) as [se|].
  - destruct (serve_stale_spec se unit_ days w2) as (Hres & _ & _ & _ & Hobj).
    destruct (serve_stale se unit_ days w2) as [w' l'] eqn:Hsv. cbn [fst snd] in *.
    subst l'. exists w'. split; [done|].
    intros r Hr. apply Hobj. by rewrite Hh2, Hh1.
  - exists w2. split; [done|]. by rewrite Hh2, Hh1.
Qed.

End upstream_failure.

Section upstream_failure_witness.
Import Models WeatherService Examples.

(** With a live and a stale entry both past their expiry and the upstream
    down, the call returns the stale object, stamped. *)
Lemma get_forecast_upstream_failure_witness :
  exists w' r',
    get_forecast belgrade_tz (env_down after_expiry) lat_raw lon_raw None (Some 1)
      FAHRENHEIT None world_live_and_stale = (w', Ok 0%nat) /\
    heap w' !! 0%nat = Some r' /\
    cached r' = true /\ stale r' = true /\ cached_at r' = Some (jan15 10 30).
Proof.
  pose proof (get_forecast_upstream_failure belgrade_tz (env_down after_expiry)
                lat_raw lon_raw None (Some 1) FAHRENHEIT None world_live_and_stale
                "connect timeout") as H.
  cbv zeta in H.
  assert (Hstale :
    Cache.get_stale
      (Cache.generate_key (PyFloat.truncate4 lat_raw) (PyFloat.truncate4 lon_raw))
      (cache_manager world_live_and_stale) =
    Some {| data := 0%nat; created_at := jan15 10 30; hit_count := 0 |})
    by (vm_compute; reflexivity).
  rewrite Hstale in H.
  destruct H as (w' & Hcall & Hobj); [vm_compute; reflexivity ..|].
  assert (Hold : is_Some (heap world_live_and_stale !! 0%nat))
    by (vm_compute; eexists; reflexivity).
  destruct Hold as [r Hr].
  destruct (Hobj r Hr) as (r' & Hr' & _ & Hc & Hs & Hca & _).
  exists w', r'. by repeat split.
Defined.

(** With nothing cached and the upstream down, the error goes to the
    caller. *)
Example get_forecast_no_stale_raises :
  snd (get_forecast belgrade_tz (env_down 0) lat_raw lon_raw None None CELSIUS None
         world0) =
  Raise (HTTPError "yr.no API unavailable: connect timeout").
Proof. vm_compute. reflexivity. Qed.

End upstream_failure_witness.

(* ================================================================== *)
(** ** What a call leaves in the cache *)
(* ================================================================== *)

Section stored_entry.
Import Models WeatherService Examples.

(** Claim C1, where the code departs from it.  After a first request for
    Belgrade in Fahrenheit, limited to one day, with the upstream answering
    two days of Celsius samples, the entry stored in the cache holds one
    reading in Fahrenheit; a second request in Celsius is served that
    reading, and the stored object is flagged [cached]. *)
Theorem stored_entry_converted_and_truncated :
  let w1 := fst (get_forecast belgrade_tz (env_ok 0) lat_belgrade lon_belgrade None
                   (Some 1) FAHRENHEIT None world0) in
  let second := get_forecast belgrade_tz (env_ok 1) lat_belgrade lon_belgrade None
                  None CELSIUS None w1 in
  (* the entry now stored under the key refers to object 0 ... *)
  data <$> fst (Cache.get 1 belgrade_key (cache_manager w1)) = Some 0%nat /\
  (* ... whose reading list was cut to one day and converted *)
  (forecasts <$> heap w1 !! 0%nat) =
    Some [ {| reading_date := 739631;
              temperature := PyFloat.of_decimal false 4154 2;
              unit := FAHRENHEIT;
              reading_time := mk_time 14 0;
              source_time := jan15 13 0 |} ] /\
  (* a second request, in Celsius and without a day limit, is served the
     same object: one Fahrenheit reading, and the stored flag is set *)
  snd second = Ok 0%nat /\
  (List.map unit <$> (forecasts <$> heap (fst second) !! 0%nat)) = Some [FAHRENHEIT] /\
  (cached <$> heap (fst second) !! 0%nat) = Some true.
Proof. vm_compute. repeat split; reflexivity. Qed.

(** A further Fahrenheit request converts the stored readings once more:
    5.3 degrees Celsius are served as 106.772. *)
Example stored_entry_converted_twice :
  let w1 := fst (get_forecast belgrade_tz (env_ok 0) lat_belgrade lon_belgrade None
                   None FAHRENHEIT None world0) in
  let w2 := fst (get_forecast belgrade_tz (env_ok 1) lat_belgrade lon_belgrade None
                   None FAHRENHEIT None w1) in
  (List.map temperature <$> (forecasts <$> heap w2 !! 0%nat)) =
  Some [PyFloat.of_decimal false 106772 3; PyFloat.of_decimal false 109364 3].
Proof. vm_compute. reflexivity. Qed.

End stored_entry.

(* ================================================================== *)
(** ** The stale table *)
(* ================================================================== *)

Section stale_table.
Import Examples.

Lemma find_link_app {V} k (ls1 ls2 : list (TTLCache.link V)) :
  TTLCache.find_link k (ls1 ++ ls2) =
  match TTLCache.find_link k ls1 with
  | Some l => Some l
  | None => TTLCache.find_link k ls2
  end.
Proof.
  unfold TTLCache.find_link. induction ls1 as [|l ls1 IH]; simpl; [done|].
  by destruct (TTLCache.is_key k l).
Qed.

Lemma find_link_remove_link {V} k (ls : list (TTLCache.link V)) :
  TTLCache.find_link k (TTLCache.remove_link k ls) = None.
Proof.
  unfold TTLCache.find_link, TTLCache.remove_link.
  induction ls as [|l ls IH]; simpl; [done|].
  destruct (TTLCache.is_key k l) eqn:Hk; simpl; [done|]. by rewrite Hk.
Qed.

(** An item just set is found, as long as the time to live is positive. *)
Lemma setitem_getitem {V} now k (v : V) c :
  1 <= TTLCache.maxsize c -> 0 < TTLCache.ttl c ->
  exists c' c'',
    TTLCache.setitem now k v c = Ok c' /\
    TTLCache.getitem now k c' = Some (v, c'') /\
    TTLCache.maxsize c'' = TTLCache.maxsize c /\ TTLCache.ttl c'' = TTLCache.ttl c /\
    TTLCache.maxsize c' = TTLCache.maxsize c /\ TTLCache.ttl c' = TTLCache.ttl c.
Proof.
  intros Hmax Httl. unfold TTLCache.setitem.
  destruct (Z.ltb_spec (TTLCache.maxsize c) 1); [lia|].
  eexists. eexists. split; [reflexivity|].
  unfold TTLCache.getitem. cbn [TTLCache.links TTLCache.with_links].
  rewrite find_link_app, find_link_remove_link.
  unfold TTLCache.find_link, TTLCache.is_key. cbn [List.find TTLCache.key].
  rewrite bool_decide_eq_true_2 by done.
  unfold TTLCache.live. cbn [TTLCache.expires TTLCache.value].
  destruct (Z.ltb_spec now (now + TTLCache.ttl c * US_PER_SECOND)) as [_|Hge].
  - split; [reflexivity|]. done.
  - unfold US_PER_SECOND in Hge. lia.
Qed.

Lemma getitem_params {V} now k (c : TTLCache.t V) v c' :
  TTLCache.getitem now k c = Some (v, c') ->
  TTLCache.maxsize c' = TTLCache.maxsize c /\ TTLCache.ttl c' = TTLCache.ttl c.
Proof. intros H. by apply getitem_Some in H as (l & _ & _ & _ & _ & _ & ->). Qed.

(** [set] leaves the stale table alone or writes it at the key set. *)
Lemma set_stale_cache now utcnow k d cm :
  stale_cache (fst (Cache.set now utcnow k d cm)) =
  match TTLCache.getitem now k (cache cm) with
  | Some (old, _) => <[k := old]> (stale_cache cm)
  | None => stale_cache cm
  end.
Proof.
  unfold Cache.set. destruct (TTLCache.getitem now k (cache cm)) as [[old c]|];
    by destruct (TTLCache.setitem _ _ _ _).
Qed.

Lemma run_op_keeps_stale cm op k :
  is_Some (stale_cache cm !! k) -> is_Some (stale_cache (run_op cm op) !! k).
Proof.
  intros Hk. destruct op as [now k'|k'|now utcnow k' d|now]; cbn [run_op]; try done.
  - destruct (Cache.get now k' cm) as [o cm'] eqn:Hget.
    apply get_holds in Hget as [Hst _]. cbn [snd]. by rewrite Hst.
  - rewrite set_stale_cache.
    destruct (TTLCache.getitem now k' (cache cm)) as [[old c]|]; [|done].
    rewrite lookup_insert. by case_decide.
Qed.

Lemma run_ops_keep_stale ops cm k :
  is_Some (stale_cache cm !! k) -> is_Some (stale_cache (run_ops ops cm) !! k).
Proof.
  unfold run_ops. revert cm. induction ops as [|op ops IH]; intros cm Hk; [done|].
  cbn [fold_left]. by apply IH, run_op_keeps_stale.
Qed.

(** Storing twice under one key, at one clock reading, demotes the first
    entry. *)
Lemma set_twice_stale now utcnow k d cm :
  1 <= TTLCache.maxsize (cache cm) -> 0 < TTLCache.ttl (cache cm) ->
  let cm' := run_ops [OpSet now utcnow k d; OpSet now utcnow k d] cm in
  stale_cache cm' =
    <[k := {| data := d; created_at := utcnow; hit_count := 0 |}]> (stale_cache cm) /\
  TTLCache.maxsize (cache cm') = TTLCache.maxsize (cache cm) /\
  TTLCache.ttl (cache cm') = TTLCache.ttl (cache cm).
Proof.
  intros Hmax Httl cm'. subst cm'. unfold run_ops. cbn [fold_left run_op].
  set (entry := {| data := d; created_at := utcnow; hit_count := 0 |}).
  (* the first store *)
  assert (H1 : exists cm1 c1 c1',
    fst (Cache.set now utcnow k d cm) = cm1 /\
    cache cm1 = c1 /\ TTLCache.getitem now k c1 = Some (entry, c1') /\
    TTLCache.maxsize c1' = TTLCache.maxsize (cache cm) /\
    TTLCache.ttl c1' = TTLCache.ttl (cache cm) /\
    (stale_cache cm1 = stale_cache cm \/
     exists old, stale_cache cm1 = <[k := old]> (stale_cache cm))).
  { unfold Cache.set. fold entry.
    destruct (TTLCache.getitem now k (cache cm)) as [[old c]|] eqn:Hg.
    - apply getitem_params in Hg as [Hm Ht].
      destruct (setitem_getitem now k entry c) as (c' & c'' & -> & Hg' & Hm' & Ht' & _);
        [lia..|].
      eexists _, c', c''. cbn [fst cache stale_cache].
      repeat split; [done|lia|lia|]. right. by exists old.
    - destruct (setitem_getitem now k entry (cache cm)) as (c' & c'' & -> & Hg' & Hm' & Ht' & _);
        [lia..|].
      eexists _, c', c''. cbn [fst cache stale_cache].
      repeat split; [done|lia|lia|]. by left. }
  destruct H1 as (cm1 & c1 & c1' & -> & Hc1 & Hg1 & Hm1 & Ht1 & Hst1).
  (* the second store *)
  unfold Cache.set at 1 2 3. fold entry. rewrite Hc1, Hg1.
  destruct (setitem_getitem now k entry c1') as (c2 & c2' & -> & _ & _ & _ & Hm2 & Ht2);
    [lia..|].
  cbn [fst cache stale_cache]. split; [|split; lia].
  destruct Hst1 as [-> | [old ->]]; [done|]. by rewrite insert_insert_eq.
Qed.

Lemma nth_key_inj i j : nth_key i = nth_key j -> i = j.
Proof.
  unfold nth_key. intros H. apply (inj (String.append "forecast:")) in H.
  by apply (inj pretty) in H.
Qed.

Lemma supersede_stale settings n :
  1 <= CACHE_MAX_SIZE settings -> 0 < CACHE_TTL_SECONDS settings ->
  let cm := run_ops (supersede n) (Cache.new settings) in
  size (stale_cache cm) = n /\
  (forall k, is_Some (stale_cache cm !! k) -> exists i, (i < n)%nat /\ k = nth_key i) /\
  TTLCache.maxsize (cache cm) = CACHE_MAX_SIZE settings /\
  TTLCache.ttl (cache cm) = CACHE_TTL_SECONDS settings.
Proof.
  intros Hmax Httl. induction n as [|n IH]; intros cm; subst cm.
  - cbn. split; [done|]. split; [|done].
    intros k [e He]. by rewrite lookup_empty in He.
  - cbn [supersede]. unfold run_ops. rewrite fold_left_app.
    fold (run_ops (supersede n) (Cache.new settings)).
    destruct IH as (Hsize & Hkeys & Hm & Ht).
    set (cm := run_ops (supersede n) (Cache.new settings)) in *.
    destruct (set_twice_stale 0 0 (nth_key n) n cm) as (Hst & Hm' & Ht'); [lia..|].
    unfold run_ops in Hst, Hm', Ht'. rewrite Hst, Hm', Ht'.
    assert (Hfresh : stale_cache cm !! nth_key n = None).
    { destruct (stale_cache cm !! nth_key n) as [e|] eqn:He; [|done].
      destruct (Hkeys (nth_key n)) as (i & Hi & Heq); [by eexists|].
      apply nth_key_inj in Heq. lia. }
    split; [|split; [|done]].
    + rewrite map_size_insert_None by done. by rewrite Hsize.
    + intros k Hk. rewrite lookup_insert in Hk. case_decide as Hkn.
      * exists n. split; [lia|done].
      * destruct (Hkeys k Hk) as (i & Hi & ->). exists i. split; [lia|done].
Qed.

(** Claim C9.  No sequence of [get], [get_stale], [set] and statistics
    calls, at any clock readings, removes a key from the stale table; and
    with room for one live item and a positive time to live, storing [n]
    distinct keys twice each leaves [n] stale entries, for every [n]. *)
Theorem stale_entries_never_removed :
  (forall ops cm k,
     is_Some (Cache.get_stale k cm) -> is_Some (Cache.get_stale k (run_ops ops cm))) /\
  (forall settings n,
     1 <= CACHE_MAX_SIZE settings -> 0 < CACHE_TTL_SECONDS settings ->
     size (stale_cache (run_ops (supersede n) (Cache.new settings))) = n).
Proof.
  split.
  - intros ops cm k. apply run_ops_keep_stale.
  - intros settings n Hmax Httl. by destruct (supersede_stale settings n Hmax Httl).
Qed.

End stale_table.

Section expiry.
Import Models WeatherService Examples.

(** Claim C4, where the code departs from it.  An entry stored at clock 0
    with the default time to live of an hour is, past its expiry, neither
    live nor stale, and stays lost when the key is stored again. *)
Theorem expired_entry_not_kept_as_stale :
  let cm1 := fst (Cache.set 0 (jan15 10 30) belgrade_key 0%nat
                    (Cache.new default_settings)) in
  (* it is live one microsecond later *)
  data <$> fst (Cache.get 1 belgrade_key cm1) = Some 0%nat /\
  (* past its expiry it is neither live nor stale *)
  fst (Cache.get after_expiry belgrade_key cm1) = None /\
  Cache.get_stale belgrade_key cm1 = None /\
  (* and a later store under the key does not bring it back *)
  Cache.get_stale belgrade_key
    (fst (Cache.set after_expiry (jan15 12 0) belgrade_key 1%nat cm1)) = None /\
  (* through the service: a forecast was served at clock 0; past the
     expiry, with the upstream down, the caller gets the error *)
  snd (get_forecast belgrade_tz (env_down after_expiry) lat_belgrade lon_belgrade
         None None CELSIUS None world_served) =
  Raise (HTTPError "yr.no API unavailable: connect timeout").
Proof. vm_compute. repeat split; reflexivity. Qed.

Lemma getitem_None_later {V} now now' k (c : TTLCache.t V) :
  now <= now' -> TTLCache.getitem now k c = None -> TTLCache.getitem now' k c = None.
Proof.
  intros Hle. unfold TTLCache.getitem, TTLCache.live.
  destruct (TTLCache.find_link k (TTLCache.links c)) as [l|]; [|done].
  destruct (Z.ltb_spec now (TTLCache.expires l)); [done|]. intros _.
  destruct (Z.ltb_spec now' (TTLCache.expires l)); [lia|done].
Qed.

Lemma serve_cached_cache_manager e u days w :
  cache_manager (fst (serve_cached e u days w)) = cache_manager w.
Proof. done. Qed.

(** [get_forecast] stores only after its second probe has missed, so with
    a clock that does not run backwards its [set] finds no live entry to
    demote: no call ever writes the stale table. *)
Lemma get_forecast_keeps_stale_cache tzs env lat lon nm days unit_ ov w :
  clock_reprobe env <= clock_set env ->
  stale_cache (cache_manager (fst (get_forecast tzs env lat lon nm days unit_ ov w))) =
  stale_cache (cache_manager w).
Proof.
  intros Hclock. unfold get_forecast, probe, reprobe.
  set (key := Cache.generate_key _ _).
  destruct (Cache.get (clock_probe env) key (cache_manager w)) as [[e1|] cm1] eqn:Hget1.
  { apply get_holds in Hget1 as [Hst _]. done. }
  apply get_None in Hget1 as (_ & Hc1 & Hs1).
  cbn [with_fetch_locks with_cache_manager cache_manager].
  destruct (Cache.get (clock_reprobe env) key cm1) as [[e2|] cm2] eqn:Hget2.
  { apply get_holds in Hget2 as [Hst _]. cbn. congruence. }
  apply get_None in Hget2 as (Hmiss & Hc2 & Hs2).
  cbn [fst snd]. unfold after_fetch. fold key.
  destruct (fetch_forecast env _ _) as [timeseries|[msg| | |msg]];
    try (cbn; congruence).
  - destruct (_process_timeseries _ _ _ _ _) as [readings|ex]; cbn; [|congruence].
    destruct (new_Location _ _ nm) as [location_|ex]; cbn; [|congruence].
    pose proof (set_stale_cache (clock_set env) (utcnow_entry env) key (next_loc w) cm2)
      as Hset.
    rewrite (getitem_None_later _ _ _ _ Hclock) in Hset by (by rewrite Hc2).
    destruct (Cache.set _ _ key (next_loc w) cm2) as [cm3 [[]|ex]]; cbn in *; congruence.
  - cbn. unfold Cache.get_stale. destruct (stale_cache cm2 !! key); cbn; congruence.
Qed.

End expiry.

(* ================================================================== *)
(** ** Coordinate truncation and the cache key *)
(* ================================================================== *)

Section cache_key.
Import Models WeatherService Examples.

(** The case of [tests/test_weather_service.py]: 44.81254321, 20.46123456
    are keyed, sent upstream and stored as 44.8125, 20.4612. *)
Example coordinates_truncated :
  let w1 := fst (get_forecast belgrade_tz (env_ok 0) lat_raw lon_raw None None
                   CELSIUS None world0) in
  PyFloat.truncate4 lat_raw = lat_belgrade /\
  PyFloat.truncate4 lon_raw = lon_belgrade /\
  Cache.generate_key (PyFloat.truncate4 lat_raw) (PyFloat.truncate4 lon_raw) =
    "forecast:44.8125:20.4612" /\
  List.map TTLCache.key (TTLCache.links (cache (cache_manager w1))) =
    ["forecast:44.8125:20.4612"] /\
  (location <$> heap w1 !! 0%nat) =
    Some {| latitude := lat_belgrade; longitude := lon_belgrade; name := None |}.
Proof. vm_compute. repeat split; reflexivity. Qed.

(** Claim C7, where the code departs from it.  Latitudes a
    hundred-thousandth of a degree either side of the equator truncate to
    floats that compare equal ([-0.0 == 0.0]) and get two keys: the
    forecast cached for one is not found for the other. *)
Theorem equal_truncated_coordinates_distinct_keys :
  let south := PyFloat.truncate4 lat_just_south in
  let north := PyFloat.truncate4 lat_just_north in
  let w1 := fst (get_forecast belgrade_tz (env_ok 0) lat_just_north lon_zero None None
                   CELSIUS None world0) in
  PyFloat.eqb south north = true /\
  Cache.generate_key south lon_zero = "forecast:-0.0000:0.0000" /\
  Cache.generate_key north lon_zero = "forecast:0.0000:0.0000" /\
  snd (get_forecast belgrade_tz (env_down 1) lat_just_north lon_zero None None
         CELSIUS None w1) = Ok 0%nat /\
  snd (get_forecast belgrade_tz (env_down 1) lat_just_south lon_zero None None
         CELSIUS None w1) =
    Raise (HTTPError "yr.no API unavailable: connect timeout").
Proof. vm_compute. repeat split; reflexivity. Qed.

End cache_key.

(* ================================================================== *)
(** ** Concurrent requests for one coordinate *)
(* ================================================================== *)

Section cache_under_requests.
Import Models WeatherService.

Lemma find_link_update_value {V} (f : V -> V) k k' (ls : list (TTLCache.link V)) :
  TTLCache.find_link k' (TTLCache.links (TTLCache.update_value f k
                            {| TTLCache.maxsize := 0; TTLCache.ttl := 0;
                               TTLCache.links := ls |})) =
  (fun l => if TTLCache.is_key k l
            then {| TTLCache.key := TTLCache.key l; TTLCache.value := f (TTLCache.value l);
                    TTLCache.expires := TTLCache.expires l |}
            else l) <$> TTLCache.find_link k' ls.
Proof.
  cbn [TTLCache.update_value TTLCache.links TTLCache.with_links].
  unfold TTLCache.find_link. induction ls as [|l ls IH]; [done|].
  cbn [List.map List.find].
  assert (Hk : forall l0 : TTLCache.link V,
    TTLCache.is_key k'
      (if TTLCache.is_key k l0
       then {| TTLCache.key := TTLCache.key l0; TTLCache.value := f (TTLCache.value l0);
               TTLCache.expires := TTLCache.expires l0 |}
       else l0) = TTLCache.is_key k' l0).
  { intros l0. by destruct (TTLCache.is_key k l0). }
  rewrite Hk. destruct (TTLCache.is_key k' l); [done|]. apply IH.
Qed.

(** A hit keeps the item under its key, with its expiry. *)
Lemma get_hit now k cm l :
  TTLCache.find_link k (TTLCache.links (cache cm)) = Some l ->
  now < TTLCache.expires l ->
  exists e cm' l',
    Cache.get now k cm = (Some e, cm') /\
    TTLCache.find_link k (TTLCache.links (cache cm')) = Some l' /\
    TTLCache.expires l' = TTLCache.expires l /\
    TTLCache.maxsize (cache cm') = TTLCache.maxsize (cache cm) /\
    TTLCache.ttl (cache cm') = TTLCache.ttl (cache cm).
Proof.
  intros Hf Hlive. unfold Cache.get, TTLCache.getitem. rewrite Hf.
  unfold TTLCache.live. destruct (Z.ltb_spec now (TTLCache.expires l)); [|lia].
  eexists _, _, _. split; [reflexivity|].
  cbn [cache TTLCache.update_value TTLCache.links TTLCache.with_links
       TTLCache.maxsize TTLCache.ttl].
  split; [|split; [|done]].
  - pose proof (find_link_update_value increment_hits k k
                  (TTLCache.remove_link k (TTLCache.links (cache cm)) ++ [l])) as Hupd.
    cbn [TTLCache.update_value TTLCache.links TTLCache.with_links] in Hupd.
    rewrite Hupd. rewrite find_link_app, find_link_remove_link.
    apply find_link_Some in Hf as [_ Hk].
    assert (Hkl : TTLCache.is_key k l = true)
      by (unfold TTLCache.is_key; by apply bool_decide_eq_true_2).
    unfold TTLCache.find_link at 1. cbn [List.find]. rewrite Hkl.
    cbn [fmap option_fmap option_map]. rewrite Hkl. reflexivity.
  - reflexivity.
Qed.

End cache_under_requests.

Section phases_of_one_coordinate.
Context (lat lon : float) (ttl : Z).
Import Models WeatherService.

#[local] Abbreviation key := (the_key lat lon).

Lemma uncached_contains now w :
  uncached lat lon w -> TTLCache.contains now key (cache (cache_manager w)) = false.
Proof. unfold uncached, TTLCache.contains. by intros ->. Qed.

Lemma probe_uncached env days unit_ w :
  uncached lat lon w ->
  exists w1, probe env lat lon days unit_ w = (w1, None) /\
             cache (cache_manager w1) = cache (cache_manager w).
Proof.
  intros Hu.
  destruct (probe_miss env lat lon days unit_ w (uncached_contains _ w Hu))
    as (w1 & Hp & _ & Hc & _).
  by exists w1.
Qed.

Lemma reprobe_uncached env days unit_ w :
  uncached lat lon w ->
  exists w1, reprobe env lat lon days unit_ w = (w1, None) /\
             cache (cache_manager w1) = cache (cache_manager w).
Proof.
  intros Hu.
  destruct (reprobe_miss env lat lon days unit_ w (uncached_contains _ w Hu))
    as (w1 & Hp & _ & Hc & _).
  by exists w1.
Qed.

Lemma cache_lookup_cached now days unit_ w :
  cached_live lat lon ttl w -> cache_sized ttl w -> in_window ttl now ->
  exists w1 response,
    match Cache.get now key (cache_manager w) with
    | (Some cached_entry, cm) =>
        let '(w', response) :=
          serve_cached cached_entry unit_ days (with_cache_manager cm w) in
        (w', Some response)
    | (None, cm) => (with_cache_manager cm w, None)
    end = (w1, Some response) /\
    cached_live lat lon ttl w1 /\ cache_sized ttl w1.
Proof.
  intros (l & Hl & Hexp) [Hmax Httl] [_ Hnow].
  destruct (get_hit now key (cache_manager w) l Hl) as (e & cm' & l' & -> & Hl' & He & Hm & Ht);
    [lia|].
  eexists _, _. split; [reflexivity|]. split.
  - exists l'. split; [exact Hl' | lia].
  - split; cbn [serve_cached with_heap with_cache_manager cache_manager]; congruence.
Qed.

Lemma probe_cached env days unit_ w :
  cached_live lat lon ttl w -> cache_sized ttl w -> in_window ttl (clock_probe env) ->
  exists w1 response, probe env lat lon days unit_ w = (w1, Some response) /\
                      cached_live lat lon ttl w1 /\ cache_sized ttl w1.
Proof.
  intros Hc Hs Hw. unfold probe. fold key.
  destruct (cache_lookup_cached (clock_probe env) days unit_ w Hc Hs Hw)
    as (w1 & response & Hget & Hc1 & Hs1).
  destruct (Cache.get (clock_probe env) key (cache_manager w)) as [[e|] cm]; [|done].
  by exists w1, response.
Qed.

Lemma reprobe_cached env days unit_ w :
  cached_live lat lon ttl w -> cache_sized ttl w -> in_window ttl (clock_reprobe env) ->
  exists w1 response, reprobe env lat lon days unit_ w = (w1, Some response) /\
                      cached_live lat lon ttl w1 /\ cache_sized ttl w1.
Proof.
  intros Hc Hs Hw. unfold reprobe. fold key.
  exact (cache_lookup_cached (clock_reprobe env) days unit_ w Hc Hs Hw).
Qed.

Lemma set_uncached now utcnow k d cm :
  TTLCache.find_link k (TTLCache.links (cache cm)) = None ->
  1 <= TTLCache.maxsize (cache cm) ->
  exists cm' l,
    Cache.set now utcnow k d cm = (cm', Ok ()) /\
    TTLCache.find_link k (TTLCache.links (cache cm')) = Some l /\
    TTLCache.expires l = now + TTLCache.ttl (cache cm) * US_PER_SECOND /\
    TTLCache.maxsize (cache cm') = TTLCache.maxsize (cache cm) /\
    TTLCache.ttl (cache cm') = TTLCache.ttl (cache cm).
Proof.
  intros Hnone Hmax. unfold Cache.set, TTLCache.getitem. rewrite Hnone.
  unfold TTLCache.setitem.
  destruct (Z.ltb_spec (TTLCache.maxsize (cache cm)) 1); [lia|].
  eexists _, _. split; [reflexivity|].
  cbn [cache TTLCache.with_links TTLCache.links TTLCache.maxsize TTLCache.ttl].
  split.
  - rewrite find_link_app, find_link_remove_link.
    unfold TTLCache.find_link, TTLCache.is_key. cbn [List.find TTLCache.key].
    by rewrite bool_decide_eq_true_2 by done.
  - by split.
Qed.

Lemma after_fetch_caches tzs env timeseries nm days unit_ ov w :
  uncached lat lon w -> cache_sized ttl w -> valid_coordinates lat lon ->
  in_window ttl (clock_set env) ->
  exists w3 response,
    after_fetch tzs env (Ok timeseries) lat lon nm days unit_ ov w = (w3, Ok response) /\
    cached_live lat lon ttl w3 /\ cache_sized ttl w3.
Proof.
  intros Hu [Hmax Httl] Hvalid [Hset _]. unfold after_fetch. fold key.
  unfold valid_coordinates in Hvalid.
  destruct (process_timeseries_in_range tzs _ _ ov timeseries Hvalid) as (tz & _ & ->).
  unfold new_Location. rewrite Hvalid.
  cbn [alloc cache_manager].
  destruct (set_uncached (clock_set env) (utcnow_entry env) key (next_loc w)
              (cache_manager w) Hu Hmax) as (cm' & l & -> & Hl & He & Hm & Ht).
  eexists _, _. split; [reflexivity|].
  split.
  - exists l. split; [exact Hl|]. rewrite He, Httl. lia.
  - split; cbn [with_heap with_cache_manager cache_manager]; congruence.
Qed.

End phases_of_one_coordinate.

Section task_lists.
Import EventLoop.

Lemma set_status_lookup_eq i st ts t :
  ts !! i = Some t ->
  set_status i st ts !! i = Some {| request := request t; status := st |}.
Proof. intros Hi. unfold set_status. by rewrite list_lookup_alter_eq, Hi. Qed.

Lemma set_status_lookup_ne i j st ts : i <> j -> set_status i st ts !! j = ts !! j.
Proof. intros Hne. unfold set_status. by rewrite list_lookup_alter_ne. Qed.

Lemma set_status_lookup i j st ts t' :
  set_status i st ts !! j = Some t' ->
  (j = i /\ status t' = st) \/ (j <> i /\ ts !! j = Some t').
Proof.
  intros H. destruct (decide (i = j)) as [->|Hne].
  - left. split; [done|]. unfold set_status in H.
    rewrite list_lookup_alter_eq in H. destruct (ts !! j); [|done].
    by injection H as <-.
  - right. split; [done|]. by rewrite set_status_lookup_ne in H.
Qed.

Lemma set_status_Forall (Q : Task -> Prop) i st ts :
  Forall Q ts -> (forall r, Q {| request := r; status := st |}) ->
  Forall Q (set_status i st ts).
Proof. intros Hts Hst. unfold set_status. apply Forall_alter; [done|]. intros; apply Hst. Qed.

Lemma set_status_requests (P : Request -> Prop) i st ts :
  Forall (fun t => P (request t)) ts -> Forall (fun t => P (request t)) (set_status i st ts).
Proof. intros Hts. unfold set_status. apply Forall_alter; [done|]. by intros [r st']. Qed.

End task_lists.

Section single_flight.
Context (tzs : TimezoneService) (lat lon : float) (ttl : Z).
Import Models WeatherService EventLoop.

#[local] Abbreviation key := (the_key lat lon).

Lemma lock_key_for_coordinate r :
  for_coordinate lat lon r -> lock_key_of r = "lock:" +:+ key.
Proof.
  intros [Hlat Hlon]. unfold lock_key_of, cache_key_of, the_key. by rewrite Hlat, Hlon.
Qed.

Lemma uncached_transfer w w1 :
  cache (cache_manager w1) = cache (cache_manager w) ->
  uncached lat lon w -> uncached lat lon w1.
Proof. unfold uncached. by intros ->. Qed.

Lemma cache_sized_transfer w w1 :
  cache (cache_manager w1) = cache (cache_manager w) ->
  cache_sized ttl w -> cache_sized ttl w1.
Proof. unfold cache_sized. by intros ->. Qed.

Lemma locked_section_uncached env i r s :
  for_coordinate lat lon r -> uncached lat lon (world s) ->
  exists w q,
    cache (cache_manager w) = cache (cache_manager (world s)) /\
    locked_section env i r s =
    {| world := w; held := {[ "lock:" +:+ key ]} ∪ held s;
       fetch_log := fetch_log s ++ [q];
       tasks := set_status i Fetching (tasks s) |}.
Proof.
  intros Hr Hu. unfold locked_section. rewrite (lock_key_for_coordinate r Hr).
  destruct Hr as [Hlat Hlon]. rewrite Hlat, Hlon.
  destruct (reprobe_uncached lat lon env (req_days r) (req_unit r)
              (world s) Hu) as (w & -> & Hc).
  by eexists w, _.
Qed.

Lemma locked_section_cached env i r s :
  for_coordinate lat lon r -> cached_live lat lon ttl (world s) ->
  cache_sized ttl (world s) -> in_window ttl (clock_reprobe env) ->
  exists w response,
    cached_live lat lon ttl w /\ cache_sized ttl w /\
    locked_section env i r s =
    {| world := w; held := held s; fetch_log := fetch_log s;
       tasks := set_status i (Done (Ok response)) (tasks s) |}.
Proof.
  intros [Hlat Hlon] Hc Hs Hw. unfold locked_section. rewrite Hlat, Hlon.
  destruct (reprobe_cached lat lon ttl env (req_days r) (req_unit r)
              (world s) Hc Hs Hw) as (w & response & -> & Hc' & Hs').
  by exists w, response.
Qed.

Lemma step_system_inv ev s s' :
  valid_coordinates lat lon ->
  system_inv lat lon ttl s -> good_event lat lon ttl ev ->
  step tzs ev s = Some s' -> system_inv lat lon ttl s'.
Proof.
  intros Hvalid (Hreq & Hsized & Hphase) (Hw1 & Hw2 & Hw3 & ts & Hup) Hstep.
  destruct ev as [i env|i env]; cbn [step event_env] in *;
    destruct (tasks s !! i) as [[r st]|] eqn:Hi; try done.
  - (* the loop runs task [i] *)
    assert (Hr : for_coordinate lat lon r).
    { rewrite Forall_lookup in Hreq. exact (Hreq i _ Hi). }
    pose proof (lock_key_for_coordinate r Hr) as Hlock.
    destruct st as [| | |res]; try done.
    + (* a new task *)
      destruct Hphase as [Hlog Hheld Hu Hall|i0 t0 Hlog Hheld Hu Hi0 Hst0 Hothers
                         |Hlog Hheld Hc Hall].
      * (* the first to run: it takes the lock and sends the request *)
        destruct Hr as [Hlat Hlon]. rewrite Hlat, Hlon in Hstep.
        destruct (probe_uncached lat lon env (req_days r) (req_unit r) (world s) Hu)
          as (w1 & Hp & Hc1).
        rewrite Hp, Hlock, Hheld in Hstep.
        rewrite decide_False in Hstep by set_solver.
        destruct (locked_section_uncached env i r (with_world w1 s) (conj Hlat Hlon))
          as (w2 & q & Hc2 & Hls).
        { by apply (uncached_transfer (world s)). }
        rewrite Hls in Hstep. injection Hstep as <-. unfold system_inv.
        cbn [with_world world held fetch_log tasks] in *.
        split; [by apply set_status_requests|]. split.
        { apply (cache_sized_transfer (world s)); [congruence | done]. }
        apply (phase_in_flight _ _ _ _ i {| request := r; status := Fetching |});
          cbn [world held fetch_log tasks].
        -- by rewrite Hlog.
        -- rewrite Hheld. set_solver.
        -- apply (uncached_transfer (world s)); [congruence | done].
        -- by apply (set_status_lookup_eq _ _ _ _ Hi).
        -- done.
        -- intros j t' Hj Hne. rewrite set_status_lookup_ne in Hj by done.
           left. rewrite Forall_lookup in Hall. exact (Hall j t' Hj).
      * (* a request is in flight: the task suspends on the lock *)
        destruct Hr as [Hlat Hlon]. rewrite Hlat, Hlon in Hstep.
        destruct (probe_uncached lat lon env (req_days r) (req_unit r) (world s) Hu)
          as (w1 & Hp & Hc1).
        rewrite Hp, Hlock, Hheld in Hstep.
        rewrite decide_True in Hstep by set_solver.
        injection Hstep as <-. unfold system_inv.
        cbn [with_world world held fetch_log tasks] in *.
        assert (Hne : i <> i0) by (intros ->; rewrite Hi in Hi0; by injection Hi0 as <-).
        split; [by apply set_status_requests|]. split.
        { by apply (cache_sized_transfer (world s)). }
        apply (phase_in_flight _ _ _ _ i0 t0); cbn [world held fetch_log tasks]; try done.
        -- by apply (uncached_transfer (world s)).
        -- by rewrite set_status_lookup_ne.
        -- intros j t' Hj Hj0. apply set_status_lookup in Hj as [[_ Hst]|[Hji Hj]].
           ++ by right.
           ++ by apply (Hothers j).
      * (* the forecast is cached: served at the first probe *)
        destruct Hr as [Hlat Hlon]. rewrite Hlat, Hlon in Hstep.
        destruct (probe_cached lat lon ttl env (req_days r) (req_unit r) (world s)
                    Hc Hsized Hw1) as (w1 & response & Hp & Hc1 & Hs1).
        rewrite Hp in Hstep. injection Hstep as <-. unfold system_inv.
        cbn [with_world world held fetch_log tasks] in *.
        split; [by apply set_status_requests|]. split; [done|].
        apply phase_cached; cbn [world held fetch_log tasks]; try done.
        apply set_status_Forall; [done|]. intros r0. right. right. by eexists.
    + (* a task suspended on the lock *)
      destruct Hphase as [Hlog Hheld Hu Hall|i0 t0 Hlog Hheld Hu Hi0 Hst0 Hothers
                         |Hlog Hheld Hc Hall].
      * rewrite Forall_lookup in Hall. by specialize (Hall i _ Hi).
      * rewrite Hlock, Hheld in Hstep. rewrite decide_True in Hstep by set_solver. done.
      * rewrite Hlock, Hheld in Hstep. rewrite decide_False in Hstep by set_solver.
        destruct (locked_section_cached env i r s Hr Hc Hsized Hw2)
          as (w1 & response & Hc1 & Hs1 & Hls).
        rewrite Hls in Hstep. injection Hstep as <-. unfold system_inv.
        cbn [with_world world held fetch_log tasks] in *.
        split; [by apply set_status_requests|]. split; [done|].
        apply phase_cached; cbn [world held fetch_log tasks]; try done.
        apply set_status_Forall; [done|]. intros r0. right. right. by eexists.
  - (* the response to the request of task [i] arrives *)
    assert (Hr : for_coordinate lat lon r).
    { rewrite Forall_lookup in Hreq. exact (Hreq i _ Hi). }
    pose proof (lock_key_for_coordinate r Hr) as Hlock.
    destruct st as [| | |res]; try done.
    destruct Hphase as [Hlog Hheld Hu Hall|i0 t0 Hlog Hheld Hu Hi0 Hst0 Hothers
                       |Hlog Hheld Hc Hall].
    + rewrite Forall_lookup in Hall. by specialize (Hall i _ Hi).
    + assert (i = i0) as ->.
      { destruct (decide (i = i0)) as [|Hne]; [done|].
        by destruct (Hothers i _ Hi Hne). }
      destruct Hr as [Hlat Hlon]. rewrite Hlat, Hlon, Hup, Hlock in Hstep.
      destruct (after_fetch_caches lat lon ttl tzs env ts (req_location_name r)
                  (req_days r) (req_unit r) (req_timezone_override r) (world s)
                  Hu Hsized Hvalid Hw3) as (w3 & response & Haf & Hc3 & Hs3).
      rewrite Haf in Hstep. injection Hstep as <-. unfold system_inv.
        cbn [with_world world held fetch_log tasks] in *.
      split; [by apply set_status_requests|]. split; [done|].
      apply phase_cached; cbn [world held fetch_log tasks]; try done.
      * rewrite Hheld. set_solver.
      * rewrite Forall_lookup. intros j t' Hj.
        apply set_status_lookup in Hj as [[_ Hst]|[Hji Hj]].
        -- right. right. by eexists.
        -- destruct (Hothers j t' Hj Hji) as [-> | ->]; auto.
    + rewrite Forall_lookup in Hall. specialize (Hall i _ Hi).
      by destruct Hall as [?|[?|[? ?]]].
Qed.

End single_flight.

Section event_loop_facts.
Context (tzs : TimezoneService).
Import Models WeatherService EventLoop.

(** What a stretch of the loop does to the task it runs and to the locks. *)
Lemma step_shape ev s s' :
  step tzs ev s = Some s' ->
  exists i r st st',
    tasks s !! i = Some {| request := r; status := st |} /\
    tasks s' = set_status i st' (tasks s) /\
    ((st = Start /\ (lock_key_of r ∈ held s) /\ st' = Waiting /\ held s' = held s) \/
     ((st = Start \/ st = Waiting) /\ (lock_key_of r ∉ held s) /\
      st' = Fetching /\ held s' = {[lock_key_of r]} ∪ held s) \/
     ((st = Start \/ (st = Waiting /\ (lock_key_of r ∉ held s))) /\
      (exists response, st' = Done (Ok response)) /\ held s' = held s) \/
     (st = Fetching /\ (exists res, st' = Done res) /\
      held s' = held s ∖ {[lock_key_of r]})).
Proof.
  intros Hstep. destruct ev as [i env|i env]; cbn [step] in Hstep;
    destruct (tasks s !! i) as [[r st]|] eqn:Hi; try done;
    destruct st as [| | |res]; try done; exists i, r.
  - (* a new task *)
    destruct (probe env _ _ _ _ (world s)) as [w [response|]].
    + injection Hstep as <-. exists Start, (Done (Ok response)).
      split; [done|]. split; [done|]. right. right. left.
      split; [by left|]. split; [by eexists | done].
    + destruct (decide (lock_key_of r ∈ held s)) as [Hin|Hnin].
      * injection Hstep as <-. exists Start, Waiting.
        split; [done|]. split; [done|]. by left.
      * unfold locked_section in Hstep.
        cbn [with_world world held fetch_log tasks] in Hstep.
        destruct (reprobe env _ _ _ _ w) as [w' [response|]]; injection Hstep as <-.
        -- exists Start, (Done (Ok response)).
           split; [done|]. split; [done|]. right. right. left.
           split; [by left|]. split; [by eexists | done].
        -- exists Start, Fetching.
           split; [done|]. split; [done|]. right. left.
           split; [by left | done].
  - (* a task suspended on the lock *)
    destruct (decide (lock_key_of r ∈ held s)) as [Hin|Hnin]; [done|].
    unfold locked_section in Hstep.
    destruct (reprobe env _ _ _ _ (world s)) as [w' [response|]]; injection Hstep as <-.
    + exists Waiting, (Done (Ok response)).
      split; [done|]. split; [done|]. right. right. left.
      split; [by right|]. split; [by eexists | done].
    + exists Waiting, Fetching.
      split; [done|]. split; [done|]. right. left.
      split; [by right | done].
  - (* a task whose request is in flight *)
    destruct (after_fetch tzs env _ _ _ _ _ _ _ (world s)) as [w res3].
    injection Hstep as <-. exists Fetching, (Done res3).
    split; [done|]. split; [done|]. right. right. right.
    split; [done|]. split; [by eexists | done].
Qed.

Lemma measure_set_status i st ts t :
  ts !! i = Some t ->
  (task_measure {| request := request t; status := st |} < task_measure t)%nat ->
  (sum_list (List.map task_measure (set_status i st ts)) <
   sum_list (List.map task_measure ts))%nat.
Proof.
  unfold set_status. revert i. induction ts as [|t0 ts IH]; intros [|i] Hi Hlt; try done.
  - injection Hi as ->. cbn. lia.
  - cbn [alter list_alter List.map sum_list]. specialize (IH i Hi Hlt).
    change (list_alter ?f i ts) with (alter f i ts). lia.
Qed.

(** Every stretch brings a task nearer to its end: [n] requests are over
    after at most [3 * n] stretches. *)
Lemma step_measure ev s s' :
  step tzs ev s = Some s' -> (measure s' < measure s)%nat.
Proof.
  intros Hstep. apply step_shape in Hstep as (i & r & st & st' & Hi & Hts & Hcases).
  unfold measure. rewrite Hts. apply (measure_set_status _ _ _ _ Hi). cbn [request].
  destruct Hcases as [(-> & _ & -> & _)|[([-> | ->] & _ & -> & _)
                     |[([-> | [-> _]] & [l ->] & _)|(-> & [res ->] & _)]]];
    cbn; lia.
Qed.

Lemma held_by_fetching_initial w reqs : held_by_fetching (initial_system w reqs).
Proof. intros k Hk. cbn in Hk. set_solver. Qed.

Lemma step_held_by_fetching ev s s' :
  step tzs ev s = Some s' -> held_by_fetching s -> held_by_fetching s'.
Proof.
  intros Hstep Hinv.
  apply step_shape in Hstep as (i & r & st & st' & Hi & Hts & Hcases).
  assert (Hkeep : forall k, k ∈ held s -> st <> Fetching ->
            exists j t, tasks s' !! j = Some t /\ status t = Fetching /\
                        lock_key_of (request t) = k).
  { intros k Hk Hst. destruct (Hinv k Hk) as (j & t & Hj & Hf & Hl).
    exists j, t. split; [|done]. rewrite Hts, set_status_lookup_ne; [done|].
    intros ->. rewrite Hi in Hj. injection Hj as <-. done. }
  intros k Hk.
  destruct Hcases as [(-> & _ & -> & Hh)|[(Hst & _ & -> & Hh)
                     |[(Hst & [l ->] & Hh)|(-> & [res ->] & Hh)]]];
    rewrite Hh in Hk.
  - by apply Hkeep.
  - apply elem_of_union in Hk as [Hk|Hk].
    + apply elem_of_singleton in Hk as ->.
      exists i, {| request := r; status := Fetching |}.
      split; [|done]. rewrite Hts. by apply (set_status_lookup_eq _ _ _ _ Hi).
    + apply Hkeep; [done|]. by destruct Hst as [-> | ->].
  - apply Hkeep; [done|]. by destruct Hst as [-> | [-> _]].
  - apply elem_of_difference in Hk as [Hk Hne].
    destruct (Hinv k Hk) as (j & t & Hj & Hf & Hl).
    exists j, t. split; [|done]. rewrite Hts, set_status_lookup_ne; [done|].
    intros ->. rewrite Hi in Hj. injection Hj as <-. cbn in Hl. set_solver.
Qed.

Lemma run_held_by_fetching evs s s' :
  run tzs evs s = Some s' -> held_by_fetching s -> held_by_fetching s'.
Proof.
  revert s. induction evs as [|ev evs IH]; intros s Hrun Hinv; cbn [run] in Hrun.
  - by injection Hrun as <-.
  - destruct (step tzs ev s) as [s1|] eqn:Hstep; [|done].
    apply (IH s1 Hrun). by apply (step_held_by_fetching ev s).
Qed.

(** A new task whose lock is free runs on to its request or to its
    return; it does not suspend on the lock. *)
Lemma step_new_task_lock_free i r env s :
  tasks s !! i = Some {| request := r; status := Start |} ->
  lock_key_of r ∉ held s ->
  exists s' st,
    step tzs (Run i env) s = Some s' /\
    tasks s' !! i = Some {| request := r; status := st |} /\ st <> Waiting.
Proof.
  intros Hi Hfree. cbn [step]. rewrite Hi.
  destruct (probe env _ _ _ _ (world s)) as [w [response|]].
  - eexists _, _. split; [done|]. cbn [tasks].
    split; [by apply (set_status_lookup_eq _ _ _ _ Hi) | done].
  - rewrite decide_False by done. unfold locked_section.
    cbn [with_world world held fetch_log tasks].
    destruct (reprobe env _ _ _ _ w) as [w' [response|]];
      eexists _, _; (split; [done|]); cbn [tasks];
      (split; [by apply (set_status_lookup_eq _ _ _ _ Hi) | done]).
Qed.

End event_loop_facts.

Section single_flight_theorem.
Context (tzs : TimezoneService).
Import Models WeatherService EventLoop.

Lemma initial_system_inv lat lon ttl w reqs :
  Forall (for_coordinate lat lon) reqs -> cache_sized ttl w -> uncached lat lon w ->
  system_inv lat lon ttl (initial_system w reqs).
Proof.
  intros Hreqs Hsized Hu. split; [|split; [done|]].
  - cbn [initial_system tasks]. rewrite Forall_forall in Hreqs. rewrite Forall_forall.
    intros t Ht. apply list_elem_of_fmap in Ht as (r & -> & Hr). by apply Hreqs.
  - apply phase_idle; try done. cbn [initial_system tasks].
    rewrite Forall_forall. intros t Ht. by apply list_elem_of_fmap in Ht as (r & -> & _).
Qed.

Lemma run_system_inv lat lon ttl evs s s' :
  valid_coordinates lat lon -> Forall (good_event lat lon ttl) evs ->
  system_inv lat lon ttl s -> run tzs evs s = Some s' -> system_inv lat lon ttl s'.
Proof.
  intros Hvalid Hgood. revert s. induction Hgood as [|ev evs Hev Hevs IH];
    intros s Hinv Hrun; cbn [run] in Hrun.
  - by injection Hrun as <-.
  - destruct (step tzs ev s) as [s1|] eqn:Hstep; [|done].
    apply (IH s1); [|done]. by apply (step_system_inv tzs lat lon ttl ev s).
Qed.

Lemma not_all_done s :
  all_done s = false -> exists i t, tasks s !! i = Some t /\ is_done t = false.
Proof.
  unfold all_done. induction (tasks s) as [|t ts IH]; [done|].
  cbn [forallb]. destruct (is_done t) eqn:Ht.
  - intros H. destruct (IH H) as (i & t' & Hi & Ht'). by exists (S i), t'.
  - intros _. by exists 0%nat, t.
Qed.

Lemma all_done_lookup s i t :
  all_done s = true -> tasks s !! i = Some t -> is_done t = true.
Proof.
  unfold all_done. rewrite forallb_forall. intros Hall Hi. apply Hall.
  apply list_elem_of_In. by eapply list_elem_of_lookup_2.
Qed.

(** An environment in which the upstream answers, at clock 0. *)
Lemma good_env_exists lat lon ttl : 0 < ttl -> exists env, good_env lat lon ttl env.
Proof.
  intros Httl.
  exists {| clock_probe := 0; clock_reprobe := 0; clock_set := 0;
            utcnow_response := 0; utcnow_entry := 0;
            upstream := fun _ _ => Ok [] |}.
  unfold good_env, in_window, US_PER_SECOND. cbn.
  repeat split; try lia. by exists [].
Qed.

Lemma run_task_enabled i r st env s :
  tasks s !! i = Some {| request := r; status := st |} ->
  st = Start \/ (st = Waiting /\ held s = ∅) ->
  is_Some (step tzs (Run i env) s).
Proof.
  intros Hi Hst. cbn [step]. rewrite Hi. destruct Hst as [-> | [-> Hheld]].
  - destruct (probe env _ _ _ _ (world s)) as [w [response|]]; [done|].
    by destruct (decide (lock_key_of r ∈ held s)).
  - rewrite Hheld. by rewrite decide_False by set_solver.
Qed.

Lemma respond_enabled i r env s :
  tasks s !! i = Some {| request := r; status := Fetching |} ->
  is_Some (step tzs (Respond i env) s).
Proof.
  intros Hi. cbn [step]. rewrite Hi.
  by destruct (after_fetch tzs env _ _ _ _ _ _ _ (world s)).
Qed.

Lemma system_inv_progress lat lon ttl s :
  0 < ttl -> system_inv lat lon ttl s -> all_done s = false ->
  exists ev s', good_event lat lon ttl ev /\ step tzs ev s = Some s'.
Proof.
  intros Httl (_ & _ & Hphase) Hnot.
  destruct (good_env_exists lat lon ttl Httl) as [env Henv].
  destruct (not_all_done s Hnot) as (i & [r st] & Hi & Hnd).
  destruct Hphase as [Hlog Hheld Hu Hall|i0 [r0 st0] Hlog Hheld Hu Hi0 Hst0 Hothers
                     |Hlog Hheld Hc Hall].
  - rewrite Forall_lookup in Hall. pose proof (Hall i _ Hi) as Hst. cbn in Hst. subst st.
    destruct (run_task_enabled i r Start env s Hi) as [s' Hs']; [by left|].
    by exists (Run i env), s'.
  - cbn in Hst0. subst st0.
    destruct (respond_enabled i0 r0 env s Hi0) as [s' Hs'].
    by exists (Respond i0 env), s'.
  - rewrite Forall_lookup in Hall. pose proof (Hall i _ Hi) as Hst. cbn in Hst.
    destruct (run_task_enabled i r st env s Hi) as [s' Hs'].
    { destruct Hst as [-> | [-> | [l ->]]]; [by left | by right | done]. }
    by exists (Run i env), s'.
Qed.

Lemma system_inv_fetches lat lon ttl s :
  system_inv lat lon ttl s ->
  (length (fetch_log s) <= 1)%nat /\
  (all_done s = true ->
   tasks s <> [] ->
   length (fetch_log s) = 1%nat /\
   Forall (fun t => exists response, status t = Done (Ok response)) (tasks s)).
Proof.
  intros (_ & _ & Hphase).
  destruct Hphase as [Hlog Hheld Hu Hall|i0 t0 Hlog Hheld Hu Hi0 Hst0 Hothers
                     |Hlog Hheld Hc Hall].
  - rewrite Hlog. split; [cbn; lia|]. intros Hdone Hne.
    destruct (tasks s) as [|t ts] eqn:Hts; [done|].
    apply Forall_cons in Hall as [Ht _]. 
    assert (Hd : is_done t = true) by (apply (all_done_lookup s 0%nat); [done | by rewrite Hts]).
    unfold is_done in Hd. by rewrite Ht in Hd.
  - split; [lia|]. intros Hdone _.
    pose proof (all_done_lookup s i0 t0 Hdone Hi0) as Hd.
    unfold is_done in Hd. by rewrite Hst0 in Hd.
  - split; [lia|]. intros Hdone _. split; [done|].
    rewrite Forall_lookup in *. intros i t Hi.
    pose proof (all_done_lookup s i t Hdone Hi) as Hd. unfold is_done in Hd.
    destruct (Hall i t Hi) as [Hst | [Hst | Hst]]; [by rewrite Hst in Hd ..| done].
Qed.

End single_flight_theorem.

Section single_flight_claim.
Import Models WeatherService EventLoop Examples.

Lemma step_tasks_length tzs ev s s' :
  step tzs ev s = Some s' -> length (tasks s') = length (tasks s).
Proof.
  intros Hstep. apply step_shape in Hstep as (i & r & st & st' & _ & -> & _).
  unfold set_status. apply length_alter.
Qed.

Lemma run_tasks_length tzs evs s s' :
  run tzs evs s = Some s' -> length (tasks s') = length (tasks s).
Proof.
  revert s. induction evs as [|ev evs IH]; intros s Hrun; cbn [run] in Hrun.
  - by injection Hrun as <-.
  - destruct (step tzs ev s) as [s1|] eqn:Hstep; [|done].
    rewrite (IH s1 Hrun). by apply (step_tasks_length tzs ev).
Qed.

Lemma lock_key_of_inj r1 r2 :
  lock_key_of r1 = lock_key_of r2 -> cache_key_of r1 = cache_key_of r2.
Proof. unfold lock_key_of. apply (inj (String.append "lock:")). Qed.




(** A request for Oslo started while the request for Belgrade is in flight
    goes upstream at once: both are in flight together. *)
Example different_coordinates_both_in_flight :
  let after := run belgrade_tz [Run 0 (env_ok 0); Run 1 (env_ok 1)] two_cities in
  (List.map status <$> (tasks <$> after)) = Some [Fetching; Fetching] /\
  (fetch_log <$> after) = Some [("44.8125", "20.4612"); ("59.9139", "10.7522")].
Proof. vm_compute. split; reflexivity. Qed.

End single_flight_claim.

(* ================================================================== *)
(** ** The per-key lock under every schedule *)
(* ================================================================== *)

Section lock_discipline.
Context (tzs : TimezoneService).
Import Models WeatherService EventLoop Examples.

Lemma step_lock_discipline ev s s' :
  step tzs ev s = Some s' ->
  fetching_holds_lock s /\ one_in_flight_per_key s ->
  fetching_holds_lock s' /\ one_in_flight_per_key s'.
Proof.
  intros Hstep [Hholds Hone].
  apply step_shape in Hstep as (i & r & st & st' & Hi & Hts & Hcases).
  (* the tasks other than [i] are as before *)
  assert (Hother : forall j t, tasks s' !! j = Some t -> j <> i -> tasks s !! j = Some t).
  { intros j t Hj Hne. rewrite Hts in Hj. by rewrite set_status_lookup_ne in Hj. }
  assert (Hself : forall t, tasks s' !! i = Some t -> request t = r /\ status t = st').
  { intros t Ht. rewrite Hts, (set_status_lookup_eq _ _ _ _ Hi) in Ht.
    by injection Ht as <-. }
  destruct Hcases as [(-> & _ & -> & Hh)|[(Hst & Hfree & -> & Hh)
                     |[(Hst & [l ->] & Hh)|(-> & [res ->] & Hh)]]].
  - (* the task suspends on the lock *)
    split.
    + intros j t Hj Hf. rewrite Hh. destruct (decide (j = i)) as [->|Hne].
      * by destruct (Hself t Hj) as [_ Hs]; rewrite Hs in Hf.
      * apply (Hholds j t); [by apply Hother | done].
    + intros j1 j2 t1 t2 H1 H2 Hf1 Hf2 Hk.
      destruct (decide (j1 = i)) as [->|Hn1].
      { by destruct (Hself t1 H1) as [_ Hs]; rewrite Hs in Hf1. }
      destruct (decide (j2 = i)) as [->|Hn2].
      { by destruct (Hself t2 H2) as [_ Hs]; rewrite Hs in Hf2. }
      apply (Hone j1 j2 t1 t2); try done; by apply Hother.
  - (* the task takes the free lock and sends its request *)
    split.
    + intros j t Hj Hf. rewrite Hh. destruct (decide (j = i)) as [->|Hne].
      * destruct (Hself t Hj) as [-> _]. set_solver.
      * apply elem_of_union_r. apply (Hholds j t); [by apply Hother | done].
    + intros j1 j2 t1 t2 H1 H2 Hf1 Hf2 Hk.
      destruct (decide (j1 = i)) as [->|Hn1]; destruct (decide (j2 = i)) as [->|Hn2];
        try done.
      * destruct (Hself t1 H1) as [Hr1 _]. rewrite Hr1 in Hk.
        exfalso. apply Hfree. rewrite Hk. apply (Hholds j2 t2); [by apply Hother | done].
      * destruct (Hself t2 H2) as [Hr2 _]. rewrite Hr2 in Hk.
        exfalso. apply Hfree. rewrite <- Hk. apply (Hholds j1 t1); [by apply Hother | done].
      * apply (Hone j1 j2 t1 t2); try done; by apply Hother.
  - (* the task is served from the cache *)
    split.
    + intros j t Hj Hf. rewrite Hh. destruct (decide (j = i)) as [->|Hne].
      * by destruct (Hself t Hj) as [_ Hs]; rewrite Hs in Hf.
      * apply (Hholds j t); [by apply Hother | done].
    + intros j1 j2 t1 t2 H1 H2 Hf1 Hf2 Hk.
      destruct (decide (j1 = i)) as [->|Hn1].
      { by destruct (Hself t1 H1) as [_ Hs]; rewrite Hs in Hf1. }
      destruct (decide (j2 = i)) as [->|Hn2].
      { by destruct (Hself t2 H2) as [_ Hs]; rewrite Hs in Hf2. }
      apply (Hone j1 j2 t1 t2); try done; by apply Hother.
  - (* the response arrives: the task releases the lock *)
    split.
    + intros j t Hj Hf. rewrite Hh. destruct (decide (j = i)) as [->|Hne].
      * by destruct (Hself t Hj) as [_ Hs]; rewrite Hs in Hf.
      * apply elem_of_difference. split; [apply (Hholds j t); [by apply Hother | done]|].
        rewrite elem_of_singleton. intros Hk. apply Hne.
        apply (Hone j i t {| request := r; status := Fetching |});
          [by apply Hother | done | done | done | done].
    + intros j1 j2 t1 t2 H1 H2 Hf1 Hf2 Hk.
      destruct (decide (j1 = i)) as [->|Hn1].
      { by destruct (Hself t1 H1) as [_ Hs]; rewrite Hs in Hf1. }
      destruct (decide (j2 = i)) as [->|Hn2].
      { by destruct (Hself t2 H2) as [_ Hs]; rewrite Hs in Hf2. }
      apply (Hone j1 j2 t1 t2); try done; by apply Hother.
Qed.

Lemma initial_lock_discipline w reqs :
  fetching_holds_lock (initial_system w reqs) /\
  one_in_flight_per_key (initial_system w reqs).
Proof.
  assert (H : forall i t, tasks (initial_system w reqs) !! i = Some t -> status t = Start).
  { intros i t Hi. cbn [initial_system tasks] in Hi.
    apply list_elem_of_lookup_2 in Hi.
    by apply list_elem_of_fmap in Hi as (r & -> & _). }
  split.
  - intros i t Hi Hf. by rewrite (H i t Hi) in Hf.
  - intros i j ti tj Hi _ Hf. by rewrite (H i ti Hi) in Hf.
Qed.

Lemma run_lock_discipline evs s s' :
  run tzs evs s = Some s' ->
  fetching_holds_lock s /\ one_in_flight_per_key s ->
  fetching_holds_lock s' /\ one_in_flight_per_key s'.
Proof.
  revert s. induction evs as [|ev evs IH]; intros s Hrun Hinv; cbn [run] in Hrun.
  - by injection Hrun as <-.
  - destruct (step tzs ev s) as [s1|] eqn:Hstep; [|done].
    apply (IH s1 Hrun). by apply (step_lock_discipline ev s).
Qed.

(** Property X1.
    Under every schedule, with the upstream answering or failing, at any
    clock readings: never two requests in flight for one cache key. *)
Theorem never_two_fetches_in_flight_for_one_key w reqs evs s :
  run tzs evs (initial_system w reqs) = Some s ->
  forall i j ti tj,
    tasks s !! i = Some ti -> tasks s !! j = Some tj ->
    status ti = Fetching -> status tj = Fetching ->
    cache_key_of (request ti) = cache_key_of (request tj) ->
    i = j.
Proof.
  intros Hrun i j ti tj Hi Hj Hfi Hfj Hk.
  destruct (run_lock_discipline evs _ s Hrun (initial_lock_discipline w reqs)) as [_ Hone].
  apply (Hone i j ti tj); try done. unfold lock_key_of. by rewrite Hk.
Qed.

Lemma run_measure evs s s' :
  run tzs evs s = Some s' -> (length evs + measure s' <= measure s)%nat.
Proof.
  revert s. induction evs as [|ev evs IH]; intros s Hrun; cbn [run] in Hrun.
  - injection Hrun as <-. cbn. lia.
  - destruct (step tzs ev s) as [s1|] eqn:Hstep; [|done].
    specialize (IH s1 Hrun). apply step_measure in Hstep. cbn [length]. lia.
Qed.

Lemma initial_measure w reqs : measure (initial_system w reqs) = (3 * length reqs)%nat.
Proof.
  unfold measure. cbn [initial_system tasks]. induction reqs as [|r reqs IH]; [done|].
  cbn [List.map sum_list length] in *. rewrite IH. cbn. lia.
Qed.

(** Property X2.
    No schedule of [n] requests runs for more than [3 * n] stretches of
    the event loop: a request is run, woken and answered at most once
    each. *)
Theorem schedule_bounded_by_three_stretches_per_request w reqs evs s :
  run tzs evs (initial_system w reqs) = Some s ->
  (length evs <= 3 * length reqs)%nat.
Proof.
  intros Hrun. apply run_measure in Hrun. rewrite initial_measure in Hrun. lia.
Qed.

(** Property X3.
    When every request is over, every lock is released, also after
    requests that raised. *)
Theorem locks_released_when_all_done w reqs evs s :
  run tzs evs (initial_system w reqs) = Some s ->
  all_done s = true -> held s = ∅.
Proof.
  intros Hrun Hdone.
  pose proof (run_held_by_fetching tzs evs _ s Hrun (held_by_fetching_initial w reqs))
    as Hheld.
  apply set_eq. intros k. split; [|set_solver].
  intros Hk. destruct (Hheld k Hk) as (j & t & Hj & Hf & _).
  pose proof (all_done_lookup s j t Hdone Hj) as Hd.
  unfold is_done in Hd. by rewrite Hf in Hd.
Qed.

End lock_discipline.

Section lock_discipline_witnesses.
Import Models WeatherService EventLoop Examples.

(** Three requests for Belgrade: the first is in flight, the others wait. *)
Lemma three_requests_first_in_flight :
  exists s,
    run belgrade_tz [Run 0 (env_ok 0); Run 1 (env_ok 1); Run 2 (env_ok 2)]
      (initial_system world0
         [belgrade_request CELSIUS; belgrade_request FAHRENHEIT; belgrade_request CELSIUS])
    = Some s /\
    List.map status (tasks s) = [Fetching; Waiting; Waiting].
Proof.
  set (sys := run belgrade_tz _ _).
  assert (Hsome : is_Some sys) by (vm_compute; eexists; reflexivity).
  destruct Hsome as [s Hs]. exists s. split; [exact Hs|].
  assert (Hst : (List.map status <$> (tasks <$> sys)) = Some [Fetching; Waiting; Waiting])
    by (vm_compute; reflexivity).
  rewrite Hs in Hst. by injection Hst.
Qed.

Lemma never_two_fetches_in_flight_for_one_key_witness :
  exists s,
    run belgrade_tz [Run 0 (env_ok 0); Run 1 (env_ok 1); Run 2 (env_ok 2)]
      (initial_system world0
         [belgrade_request CELSIUS; belgrade_request FAHRENHEIT; belgrade_request CELSIUS])
    = Some s /\
    forall i j ti tj,
      tasks s !! i = Some ti -> tasks s !! j = Some tj ->
      status ti = Fetching -> status tj = Fetching ->
      cache_key_of (request ti) = cache_key_of (request tj) -> i = j.
Proof.
  destruct three_requests_first_in_flight as (s & Hs & _). exists s. split; [exact Hs|].
  exact (never_two_fetches_in_flight_for_one_key belgrade_tz _ _ _ s Hs).
Defined.

Lemma schedule_bounded_by_three_stretches_per_request_witness :
  (length [Run 0 (env_ok 0); Run 1 (env_ok 1); Run 2 (env_ok 2)] <= 3 * 3)%nat.
Proof.
  destruct three_requests_first_in_flight as (s & Hs & _).
  exact (schedule_bounded_by_three_stretches_per_request belgrade_tz _ _ _ s Hs).
Defined.

(** Three requests while yr.no is down: all raise, and no lock stays
    taken. *)
Lemma locks_released_when_all_done_witness :
  exists s,
    run belgrade_tz
      [Run 0 (env_down 0); Run 1 (env_down 0); Run 2 (env_down 0);
       Respond 0 (env_down 1); Run 1 (env_down 2); Respond 1 (env_down 3);
       Run 2 (env_down 4); Respond 2 (env_down 5)]
      (initial_system world0
         [belgrade_request CELSIUS; belgrade_request FAHRENHEIT; belgrade_request CELSIUS])
    = Some s /\
    held s = ∅.
Proof.
  set (sys := run belgrade_tz _ _).
  assert (Hsome : is_Some sys) by (vm_compute; eexists; reflexivity).
  destruct Hsome as [s Hs]. exists s. split; [exact Hs|].
  assert (Hdone : (all_done <$> sys) = Some true) by (vm_compute; reflexivity).
  rewrite Hs in Hdone. injection Hdone as Hdone.
  exact (locks_released_when_all_done belgrade_tz _ _ _ s Hs Hdone).
Defined.

End lock_discipline_witnesses.

(* ================================================================== *)
(** ** [CacheManager]: statistics, round trips, demotion *)
(* ================================================================== *)

Section cache_manager_behaviour.
Import Examples.

Lemma get_stats now k cm :
  let cm' := snd (Cache.get now k cm) in
  stats_hits cm' + stats_misses cm' = stats_hits cm + stats_misses cm + 1 /\
  stats_hits cm <= stats_hits cm' /\ stats_misses cm <= stats_misses cm'.
Proof.
  unfold Cache.get. destruct (TTLCache.getitem now k (cache cm)) as [[e c]|]; cbn; lia.
Qed.

Lemma set_stats now utcnow k d cm :
  let cm' := fst (Cache.set now utcnow k d cm) in
  stats_hits cm' = stats_hits cm /\ stats_misses cm' = stats_misses cm.
Proof.
  unfold Cache.set. destruct (TTLCache.getitem now k (cache cm)) as [[e c]|];
    by destruct (TTLCache.setitem _ _ _ _).
Qed.

Lemma run_ops_stats ops cm :
  stats_hits (run_ops ops cm) + stats_misses (run_ops ops cm) =
    stats_hits cm + stats_misses cm + count_gets ops /\
  stats_hits cm <= stats_hits (run_ops ops cm) /\
  stats_misses cm <= stats_misses (run_ops ops cm).
Proof.
  unfold run_ops, count_gets. revert cm.
  induction ops as [|op ops IH]; intros cm; [cbn; lia|].
  cbn [fold_left]. specialize (IH (run_op cm op)).
  destruct op as [now k|k|now utcnow k d|now]; cbn [run_op List.filter is_get length] in *.
  - pose proof (get_stats now k cm) as Hg. cbn zeta in Hg. lia.
  - lia.
  - pose proof (set_stats now utcnow k d cm) as Hs. cbn zeta in Hs. lia.
  - lia.
Qed.

(** Property X4.
    The two counters together count the [get] calls, whatever else is
    called in between, and the hit rate is undefined exactly as long as
    there was no [get]: it is never a division by zero. *)
Theorem statistics_count_lookups (settings : Settings) (ops : list cache_op) :
  let cm := run_ops ops (Cache.new settings) in
  0 <= stats_hits cm /\ 0 <= stats_misses cm /\
  stats_hits cm + stats_misses cm = count_gets ops /\
  (Cache.get_hit_rate cm = None <-> count_gets ops = 0).
Proof.
  intros cm. subst cm.
  destruct (run_ops_stats ops (Cache.new settings)) as (Hsum & Hh & Hm).
  cbn [Cache.new stats_hits stats_misses] in Hsum, Hh, Hm.
  split; [done|]. split; [done|]. split; [lia|].
  unfold Cache.get_hit_rate.
  destruct (Z.eqb_spec (stats_hits (run_ops ops (Cache.new settings)) +
                        stats_misses (run_ops ops (Cache.new settings))) 0).
  - split; [lia | done].
  - split; [done | lia].
Qed.

(** What [set] leaves in the cache, whether or not the key was live. *)
Lemma set_stores now utcnow k d cm :
  1 <= TTLCache.maxsize (cache cm) ->
  exists cm' l,
    Cache.set now utcnow k d cm = (cm', Ok ()) /\
    TTLCache.find_link k (TTLCache.links (cache cm')) = Some l /\
    TTLCache.value l = new_entry d utcnow /\
    TTLCache.expires l = now + TTLCache.ttl (cache cm) * US_PER_SECOND /\
    TTLCache.maxsize (cache cm') = TTLCache.maxsize (cache cm) /\
    TTLCache.ttl (cache cm') = TTLCache.ttl (cache cm) /\
    stale_cache cm' =
      match TTLCache.getitem now k (cache cm) with
      | Some (old, _) => <[k := old]> (stale_cache cm)
      | None => stale_cache cm
      end.
Proof.
  intros Hmax. unfold Cache.set.
  assert (Hset : forall c : TTLCache.t CacheEntry,
    TTLCache.maxsize c = TTLCache.maxsize (cache cm) ->
    TTLCache.ttl c = TTLCache.ttl (cache cm) ->
    exists c' l,
      TTLCache.setitem now k (new_entry d utcnow) c = Ok c' /\
      TTLCache.find_link k (TTLCache.links c') = Some l /\
      TTLCache.value l = new_entry d utcnow /\
      TTLCache.expires l = now + TTLCache.ttl (cache cm) * US_PER_SECOND /\
      TTLCache.maxsize c' = TTLCache.maxsize (cache cm) /\
      TTLCache.ttl c' = TTLCache.ttl (cache cm)).
  { intros c Hm Ht. unfold TTLCache.setitem.
    destruct (Z.ltb_spec (TTLCache.maxsize c) 1); [lia|].
    eexists _, _. split; [reflexivity|].
    cbn [TTLCache.with_links TTLCache.links TTLCache.maxsize TTLCache.ttl].
    split.
    - rewrite find_link_app, find_link_remove_link.
      unfold TTLCache.find_link, TTLCache.is_key. cbn [List.find TTLCache.key].
      by rewrite bool_decide_eq_true_2 by done.
    - cbn [TTLCache.value TTLCache.expires]. by rewrite Ht. }
  fold (new_entry d utcnow).
  destruct (TTLCache.getitem now k (cache cm)) as [[old c]|] eqn:Hg.
  - apply getitem_params in Hg as [Hm Ht].
    destruct (Hset c Hm Ht) as (c' & l & -> & Hl & Hv & He & Hm' & Ht').
    by eexists _, l.
  - destruct (Hset (cache cm) eq_refl eq_refl) as (c' & l & -> & Hl & Hv & He & Hm' & Ht').
    by eexists _, l.
Qed.

Lemma get_found now k cm l :
  TTLCache.find_link k (TTLCache.links (cache cm)) = Some l ->
  fst (Cache.get now k cm) =
  if now <? TTLCache.expires l then Some (increment_hits (TTLCache.value l)) else None.
Proof.
  intros Hf. unfold Cache.get, TTLCache.getitem, TTLCache.live. rewrite Hf.
  by destruct (now <? TTLCache.expires l).
Qed.

(** Property X5.
    Round trip: an item stored at clock [now] is what [get] returns, with
    its first hit counted, at every clock reading before [now] plus the
    time to live, and is gone from then on. *)
Theorem set_then_get (now later : Z) (utcnow : datetime) (k : string) (d : loc)
    (cm : CacheManager) :
  1 <= TTLCache.maxsize (cache cm) ->
  let cm' := fst (Cache.set now utcnow k d cm) in
  snd (Cache.set now utcnow k d cm) = Ok () /\
  fst (Cache.get later k cm') =
  if later <? now + TTLCache.ttl (cache cm) * US_PER_SECOND
  then Some {| data := d; created_at := utcnow; hit_count := 1 |}
  else None.
Proof.
  intros Hmax cm'. subst cm'.
  destruct (set_stores now utcnow k d cm Hmax) as (cm' & l & -> & Hl & Hv & He & _).
  cbn [fst snd]. split; [done|].
  rewrite (get_found later k cm' l Hl), He, Hv. done.
Qed.

(** Property X6.
    Demotion: storing under a key whose entry is still live moves that
    entry to the stale table, in place of whatever was stale before. *)
Theorem set_while_live_demotes (t1 t2 : Z) (u1 u2 : datetime) (k : string) (d1 d2 : loc)
    (cm : CacheManager) :
  1 <= TTLCache.maxsize (cache cm) ->
  t2 < t1 + TTLCache.ttl (cache cm) * US_PER_SECOND ->
  Cache.get_stale k
    (fst (Cache.set t2 u2 k d2 (fst (Cache.set t1 u1 k d1 cm)))) =
  Some {| data := d1; created_at := u1; hit_count := 0 |}.
Proof.
  intros Hmax Hlive.
  destruct (set_stores t1 u1 k d1 cm Hmax) as (cm1 & l & -> & Hl & Hv & He & Hm & Ht & _).
  cbn [fst].
  destruct (set_stores t2 u2 k d2 cm1) as (cm2 & l2 & -> & _ & _ & _ & _ & _ & Hst);
    [lia|].
  cbn [fst]. unfold Cache.get_stale. rewrite Hst.
  unfold TTLCache.getitem, TTLCache.live. rewrite Hl.
  destruct (Z.ltb_spec t2 (TTLCache.expires l)) as [_|Hge]; [|lia].
  by rewrite lookup_insert_eq, Hv.
Qed.

Lemma set_then_get_witness :
  let cm := Cache.new default_settings in
  snd (Cache.set 0 (jan15 10 30) belgrade_key 7%nat cm) = Ok () /\
  fst (Cache.get 5 belgrade_key (fst (Cache.set 0 (jan15 10 30) belgrade_key 7%nat cm))) =
  if 5 <? 0 + TTLCache.ttl (cache cm) * US_PER_SECOND
  then Some {| data := 7%nat; created_at := jan15 10 30; hit_count := 1 |}
  else None.
Proof.
  apply (set_then_get 0 5 (jan15 10 30) belgrade_key 7%nat (Cache.new default_settings)).
  by vm_compute.
Defined.

Lemma set_while_live_demotes_witness :
  Cache.get_stale belgrade_key
    (fst (Cache.set 9 (jan15 11 0) belgrade_key 8%nat
            (fst (Cache.set 0 (jan15 10 30) belgrade_key 7%nat
                    (Cache.new default_settings))))) =
  Some {| data := 7%nat; created_at := jan15 10 30; hit_count := 0 |}.
Proof.
  apply (set_while_live_demotes 0 9 (jan15 10 30) (jan15 11 0) belgrade_key 7%nat 8%nat
           (Cache.new default_settings)); by vm_compute.
Defined.

End cache_manager_behaviour.

(* ================================================================== *)
(** ** Calls of [get_forecast] one after the other *)
(* ================================================================== *)

Section sequential_calls.
Context (tzs : TimezoneService).
Import Models WeatherService Examples.

(** Property X7.
    No sequence of calls ever puts an entry into the stale table: the
    store of a call comes after its own miss, so it finds nothing live to
    demote.  The stale fallback of [get_forecast] has nothing to serve. *)
Theorem calls_never_fill_stale_table (settings : Settings) (calls : list Call) :
  Forall clock_forward calls ->
  forall k, Cache.get_stale k
              (cache_manager (run_calls tzs calls (initial_world settings))) = None.
Proof.
  intros Hcalls k. unfold Cache.get_stale.
  assert (H : forall w, stale_cache (cache_manager (run_calls tzs calls w)) =
                        stale_cache (cache_manager w)).
  { unfold run_calls. induction Hcalls as [|c calls Hc _ IH]; intros w; [done|].
    cbn [fold_left]. rewrite IH. unfold do_call.
    by apply get_forecast_keeps_stale_cache. }
  rewrite H. cbn [initial_world cache_manager Cache.new stale_cache].
  apply lookup_empty.
Qed.

End sequential_calls.

Section sequential_calls_witness.
Import Models WeatherService Examples.

Lemma calls_never_fill_stale_table_witness :
  Forall clock_forward two_calls /\
  Cache.get_stale belgrade_key
    (cache_manager (run_calls belgrade_tz two_calls (initial_world default_settings)))
  = None.
Proof.
  assert (Hcalls : Forall clock_forward two_calls).
  { unfold two_calls. repeat constructor; by vm_compute. }
  split; [exact Hcalls|].
  exact (calls_never_fill_stale_table belgrade_tz default_settings two_calls Hcalls belgrade_key).
Defined.

End sequential_calls_witness.

(* ================================================================== *)
(** ** Every schedule can be brought to its end *)
(* ================================================================== *)

Section completion.
Context (tzs : TimezoneService).
Import Models WeatherService EventLoop.

Lemma run_app evs1 evs2 s :
  run tzs (evs1 ++ evs2) s =
  match run tzs evs1 s with
  | Some s1 => run tzs evs2 s1
  | None => None
  end.
Proof.
  revert s. induction evs1 as [|ev evs IH]; intros s; cbn [app run]; [done|].
  destruct (step tzs ev s); [apply IH | done].
Qed.

(** While a task is not over, the loop has something to run: a task that
    waits for a taken lock waits for a task whose request is in flight,
    and the response to that request can be delivered. *)
Lemma held_by_fetching_progress env s :
  held_by_fetching s -> all_done s = false ->
  exists ev s', event_env ev = env /\ step tzs ev s = Some s'.
Proof.
  intros Hheld Hnot.
  destruct (not_all_done s Hnot) as (i & [r st] & Hi & Hnd).
  destruct st as [| | |res]; [| | |done].
  - destruct (run_task_enabled tzs i r Start env s Hi) as [s' Hs']; [by left|].
    by exists (Run i env), s'.
  - destruct (decide (lock_key_of r ∈ held s)) as [Hin|Hnin].
    + destruct (Hheld _ Hin) as (j & [rj stj] & Hj & Hf & _). cbn in Hf. subst stj.
      destruct (respond_enabled tzs j rj env s Hj) as [s' Hs'].
      by exists (Respond j env), s'.
    + exists (Run i env). cbn [step]. rewrite Hi. rewrite decide_False by done.
      by eexists.
  - destruct (respond_enabled tzs i r env s Hi) as [s' Hs'].
    by exists (Respond i env), s'.
Qed.

Lemma held_by_fetching_complete env n s :
  (measure s <= n)%nat -> held_by_fetching s ->
  exists evs s',
    Forall (fun ev => event_env ev = env) evs /\
    run tzs evs s = Some s' /\ all_done s' = true.
Proof.
  revert s. induction n as [|n IH]; intros s Hm Hheld.
  - destruct (all_done s) eqn:Hd; [by exists [], s|].
    destruct (held_by_fetching_progress env s Hheld Hd) as (ev & s1 & _ & Hstep).
    apply step_measure in Hstep. lia.
  - destruct (all_done s) eqn:Hd; [by exists [], s|].
    destruct (held_by_fetching_progress env s Hheld Hd) as (ev & s1 & Hev & Hstep).
    destruct (IH s1) as (evs & s' & Hevs & Hrun & Hdone).
    { apply step_measure in Hstep. lia. }
    { by apply (step_held_by_fetching tzs ev s). }
    exists (ev :: evs), s'. split; [by constructor|]. split; [|done].
    cbn [run]. by rewrite Hstep.
Qed.

(** Property X8.
    No schedule leads into a deadlock: whatever has run so far, and
    whatever the upstream does from then on (answer or fail, as [env]
    says), the loop can go on until every request has returned or
    raised. *)
Theorem every_schedule_can_be_completed w reqs evs s env :
  run tzs evs (initial_system w reqs) = Some s ->
  exists evs' s',
    Forall (fun ev => event_env ev = env) evs' /\
    run tzs (evs ++ evs') (initial_system w reqs) = Some s' /\
    all_done s' = true.
Proof.
  intros Hrun.
  pose proof (run_held_by_fetching tzs evs _ s Hrun (held_by_fetching_initial w reqs))
    as Hheld.
  destruct (held_by_fetching_complete env (measure s) s) as (evs' & s' & Hevs & Hrun' & Hd);
    [lia | done |].
  exists evs', s'. split; [done|]. split; [|done].
  by rewrite run_app, Hrun.
Qed.

End completion.

Section completion_witness.
Import Models WeatherService EventLoop Examples.

(** Three requests for Belgrade, the first in flight and the others
    waiting, with yr.no going down: the loop can still finish them. *)
Lemma every_schedule_can_be_completed_witness :
  exists evs' s',
    Forall (fun ev => event_env ev = env_down 3) evs' /\
    run belgrade_tz
      ([Run 0 (env_ok 0); Run 1 (env_ok 1); Run 2 (env_ok 2)] ++ evs')
      (initial_system world0
         [belgrade_request CELSIUS; belgrade_request FAHRENHEIT; belgrade_request CELSIUS])
    = Some s' /\
    all_done s' = true.
Proof.
  destruct three_requests_first_in_flight as (s & Hs & _).
  exact (every_schedule_can_be_completed belgrade_tz _ _ _ s (env_down 3) Hs).
Defined.

End completion_witness.

(* ================================================================== *)
(** ** [sort_forecasts] is the stable sort by date *)
(* ================================================================== *)

Section stable_sort.
Import Models.

#[local] Abbreviation on_date d :=
  (List.filter (fun r : TemperatureReading => reading_date r =? d)).

Lemma ascending_cons x l :
  ascending (x :: l) <-> Forall (fun y => reading_date x <= reading_date y) l /\ ascending l.
Proof.
  unfold ascending, dates. cbn [List.map]. split.
  - intros H. apply StronglySorted_inv in H as [Hs Hall]. split; [|done].
    rewrite Forall_forall in Hall. rewrite Forall_forall. intros y Hy. apply Hall.
    apply list_elem_of_fmap. by exists y.
  - intros [Hall Hs]. constructor; [done|].
    rewrite Forall_forall in Hall. rewrite Forall_forall. intros d Hd.
    apply list_elem_of_fmap in Hd as (y & -> & Hy). by apply Hall.
Qed.

Lemma on_date_later d x l :
  Forall (fun y => reading_date x <= reading_date y) l -> d < reading_date x ->
  on_date d l = [].
Proof.
  intros Hall Hlt. induction Hall as [|y l Hy _ IH]; [done|].
  cbn [List.filter]. destruct (Z.eqb_spec (reading_date y) d); [lia | done].
Qed.

Lemma insert_by_date_on_date d x l :
  ascending l ->
  on_date d (insert_by_date x l) =
  on_date d l ++ (if reading_date x =? d then [x] else []).
Proof.
  induction l as [|y l IH]; intros Hs.
  - cbn. by destruct (reading_date x =? d).
  - apply ascending_cons in Hs as [Hall Hs]. cbn [insert_by_date].
    destruct (Z.ltb_spec (reading_date x) (reading_date y)) as [Hlt|Hge].
    + cbn [List.filter]. destruct (Z.eqb_spec (reading_date x) d) as [Hx|Hx].
      * destruct (Z.eqb_spec (reading_date y) d); [lia|].
        rewrite (on_date_later d y l); [done | done | lia].
      * by rewrite app_nil_r.
    + cbn [List.filter]. rewrite (IH Hs).
      by destruct (reading_date y =? d).
Qed.

Lemma sort_by_date_acc_ascending l acc :
  ascending acc -> ascending (fold_left (fun acc x => insert_by_date x acc) l acc).
Proof.
  revert acc. induction l as [|x l IH]; intros acc Hs; [done|].
  cbn [fold_left]. apply IH. by apply insert_by_date_ascending.
Qed.

Lemma sort_by_date_acc_on_date d l acc :
  ascending acc ->
  on_date d (fold_left (fun acc x => insert_by_date x acc) l acc) =
  on_date d acc ++ on_date d l.
Proof.
  revert acc. induction l as [|x l IH]; intros acc Hs.
  - by rewrite app_nil_r.
  - cbn [fold_left]. rewrite IH by (by apply insert_by_date_ascending).
    rewrite insert_by_date_on_date by done. cbn [List.filter].
    rewrite <- app_assoc. by destruct (reading_date x =? d).
Qed.

Lemma insert_by_date_last x l :
  ascending (l ++ [x]) -> insert_by_date x l = l ++ [x].
Proof.
  induction l as [|y l IH]; intros Hs; [done|].
  cbn [app] in Hs. apply ascending_cons in Hs as [Hall Hs].
  cbn [insert_by_date app].
  destruct (Z.ltb_spec (reading_date x) (reading_date y)) as [Hlt|Hge].
  - rewrite Forall_forall in Hall. specialize (Hall x). 
    assert (reading_date y <= reading_date x) by (apply Hall; set_solver). lia.
  - by rewrite IH.
Qed.

Lemma ascending_app_l l1 l2 : ascending (l1 ++ l2) -> ascending l1.
Proof.
  induction l1 as [|x l1 IH]; intros Hs; [constructor|].
  cbn [app] in Hs. apply ascending_cons in Hs as [Hall Hs].
  apply ascending_cons. split; [|by apply IH].
  rewrite Forall_forall in Hall. rewrite Forall_forall.
  intros y Hy. apply Hall. set_solver.
Qed.

Lemma sort_by_date_acc_sorted l acc :
  ascending (acc ++ l) ->
  fold_left (fun acc x => insert_by_date x acc) l acc = acc ++ l.
Proof.
  revert acc. induction l as [|x l IH]; intros acc Hs; [by rewrite app_nil_r|].
  cbn [fold_left].
  assert (Hs' : ascending ((acc ++ [x]) ++ l)) by (by rewrite <- app_assoc).
  rewrite insert_by_date_last by (by apply ascending_app_l in Hs').
  rewrite IH by done. by rewrite <- app_assoc.
Qed.

Lemma sort_by_date_sorted l : ascending l -> sort_by_date l = l.
Proof. intros Hs. unfold sort_by_date. by rewrite sort_by_date_acc_sorted. Qed.

Lemma strictly_ascending_ascending l : strictly_ascending l -> ascending l.
Proof.
  unfold strictly_ascending, ascending. induction 1 as [|d ds Hs IH Hall]; constructor.
  - done.
  - eapply Forall_impl; [exact Hall|]. intros; simpl in *; lia.
Qed.

(** Property X9.
    [sorted(v, key=lambda x: x.date)]: the result holds the readings given,
    in ascending order of date, those of one date in the order they were
    given in; a list that is in order is returned as it is. *)
Theorem sort_forecasts_is_stable_sort (v : list TemperatureReading) :
  Permutation (sort_forecasts v) v /\
  ascending (sort_forecasts v) /\
  (forall d, on_date d (sort_forecasts v) = on_date d v) /\
  (ascending v -> sort_forecasts v = v).
Proof.
  unfold sort_forecasts. split; [apply sort_by_date_perm|].
  split; [apply sort_by_date_ascending|]. split.
  - intros d. unfold sort_by_date. rewrite sort_by_date_acc_on_date; [done|constructor].
  - apply sort_by_date_sorted.
Qed.

End stable_sort.

(* ================================================================== *)
(** ** Properties of every response object *)
(* ================================================================== *)

Section heap_invariants.
Import Models WeatherService.
Context (Q : ForecastResponse -> Prop).
Context (Q_cached : forall r, Q r -> Q (with_cached true r)).
Context (Q_cached_at : forall v r, Q r -> Q (with_cached_at v r)).
Context (Q_convert : forall u r,
  Q r -> Q (with_forecasts (List.map (convert_reading u) (forecasts r)) r)).
Context (Q_filter : forall n r,
  Q r -> Q (with_days_returned (Z.of_nat (length (slice_to n (forecasts r))))
             (with_forecasts (slice_to n (forecasts r)) r))).
Context (Q_new : forall loc_ fs gen,
  Q (new_ForecastResponse loc_ fs (Z.of_nat (length fs)) false gen)).

Lemma alter_all f l (h : gmap loc ForecastResponse) :
  (forall r, Q r -> Q (f r)) ->
  (forall x r, h !! x = Some r -> Q r) ->
  forall x r, alter f l h !! x = Some r -> Q r.
Proof.
  intros Hf Hh x r. destruct (decide (x = l)) as [->|Hne].
  - rewrite lookup_alter_eq. destruct (h !! l) as [r0|] eqn:E; [|done].
    intros [= <-]. apply Hf. by eapply Hh.
  - rewrite lookup_alter_ne by done. apply Hh.
Qed.

Lemma shape_all u days l (h : gmap loc ForecastResponse) :
  (forall x r, h !! x = Some r -> Q r) ->
  forall x r, filter_if_requested days l (convert_if_needed u l h) !! x = Some r -> Q r.
Proof.
  intros Hh. unfold filter_if_requested, convert_if_needed, _filter_days, _convert_units.
  assert (Hc : forall x r,
    (if bool_decide (u <> CELSIUS)
     then alter (fun r => with_forecasts (List.map (convert_reading u) (forecasts r)) r) l h
     else h) !! x = Some r -> Q r).
  { case_bool_decide; [|done]. apply alter_all; [apply Q_convert | done]. }
  destruct days as [n|]; [|done]. destruct (n =? 0); [done|].
  apply alter_all; [|done]. intros r. apply (Q_filter n).
Qed.

Lemma serve_cached_all e u days w :
  heap_all Q w -> heap_all Q (fst (serve_cached e u days w)).
Proof.
  intros Hw. unfold heap_all, serve_cached. cbn [fst with_heap heap].
  apply shape_all. apply alter_all; [apply Q_cached_at|].
  apply alter_all; [apply Q_cached|]. exact Hw.
Qed.

Lemma serve_stale_all e u days w :
  (forall r, Q r -> Q (with_stale true r)) ->
  heap_all Q w -> heap_all Q (fst (serve_stale e u days w)).
Proof.
  intros Hst Hw. unfold heap_all, serve_stale. cbn [fst with_heap heap].
  apply shape_all. apply alter_all; [apply Q_cached_at|].
  apply alter_all; [apply Hst|]. apply alter_all; [apply Q_cached|]. exact Hw.
Qed.

Lemma probe_all env lat lon days u w :
  heap_all Q w -> heap_all Q (fst (probe env lat lon days u w)).
Proof.
  intros Hw. unfold probe. destruct (Cache.get _ _ _) as [[e|] cm]; [|done].
  pose proof (serve_cached_all e u days (with_cache_manager cm w) Hw) as H.
  by destruct (serve_cached e u days (with_cache_manager cm w)).
Qed.

Lemma reprobe_all env lat lon days u w :
  heap_all Q w -> heap_all Q (fst (reprobe env lat lon days u w)).
Proof.
  intros Hw. unfold reprobe. destruct (Cache.get _ _ _) as [[e|] cm]; [|done].
  pose proof (serve_cached_all e u days (with_cache_manager cm w) Hw) as H.
  by destruct (serve_cached e u days (with_cache_manager cm w)).
Qed.

Lemma after_fetch_all tzs env outcome lat lon nm days u ov w :
  (forall r, Q r -> Q (with_stale true r)) \/ stale_cache (cache_manager w) = ∅ ->
  heap_all Q w -> heap_all Q (fst (after_fetch tzs env outcome lat lon nm days u ov w)).
Proof.
  intros Hst Hw. unfold after_fetch. set (key := Cache.generate_key _ _).
  destruct outcome as [ts|[msg| | |msg]]; try done.
  - destruct (_process_timeseries _ _ _ _ _) as [readings|e]; [|done].
    destruct (new_Location _ _ nm) as [location_|e]; [|done].
    cbn [alloc cache_manager].
    assert (Hnew : forall x r,
      <[next_loc w :=
          new_ForecastResponse location_ readings (Z.of_nat (length readings))
            false (utcnow_response env)]> (heap w) !! x = Some r -> Q r).
    { intros x r Hx. apply lookup_insert_Some in Hx as [[_ <-]|[_ Hx]];
        [apply Q_new | by eapply Hw]. }
    destruct (Cache.set _ _ key (next_loc w) (cache_manager w)) as [cm [[]|e]];
      cbn [fst with_cache_manager with_heap heap]; [|exact Hnew].
    unfold heap_all. cbn [heap]. by apply shape_all.
  - unfold Cache.get_stale. destruct Hst as [Hst|Hempty].
    + destruct (stale_cache _ !! key) as [se|]; [|done].
      pose proof (serve_stale_all se u days w Hst Hw) as H.
      by destruct (serve_stale se u days w).
    + by rewrite Hempty, lookup_empty.
Qed.

Lemma probe_stale_cache env lat lon days u w :
  stale_cache (cache_manager (fst (probe env lat lon days u w))) =
  stale_cache (cache_manager w).
Proof.
  unfold probe. destruct (Cache.get _ _ _) as [[e|] cm] eqn:Hget;
    apply get_holds in Hget as [Hst _]; done.
Qed.

Lemma reprobe_stale_cache env lat lon days u w :
  stale_cache (cache_manager (fst (reprobe env lat lon days u w))) =
  stale_cache (cache_manager w).
Proof.
  unfold reprobe. destruct (Cache.get _ _ _) as [[e|] cm] eqn:Hget;
    apply get_holds in Hget as [Hst _]; done.
Qed.

Lemma get_forecast_all tzs env lat lon nm days u ov w :
  (forall r, Q r -> Q (with_stale true r)) \/ stale_cache (cache_manager w) = ∅ ->
  heap_all Q w -> heap_all Q (fst (get_forecast tzs env lat lon nm days u ov w)).
Proof.
  intros Hst Hw. unfold get_forecast.
  pose proof (probe_all env lat lon days u w Hw) as H1.
  pose proof (probe_stale_cache env lat lon days u w) as S1.
  destruct (probe env lat lon days u w) as [w1 [l1|]]; cbn [fst] in *; [done|].
  pose proof (reprobe_all env lat lon days u w1 H1) as H2.
  pose proof (reprobe_stale_cache env lat lon days u w1) as S2.
  destruct (reprobe env lat lon days u w1) as [w2 [l2|]]; cbn [fst] in *; [done|].
  apply after_fetch_all; [|done].
  destruct Hst as [Hst|Hempty]; [by left | right; congruence].
Qed.

End heap_invariants.

Section days_returned_invariant.
Import Models WeatherService Examples.

Lemma counts_forecasts_new loc_ fs gen :
  counts_forecasts (new_ForecastResponse loc_ fs (Z.of_nat (length fs)) false gen).
Proof.
  unfold counts_forecasts, new_ForecastResponse, validate_days_count, sort_forecasts.
  cbn [forecasts]. destruct (sort_by_date fs) as [|x l] eqn:Hs; [|done].
  cbn. by rewrite <- (sort_by_date_length fs), Hs.
Qed.

Lemma counts_forecasts_get_forecast tzs env lat lon nm days u ov w :
  heap_all counts_forecasts w ->
  heap_all counts_forecasts (fst (get_forecast tzs env lat lon nm days u ov w)).
Proof.
  apply get_forecast_all; unfold counts_forecasts; try done.
  - intros unit_ r Hr. cbn. by rewrite length_map.
  - intros. apply counts_forecasts_new.
  - by left.
Qed.

Lemma reachable_counts_forecasts settings tzs w :
  reachable settings tzs w -> heap_all counts_forecasts w.
Proof.
  induction 1 as [|w env lat lon nm days unit_ ov Hreach IH].
  - intros l r H. cbn in H. by rewrite lookup_empty in H.
  - by apply counts_forecasts_get_forecast.
Qed.

(** Property X10.
    In every response object, whether it was just built, is served from
    the cache or the stale table, was converted or cut to a number of
    days: [days_returned] is the number of its forecasts. *)
Theorem days_returned_counts_forecasts settings tzs w l r :
  reachable settings tzs w -> heap w !! l = Some r ->
  days_returned r = Z.of_nat (length (forecasts r)).
Proof. intros Hreach Hl. by apply (reachable_counts_forecasts settings tzs w Hreach l r). Qed.

Lemma world_served_reachable : reachable default_settings belgrade_tz world_served.
Proof. unfold world_served, world0. apply reachable_call, reachable_initial. Qed.

Lemma days_returned_counts_forecasts_witness :
  exists r, heap world_served !! 0%nat = Some r /\
            days_returned r = Z.of_nat (length (forecasts r)).
Proof.
  assert (Hsome : is_Some (heap world_served !! 0%nat))
    by (vm_compute; eexists; reflexivity).
  destruct Hsome as [r Hr]. exists r. split; [exact Hr|].
  exact (days_returned_counts_forecasts default_settings belgrade_tz world_served 0%nat r
           world_served_reachable Hr).
Defined.

End days_returned_invariant.

(* ================================================================== *)
(** ** The stale fallback under calls of the service alone *)
(* ================================================================== *)

Section stale_fallback.
Context (tzs : TimezoneService).
Import Models WeatherService.

Lemma run_calls_no_stale settings calls :
  Forall clock_forward calls ->
  let w := run_calls tzs calls (initial_world settings) in
  stale_cache (cache_manager w) = ∅ /\ heap_all (fun r => stale r = false) w.
Proof.
  intros Hcalls. cbv zeta. unfold run_calls.
  assert (H : forall w,
    stale_cache (cache_manager w) = ∅ /\ heap_all (fun r => stale r = false) w ->
    stale_cache (cache_manager (fold_left (fun w c => fst (do_call tzs c w)) calls w)) = ∅ /\
    heap_all (fun r => stale r = false) (fold_left (fun w c => fst (do_call tzs c w)) calls w)).
  { induction Hcalls as [|c calls Hc _ IH]; intros w Hw; [done|].
    cbn [fold_left]. apply IH. destruct Hw as [Hst Hh]. unfold do_call. split.
    - by rewrite get_forecast_keeps_stale_cache.
    - apply get_forecast_all; [done | done | done | done | | by right | done].
      intros loc_ fs gen. unfold new_ForecastResponse, validate_days_count.
      cbn [forecasts]. by destruct (sort_forecasts fs). }
  apply H. split; [done|]. intros l r Hl. cbn in Hl. by rewrite lookup_empty in Hl.
Qed.

(** Property X11.
    After any calls of [get_forecast] one after the other, the stale
    fallback has nothing to serve: no response object is flagged [stale],
    and a call that misses the cache while the upstream request fails
    with an HTTP error raises that error. *)
Theorem stale_fallback_never_taken settings calls env lat lon nm days unit_ ov msg :
  Forall clock_forward calls ->
  let w := run_calls tzs calls (initial_world settings) in
  let key := Cache.generate_key (PyFloat.truncate4 lat) (PyFloat.truncate4 lon) in
  (forall l r, heap w !! l = Some r -> stale r = false) /\
  (TTLCache.contains (clock_probe env) key (cache (cache_manager w)) = false ->
   TTLCache.contains (clock_reprobe env) key (cache (cache_manager w)) = false ->
   fetch_forecast env (PyFloat.truncate4 lat) (PyFloat.truncate4 lon) =
     Raise (HTTPError msg) ->
   snd (get_forecast tzs env lat lon nm days unit_ ov w) =
     Raise (HTTPError ("yr.no API unavailable: " +:+ msg))).
Proof.
  intros Hcalls w key.
  destruct (run_calls_no_stale settings calls Hcalls) as [Hst Hh]. fold w in Hst, Hh.
  split; [exact Hh|].
  intros Hmiss1 Hmiss2 Hfetch. unfold get_forecast.
  destruct (probe_miss env lat lon days unit_ w Hmiss1) as (w1 & -> & Hh1 & Hc1 & Hs1).
  fold key in Hc1. rewrite <- Hc1 in Hmiss2.
  destruct (reprobe_miss env lat lon days unit_ w1 Hmiss2) as (w2 & -> & Hh2 & Hc2 & Hs2).
  rewrite Hfetch. unfold after_fetch, Cache.get_stale.
  by rewrite Hs2, Hs1, Hst, lookup_empty.
Qed.

End stale_fallback.

Section stale_fallback_witness.
Import Models WeatherService Examples.

(** Two calls for Belgrade while yr.no answers, then a third, after the
    entry has expired, while yr.no is down. *)
Lemma stale_fallback_never_taken_witness :
  let w := run_calls belgrade_tz two_calls (initial_world default_settings) in
  (forall l r, heap w !! l = Some r -> stale r = false) /\
  snd (get_forecast belgrade_tz (env_down (3 * after_expiry)) lat_raw lon_raw None None
         CELSIUS None w) =
  Raise (HTTPError "yr.no API unavailable: connect timeout").
Proof.
  assert (Hcalls : Forall clock_forward two_calls).
  { unfold two_calls. repeat constructor; by vm_compute. }
  pose proof (stale_fallback_never_taken belgrade_tz default_settings two_calls
                (env_down (3 * after_expiry)) lat_raw lon_raw None None CELSIUS None
                "connect timeout" Hcalls) as H.
  cbv zeta in H. destruct H as [Hflag Hraise].
  split; [exact Hflag|].
  apply Hraise; vm_compute; reflexivity.
Defined.

End stale_fallback_witness.

(* ================================================================== *)
(** ** The unit and the day limit of a response *)
(* ================================================================== *)

Section response_shape.
Import Models WeatherService.

Lemma slice_to_length_le {A} n (l : list A) :
  1 <= n -> Z.of_nat (length (slice_to n l)) <= n.
Proof.
  intros Hn. unfold slice_to. destruct (Z.leb_spec 0 n); [|lia].
  rewrite length_take. lia.
Qed.

Lemma shaped_length_le u n fs : 1 <= n -> Z.of_nat (length (shaped u (Some n) fs)) <= n.
Proof.
  intros Hn. unfold shaped. destruct (Z.eqb_spec n 0); [lia|].
  by apply slice_to_length_le.
Qed.

Lemma shaped_units u days fs :
  u <> CELSIUS -> Forall (fun x => unit x = u) (shaped u days fs).
Proof.
  intros Hu. unfold shaped. rewrite bool_decide_eq_true_2 by done.
  assert (Hc : Forall (fun x => unit x = u) (List.map (convert_reading u) fs)).
  { rewrite Forall_forall. intros x Hx. by apply list_elem_of_fmap in Hx as (y & -> & _). }
  destruct days as [n|]; [|done]. destruct (n =? 0); [done|].
  unfold slice_to. destruct (0 <=? n); by apply Forall_take.
Qed.

Lemma cache_lookup_shaped now k unit_ days w :
  world_ok w ->
  let res :=
    match Cache.get now k (cache_manager w) with
    | (Some cached_entry, cm) =>
        let '(w', response) :=
          serve_cached cached_entry unit_ days (with_cache_manager cm w) in
        (w', Some response)
    | (None, cm) => (with_cache_manager cm w, None)
    end in
  forall l, snd res = Some l ->
    exists r fs0, heap (fst res) !! l = Some r /\ forecasts r = shaped unit_ days fs0.
Proof.
  intros [_ Hrefs] res. subst res.
  destruct (Cache.get now k (cache_manager w)) as [[e|] cm] eqn:Hget; [|done].
  apply get_holds in Hget as (_ & _ & Ho).
  destruct (Ho e eq_refl) as (e0 & He0 & Hd).
  destruct (Hrefs e0 He0) as [r Hr]. rewrite <- Hd in Hr.
  destruct (serve_cached_spec e unit_ days (with_cache_manager cm w))
    as (Hres & _ & _ & _ & Hobj).
  destruct (serve_cached e unit_ days (with_cache_manager cm w)) as [w' l'] eqn:Hsv.
  cbn [fst snd] in *. subst l'. intros l [= <-].
  destruct (Hobj r Hr) as (r' & Hr' & Hf & _). by exists r', (forecasts r).
Qed.

Lemma after_fetch_shaped tzs env outcome lat lon nm days unit_ ov w :
  world_ok w ->
  let res := after_fetch tzs env outcome lat lon nm days unit_ ov w in
  forall l, snd res = Ok l ->
    exists r fs0, heap (fst res) !! l = Some r /\ forecasts r = shaped unit_ days fs0.
Proof.
  intros [_ Hrefs] res. subst res. unfold after_fetch.
  set (key := Cache.generate_key _ _).
  destruct outcome as [ts|[msg| | |msg]]; try done.
  - destruct (_process_timeseries _ _ _ _ _) as [readings|e]; [|done].
    destruct (new_Location _ _ nm) as [location_|e]; [|done].
    cbn [alloc cache_manager].
    set (r0 := new_ForecastResponse _ _ _ _ _).
    destruct (Cache.set _ _ key (next_loc w) (cache_manager w)) as [cm [[]|e]];
      cbn [fst snd with_cache_manager with_heap heap]; [|done].
    intros l [= <-].
    destruct (shape_heap_lookup unit_ days (next_loc w) (<[next_loc w := r0]> (heap w)) r0)
      as (r' & Hr' & Hf & _); [apply lookup_insert_eq|].
    by exists r', (forecasts r0).
  - destruct (Cache.get_stale key (cache_manager w)) as [se|] eqn:Hst; [|done].
    destruct (Hrefs se) as [r Hr]; [right; by exists key|].
    destruct (serve_stale_spec se unit_ days w) as (Hres & _ & _ & _ & Hobj).
    destruct (serve_stale se unit_ days w) as [w' l'] eqn:Hsv.
    cbn [fst snd] in *. subst l'. intros l [= <-].
    destruct (Hobj r Hr) as (r' & Hr' & Hf & _). by exists r', (forecasts r).
Qed.

Lemma get_forecast_shaped tzs env lat lon nm days unit_ ov w w' l :
  world_ok w ->
  get_forecast tzs env lat lon nm days unit_ ov w = (w', Ok l) ->
  exists r fs0, heap w' !! l = Some r /\ forecasts r = shaped unit_ days fs0.
Proof.
  intros Hok. unfold get_forecast.
  pose proof (cache_lookup_shaped (clock_probe env)
    (Cache.generate_key (PyFloat.truncate4 lat) (PyFloat.truncate4 lon)) unit_ days w Hok)
    as H1.
  destruct (world_ok_probe env lat lon days unit_ w Hok) as [Hok1 _].
  unfold probe in *.
  destruct (Cache.get (clock_probe env) _ (cache_manager w)) as [[e1|] cm1].
  { cbv zeta in H1.
    destruct (serve_cached e1 unit_ days (with_cache_manager cm1 w)) as [w1 l1].
    cbn [fst snd] in *. intros [= <- <-]. by apply H1. }
  clear H1. cbn [fst] in Hok1.
  set (w1 := with_fetch_locks _ _) in *.
  pose proof (cache_lookup_shaped (clock_reprobe env)
    (Cache.generate_key (PyFloat.truncate4 lat) (PyFloat.truncate4 lon)) unit_ days w1 Hok1)
    as H2.
  destruct (world_ok_reprobe env lat lon days unit_ w1 Hok1) as [Hok2 _].
  unfold reprobe in *.
  destruct (Cache.get (clock_reprobe env) _ (cache_manager w1)) as [[e2|] cm2].
  { cbv zeta in H2.
    destruct (serve_cached e2 unit_ days (with_cache_manager cm2 w1)) as [w2 l2].
    cbn [fst snd] in *. intros [= <- <-]. by apply H2. }
  clear H2. cbn [fst] in Hok2. intros Hcall.
  pose proof (after_fetch_shaped tzs env
    (fetch_forecast env (PyFloat.truncate4 lat) (PyFloat.truncate4 lon))
    lat lon nm days unit_ ov _ Hok2) as H3.
  cbv zeta in H3. rewrite Hcall in H3. by apply H3.
Qed.

(** Property X12.
    What the two closing steps guarantee for every response, fresh, cached
    or stale: a request for [days >= 1] days gets at most that many
    forecasts, and [days_returned] says how many; a request in a unit
    other than Celsius gets every reading labelled with that unit. *)
Theorem response_within_day_limit_and_in_unit
    settings tzs w env lat lon nm days unit_ ov w' l :
  reachable settings tzs w ->
  get_forecast tzs env lat lon nm days unit_ ov w = (w', Ok l) ->
  exists r, heap w' !! l = Some r /\
    (forall n, days = Some n -> 1 <= n ->
       Z.of_nat (length (forecasts r)) <= n /\ days_returned r <= n) /\
    (unit_ <> CELSIUS -> Forall (fun x => unit x = unit_) (forecasts r)).
Proof.
  intros Hreach Hcall.
  destruct (get_forecast_shaped tzs env lat lon nm days unit_ ov w w' l
              (reachable_world_ok settings tzs w Hreach) Hcall) as (r & fs0 & Hr & Hf).
  exists r. split; [exact Hr|]. split.
  - intros n -> Hn.
    assert (Hc : counts_forecasts r).
    { apply (reachable_counts_forecasts settings tzs w' ) with l; [|done].
      replace w' with (fst (get_forecast tzs env lat lon nm (Some n) unit_ ov w))
        by (by rewrite Hcall).
      by apply reachable_call. }
    unfold counts_forecasts in Hc. rewrite Hc, Hf.
    split; by apply shaped_length_le.
  - intros Hu. rewrite Hf. by apply shaped_units.
Qed.

End response_shape.

Section response_shape_witness.
Import Models WeatherService Examples.

(** A request for one day in Fahrenheit, served from the cache. *)
Lemma response_within_day_limit_and_in_unit_witness :
  exists w' l r,
    get_forecast belgrade_tz (env_ok 1) lat_raw lon_raw None (Some 1) FAHRENHEIT None
      world_served = (w', Ok l) /\
    heap w' !! l = Some r /\
    Z.of_nat (length (forecasts r)) <= 1 /\ days_returned r <= 1 /\
    Forall (fun x => unit x = FAHRENHEIT) (forecasts r).
Proof.
  set (call := get_forecast belgrade_tz (env_ok 1) lat_raw lon_raw None (Some 1)
                 FAHRENHEIT None world_served).
  assert (Hres : snd call = Ok 0%nat) by (vm_compute; reflexivity).
  destruct call as [w' res] eqn:Hcall. cbn [snd] in Hres. subst res.
  destruct (response_within_day_limit_and_in_unit default_settings belgrade_tz
              world_served (env_ok 1) lat_raw lon_raw None (Some 1) FAHRENHEIT None w' 0%nat
              world_served_reachable Hcall) as (r & Hr & Hdays & Hunit).
  exists w', 0%nat, r. split; [done|]. split; [exact Hr|].
  destruct (Hdays 1 eq_refl) as [H1 H2]; [lia|].
  split; [exact H1|]. split; [exact H2|]. by apply Hunit.
Defined.

End response_shape_witness.

(* ================================================================== *)
(** ** What a call returns: a fresh forecast, a cached one *)
(* ================================================================== *)

Section fresh_and_cached.
Context (tzs : TimezoneService).
Import Models WeatherService.

Lemma shape_heap_lookup_days u days l h r r' :
  h !! l = Some r -> counts_forecasts r ->
  filter_if_requested days l (convert_if_needed u l h) !! l = Some r' ->
  counts_forecasts r'.
Proof.
  intros Hl Hc. unfold filter_if_requested, convert_if_needed, _filter_days,
    _convert_units, counts_forecasts in *.
  case_bool_decide; destruct days as [n|]; try destruct (n =? 0);
    rewrite ?lookup_alter_eq, ?Hl; simpl; intros [= <-]; simpl;
    rewrite ?length_map; done.
Qed.

Lemma new_ForecastResponse_fields loc_ fs days c gen :
  let r := new_ForecastResponse loc_ fs days c gen in
  location r = loc_ /\ cached r = c /\ stale r = false /\ cached_at r = None /\
  generated_at r = gen.
Proof.
  cbv zeta. unfold new_ForecastResponse, validate_days_count. cbn [forecasts].
  by destruct (sort_forecasts fs).
Qed.

Lemma get_forecast_fresh env lat lon nm days unit_ ov w timeseries :
  let lat' := PyFloat.truncate4 lat in
  let lon' := PyFloat.truncate4 lon in
  let key := Cache.generate_key lat' lon' in
  TTLCache.contains (clock_probe env) key (cache (cache_manager w)) = false ->
  TTLCache.contains (clock_reprobe env) key (cache (cache_manager w)) = false ->
  fetch_forecast env lat' lon' = Ok timeseries ->
  valid_coordinates lat lon ->
  1 <= TTLCache.maxsize (cache (cache_manager w)) ->
  exists w' r readings,
    get_forecast tzs env lat lon nm days unit_ ov w = (w', Ok (next_loc w)) /\
    heap w' !! next_loc w = Some r /\
    (forall x, x <> next_loc w -> heap w' !! x = heap w !! x) /\
    location r = {| latitude := PyFloat.truncate4 lat';
                    longitude := PyFloat.truncate4 lon'; name := nm |} /\
    _process_timeseries tzs timeseries lat' lon' ov = Ok readings /\
    forecasts r = shaped unit_ days readings /\
    days_returned r = Z.of_nat (length (forecasts r)) /\
    cached r = false /\ stale r = false /\ cached_at r = None /\
    generated_at r = utcnow_response env /\
    forall later,
      fst (Cache.get later key (cache_manager w')) =
      if later <? clock_set env + TTLCache.ttl (cache (cache_manager w)) * US_PER_SECOND
      then Some {| data := next_loc w; created_at := utcnow_entry env; hit_count := 1 |}
      else None.
Proof.
  intros lat' lon' key Hmiss1 Hmiss2 Hfetch Hvalid Hmax.
  unfold get_forecast, probe. fold lat' lon' key.
  rewrite (get_miss _ _ _ Hmiss1).
  unfold reprobe. fold lat' lon' key.
  cbn [with_fetch_locks with_cache_manager cache_manager].
  rewrite get_miss by done.
  rewrite Hfetch. unfold after_fetch. fold lat' lon' key.
  unfold valid_coordinates in Hvalid. fold lat' lon' in Hvalid.
  destruct (process_timeseries_in_range tzs lat' lon' ov timeseries Hvalid)
    as (tz & _ & Hreadings).
  rewrite Hreadings.
  unfold new_Location. rewrite Hvalid.
  cbn [alloc with_fetch_locks with_cache_manager with_heap cache_manager heap next_loc
       fetch_locks cache stale_cache stats_hits stats_misses].
  set (readings := sampled tz timeseries) in *.
  set (r0 := new_ForecastResponse _ readings _ _ _).
  set (cm2 := {| cache := cache (cache_manager w);
                 stale_cache := stale_cache (cache_manager w);
                 stats_hits := stats_hits (cache_manager w);
                 stats_misses := stats_misses (cache_manager w) + 1 + 1 |}).
  destruct (set_stores (clock_set env) (utcnow_entry env) key (next_loc w) cm2 Hmax)
    as (cm3 & l & -> & Hl & Hv & He & _).
  cbn [with_cache_manager with_heap heap cache_manager next_loc].
  set (h1 := <[next_loc w := r0]> (heap w)).
  assert (Hr0 : h1 !! next_loc w = Some r0) by apply lookup_insert_eq.
  destruct (shape_heap_lookup unit_ days (next_loc w) h1 r0 Hr0)
    as (r & Hr & Hf & Hloc & Hc & Hs & Hca & Hg).
  destruct (new_ForecastResponse_fields
              {| latitude := truncate_coordinates lat';
                 longitude := truncate_coordinates lon'; name := nm |}
              readings (Z.of_nat (length readings)) false (utcnow_response env))
    as (F1 & F2 & F3 & F4 & F5).
  fold r0 in F1, F2, F3, F4, F5.
  eexists _, r, readings. split; [reflexivity|].
  cbn [with_heap with_cache_manager heap cache_manager].
  split; [exact Hr|]. split.
  { intros x Hx. rewrite shape_heap_lookup_ne by done. unfold h1.
    by rewrite lookup_insert_ne. }
  split; [by rewrite Hloc, F1|]. split; [done|]. split.
  { rewrite Hf. unfold r0. rewrite new_ForecastResponse_forecasts.
    rewrite sort_by_date_sorted; [done|].
    apply strictly_ascending_ascending, sampled_strictly_ascending. }
  split.
  { apply (shape_heap_lookup_days unit_ days (next_loc w) h1 r0 r Hr0); [|exact Hr].
    apply counts_forecasts_new. }
  split; [by rewrite Hc, F2|]. split; [by rewrite Hs, F3|].
  split; [by rewrite Hca, F4|]. split; [by rewrite Hg, F5|].
  intros later. rewrite (get_found later key cm3 l Hl), He, Hv. done.
Qed.

(** Property X13.
    A call that finds nothing cached, while the upstream answers, for
    coordinates in range and a cache that can hold an item:
    [_process_timeseries] returns readings, and the call returns a new
    object with the coordinates truncated, those readings in the unit and
    number asked for, none of the cache flags set; no other object is
    touched; and the entry it stored refers to that very object and is live
    for the time to live. *)
Theorem fresh_forecast env lat lon nm days unit_ ov w timeseries :
  let lat' := PyFloat.truncate4 lat in
  let lon' := PyFloat.truncate4 lon in
  let key := Cache.generate_key lat' lon' in
  TTLCache.contains (clock_probe env) key (cache (cache_manager w)) = false ->
  TTLCache.contains (clock_reprobe env) key (cache (cache_manager w)) = false ->
  fetch_forecast env lat' lon' = Ok timeseries ->
  valid_coordinates lat lon ->
  1 <= TTLCache.maxsize (cache (cache_manager w)) ->
  exists w' r readings,
    get_forecast tzs env lat lon nm days unit_ ov w = (w', Ok (next_loc w)) /\
    heap w' !! next_loc w = Some r /\
    (forall x, x <> next_loc w -> heap w' !! x = heap w !! x) /\
    location r = {| latitude := PyFloat.truncate4 lat';
                    longitude := PyFloat.truncate4 lon'; name := nm |} /\
    _process_timeseries tzs timeseries lat' lon' ov = Ok readings /\
    forecasts r = shaped unit_ days readings /\
    days_returned r = Z.of_nat (length (forecasts r)) /\
    cached r = false /\ stale r = false /\ cached_at r = None /\
    generated_at r = utcnow_response env /\
    forall later,
      fst (Cache.get later key (cache_manager w')) =
      if later <? clock_set env + TTLCache.ttl (cache (cache_manager w)) * US_PER_SECOND
      then Some {| data := next_loc w; created_at := utcnow_entry env; hit_count := 1 |}
      else None.
Proof. apply get_forecast_fresh. Qed.

Lemma get_forecast_hit env env' lat lon nm nm' days unit_ ov ov' w :
  let key := Cache.generate_key (PyFloat.truncate4 lat) (PyFloat.truncate4 lon) in
  TTLCache.contains (clock_probe env) key (cache (cache_manager w)) = true ->
  clock_probe env' = clock_probe env ->
  get_forecast tzs env' lat lon nm' days unit_ ov' w =
  get_forecast tzs env lat lon nm days unit_ ov w /\
  exists e w',
    fst (Cache.get (clock_probe env) key (cache_manager w)) = Some e /\
    get_forecast tzs env lat lon nm days unit_ ov w = (w', Ok (data e)) /\
    forall r, heap w !! data e = Some r ->
      exists r', heap w' !! data e = Some r' /\
        forecasts r' = shaped unit_ days (forecasts r) /\
        cached r' = true /\ cached_at r' = Some (created_at e) /\
        stale r' = stale r /\ location r' = location r /\
        generated_at r' = generated_at r.
Proof.
  intros key Hhit Hclock. unfold get_forecast, probe. fold key. rewrite Hclock.
  destruct (Cache.get (clock_probe env) key (cache_manager w)) as [[e|] cm] eqn:Hget.
  - destruct (serve_cached_spec e unit_ days (with_cache_manager cm w))
      as (Hres & _ & _ & _ & Hobj).
    destruct (serve_cached e unit_ days (with_cache_manager cm w)) as [w' l'] eqn:Hsv.
    cbn [fst snd] in *. subst l'. split; [done|].
    exists e, w'. split; [done|]. split; [done|].
    intros r Hr. destruct (Hobj r Hr) as (r' & Hr' & Hf & Hc & Hs & Hca & Hloc & Hg).
    exists r'. by repeat split.
  - apply get_None in Hget as (Hnone & _). apply getitem_contains in Hnone. congruence.
Qed.

(** Property X14.
    A call that finds its key live in the cache returns the stored object
    itself, after flagging it and applying the unit and the day limit to
    it in place; nothing else is read: not the upstream, not the clock
    after the first probe, and also not the location name and the timezone
    override of the request. *)
Theorem cache_hit_reads_nothing_else env env' lat lon nm nm' days unit_ ov ov' w :
  let key := Cache.generate_key (PyFloat.truncate4 lat) (PyFloat.truncate4 lon) in
  TTLCache.contains (clock_probe env) key (cache (cache_manager w)) = true ->
  clock_probe env' = clock_probe env ->
  get_forecast tzs env' lat lon nm' days unit_ ov' w =
  get_forecast tzs env lat lon nm days unit_ ov w /\
  exists e w',
    fst (Cache.get (clock_probe env) key (cache_manager w)) = Some e /\
    get_forecast tzs env lat lon nm days unit_ ov w = (w', Ok (data e)) /\
    forall r, heap w !! data e = Some r ->
      exists r', heap w' !! data e = Some r' /\
        forecasts r' = shaped unit_ days (forecasts r) /\
        cached r' = true /\ cached_at r' = Some (created_at e) /\
        stale r' = stale r /\ location r' = location r /\
        generated_at r' = generated_at r.
Proof. apply get_forecast_hit. Qed.

(** Property X15.
    Two calls for one cache key within the time to live, the first going
    upstream: the second returns the object of the first, flagged
    as cached, with its own unit and day limit applied on top of those of
    the first call, and with the name given to the first. *)
Theorem second_call_returns_the_object_of_the_first
    env1 env2 lat lon lat2 lon2 nm1 nm2 days1 days2 unit1 unit2 ov1 ov2 w timeseries :
  let lat' := PyFloat.truncate4 lat in
  let lon' := PyFloat.truncate4 lon in
  let key := Cache.generate_key lat' lon' in
  TTLCache.contains (clock_probe env1) key (cache (cache_manager w)) = false ->
  TTLCache.contains (clock_reprobe env1) key (cache (cache_manager w)) = false ->
  fetch_forecast env1 lat' lon' = Ok timeseries ->
  valid_coordinates lat lon ->
  1 <= TTLCache.maxsize (cache (cache_manager w)) ->
  PyFloat.truncate4 lat2 = lat' -> PyFloat.truncate4 lon2 = lon' ->
  clock_probe env2 < clock_set env1 + TTLCache.ttl (cache (cache_manager w)) * US_PER_SECOND ->
  let w1 := fst (get_forecast tzs env1 lat lon nm1 days1 unit1 ov1 w) in
  exists w2 r readings,
    get_forecast tzs env2 lat2 lon2 nm2 days2 unit2 ov2 w1 = (w2, Ok (next_loc w)) /\
    heap w2 !! next_loc w = Some r /\
    _process_timeseries tzs timeseries lat' lon' ov1 = Ok readings /\
    forecasts r = shaped unit2 days2 (shaped unit1 days1 readings) /\
    name (location r) = nm1 /\
    cached r = true /\ stale r = false /\
    cached_at r = Some (utcnow_entry env1) /\
    generated_at r = utcnow_response env1.
Proof.
  intros lat' lon' key Hmiss1 Hmiss2 Hfetch Hvalid Hmax Hlat Hlon Hlive w1.
  destruct (get_forecast_fresh env1 lat lon nm1 days1 unit1 ov1 w timeseries
              Hmiss1 Hmiss2 Hfetch Hvalid Hmax)
    as (w1' & r1 & readings & Hcall & Hr1 & _ & Hloc & Hreadings & Hf & _ & _ & Hs & _
        & Hg & Hget).
  fold lat' lon' key in Hget, Hf, Hloc, Hreadings.
  subst w1. rewrite Hcall. cbn [fst].
  specialize (Hget (clock_probe env2)).
  destruct (Z.ltb_spec (clock_probe env2)
              (clock_set env1 + TTLCache.ttl (cache (cache_manager w)) * US_PER_SECOND));
    [|lia].
  assert (Hhit : TTLCache.contains (clock_probe env2)
                   (Cache.generate_key (PyFloat.truncate4 lat2) (PyFloat.truncate4 lon2))
                   (cache (cache_manager w1')) = true).
  { rewrite Hlat, Hlon. fold key.
    destruct (TTLCache.contains (clock_probe env2) key (cache (cache_manager w1')))
      eqn:Hc; [done|].
    by rewrite (get_miss _ _ _ Hc) in Hget. }
  destruct (get_forecast_hit env2 env2 lat2 lon2 nm2 nm2 days2 unit2 ov2 ov2 w1' Hhit eq_refl)
    as (_ & e & w2 & He & Hcall2 & Hobj).
  rewrite Hlat, Hlon in He. fold key in He. rewrite Hget in He. injection He as <-.
  cbn [data created_at] in *.
  destruct (Hobj r1 Hr1) as (r & Hr & Hf2 & Hc2 & Hca2 & Hs2 & Hloc2 & Hg2).
  exists w2, r, readings. split; [exact Hcall2|]. split; [exact Hr|].
  split; [exact Hreadings|].
  split; [by rewrite Hf2, Hf|]. split; [by rewrite Hloc2, Hloc|].
  split; [done|]. split; [congruence|]. split; [done | congruence].
Qed.

End fresh_and_cached.

Section fresh_and_cached_witness.
Import Models WeatherService Examples.

(** The first request for Belgrade: 5.3 and 6.1 degrees at 14:00 local
    time of two days, in object 0. *)
Lemma fresh_forecast_witness :
  exists w' r,
    get_forecast belgrade_tz (env_ok 0) lat_raw lon_raw None None CELSIUS None world0 =
      (w', Ok 0%nat) /\
    heap w' !! 0%nat = Some r /\
    List.map temperature (forecasts r) =
      [PyFloat.of_decimal false 53 1; PyFloat.of_decimal false 61 1] /\
    days_returned r = 2 /\ cached r = false.
Proof.
  destruct (fresh_forecast belgrade_tz (env_ok 0) lat_raw lon_raw None None CELSIUS None
              world0 mock_timeseries)
    as (w' & r & readings & Hcall & Hr & _ & _ & Hreadings & Hf & Hd & Hc & _);
    [vm_compute; reflexivity .. | by vm_compute |].
  exists w', r. split; [exact Hcall|]. split; [exact Hr|].
  vm_compute in Hreadings. injection Hreadings as <-.
  rewrite Hd, Hf. split; [|split; [|exact Hc]]; vm_compute; reflexivity.
Defined.

(** A second request, with another name and timezone and while yr.no is
    down, is the same call as one without them. *)
Lemma cache_hit_reads_nothing_else_witness :
  get_forecast belgrade_tz (env_down 1) lat_raw lon_raw (Some "Beograd") (Some 1)
    FAHRENHEIT (Some "Europe/Oslo") world_served =
  get_forecast belgrade_tz (env_ok 1) lat_raw lon_raw None (Some 1) FAHRENHEIT None
    world_served.
Proof.
  apply (cache_hit_reads_nothing_else belgrade_tz (env_ok 1) (env_down 1) lat_raw lon_raw
           None (Some "Beograd") (Some 1) FAHRENHEIT None (Some "Europe/Oslo")
           world_served); vm_compute; reflexivity.
Defined.

(** Belgrade asked for in Fahrenheit limited to one day, then in Celsius
    without a limit: the second answer is the one Fahrenheit reading. *)
Lemma second_call_returns_the_object_of_the_first_witness :
  exists w2 r,
    get_forecast belgrade_tz (env_ok 1) lat_belgrade lon_belgrade None None CELSIUS None
      (fst (get_forecast belgrade_tz (env_ok 0) lat_raw lon_raw None (Some 1) FAHRENHEIT
              None world0)) = (w2, Ok 0%nat) /\
    heap w2 !! 0%nat = Some r /\
    List.map unit (forecasts r) = [FAHRENHEIT] /\ cached r = true.
Proof.
  destruct (second_call_returns_the_object_of_the_first belgrade_tz (env_ok 0) (env_ok 1)
              lat_raw lon_raw lat_belgrade lon_belgrade None None (Some 1) None
              FAHRENHEIT CELSIUS None None world0 mock_timeseries)
    as (w2 & r & readings & Hcall & Hr & Hreadings & Hf & _ & Hc & _);
    [vm_compute; reflexivity .. | by vm_compute | vm_compute; reflexivity
     | vm_compute; reflexivity | by vm_compute |].
  exists w2, r. split; [exact Hcall|]. split; [exact Hr|].
  vm_compute in Hreadings. injection Hreadings as <-.
  split; [|exact Hc]. rewrite Hf. vm_compute. reflexivity.
Defined.

End fresh_and_cached_witness.

(* ================================================================== *)
(** ** The size of the cache *)
(* ================================================================== *)

Section cache_size.

(** The cache holds no more links than [maxsize] (none when [maxsize] is
    not positive). *)
#[local] Abbreviation bounded c :=
  (Z.of_nat (length (TTLCache.links c)) <= Z.max 0 (TTLCache.maxsize c)).

Lemma remove_link_length {V} k (ls : list (TTLCache.link V)) :
  (length (TTLCache.remove_link k ls) <= length ls)%nat.
Proof. apply List.filter_length_le. Qed.

Lemma remove_link_found_length {V} k (ls : list (TTLCache.link V)) l :
  TTLCache.find_link k ls = Some l ->
  (length (TTLCache.remove_link k ls) < length ls)%nat.
Proof.
  unfold TTLCache.find_link, TTLCache.remove_link.
  induction ls as [|l0 ls IH]; [done|]. cbn [List.find List.filter].
  destruct (TTLCache.is_key k l0); cbn [negb length].
  - intros _. pose proof (List.filter_length_le (fun l => negb (TTLCache.is_key k l)) ls).
    lia.
  - intros H. specialize (IH H). lia.
Qed.

Lemma getitem_bounded {V} now k (c c' : TTLCache.t V) v :
  TTLCache.getitem now k c = Some (v, c') -> bounded c -> bounded c'.
Proof.
  intros Hg Hb. apply getitem_Some in Hg as (l & _ & _ & _ & _ & Hf & ->).
  cbn [TTLCache.with_links TTLCache.links TTLCache.maxsize].
  rewrite length_app. cbn [length].
  pose proof (remove_link_found_length k _ l Hf). lia.
Qed.

Lemma expire_bounded {V} now (c : TTLCache.t V) : bounded c -> bounded (TTLCache.expire now c).
Proof.
  intros Hb. cbn [TTLCache.expire TTLCache.with_links TTLCache.links TTLCache.maxsize].
  pose proof (List.filter_length_le (TTLCache.live now) (TTLCache.links c)). lia.
Qed.

Lemma setitem_bounded {V} now k (v : V) (c c' : TTLCache.t V) :
  TTLCache.setitem now k v c = Ok c' -> bounded c -> bounded c'.
Proof.
  unfold TTLCache.setitem. destruct (Z.ltb_spec (TTLCache.maxsize c) 1); [done|].
  intros [= <-] Hb.
  pose proof (expire_bounded now c Hb) as He.
  cbn [TTLCache.expire TTLCache.with_links TTLCache.links TTLCache.maxsize] in He |- *.
  set (ls := List.filter (TTLCache.live now) (TTLCache.links c)) in *.
  rewrite length_app. cbn [length].
  destruct (TTLCache.find_link k ls) as [l|] eqn:Hf.
  - pose proof (remove_link_found_length k ls l Hf). lia.
  - pose proof (remove_link_length k (TTLCache.evict (TTLCache.maxsize c) ls)) as Hr.
    unfold TTLCache.evict in *. rewrite length_drop in Hr. lia.
Qed.

Lemma update_value_bounded {V} (f : V -> V) k (c : TTLCache.t V) :
  bounded c -> bounded (TTLCache.update_value f k c).
Proof.
  cbn [TTLCache.update_value TTLCache.with_links TTLCache.links TTLCache.maxsize].
  by rewrite length_map.
Qed.

Lemma run_op_bounded cm op :
  bounded (cache cm) -> bounded (cache (run_op cm op)) /\
  TTLCache.maxsize (cache (run_op cm op)) = TTLCache.maxsize (cache cm).
Proof.
  intros Hb. destruct op as [now k|k|now utcnow k d|now]; cbn [run_op]; try done.
  - unfold Cache.get.
    destruct (TTLCache.getitem now k (cache cm)) as [[e c]|] eqn:Hg; cbn [snd cache];
      [|done].
    pose proof (getitem_bounded now k _ _ _ Hg Hb) as Hc.
    apply getitem_params in Hg as [Hm _]. split.
    + by apply update_value_bounded.
    + done.
  - unfold Cache.set.
    assert (Hc1 : exists c1 st,
      match TTLCache.getitem now k (cache cm) with
      | Some (old, c) => (<[k := old]> (stale_cache cm), c)
      | None => (stale_cache cm, cache cm)
      end = (st, c1) /\ bounded c1 /\ TTLCache.maxsize c1 = TTLCache.maxsize (cache cm)).
    { destruct (TTLCache.getitem now k (cache cm)) as [[old c]|] eqn:Hg.
      - eexists _, _. split; [reflexivity|]. split; [by eapply getitem_bounded|].
        by apply getitem_params in Hg as [Hm _].
      - by eexists _, _. }
    destruct Hc1 as (c1 & st & -> & Hb1 & Hm1).
    destruct (TTLCache.setitem now k _ c1) as [c2|e] eqn:Hs; cbn [fst cache].
    + split; [by eapply setitem_bounded|].
      apply setitem_Ok in Hs as (_ & ls' & _ & ->). done.
    + split; [by apply expire_bounded | done].
Qed.

Lemma run_ops_size_bounded (settings : Settings) (ops : list cache_op) (now : Z) :
  0 <= Cache.get_size now (run_ops ops (Cache.new settings)) <=
  Z.max 0 (CACHE_MAX_SIZE settings).
Proof.
  assert (H : forall cm, bounded (cache cm) ->
    bounded (cache (run_ops ops cm)) /\
    TTLCache.maxsize (cache (run_ops ops cm)) = TTLCache.maxsize (cache cm)).
  { unfold run_ops. induction ops as [|op ops IH]; intros cm Hb; [done|].
    cbn [fold_left]. destruct (run_op_bounded cm op Hb) as [Hb1 Hm1].
    destruct (IH _ Hb1) as [Hb2 Hm2]. split; [done | congruence]. }
  destruct (H (Cache.new settings)) as [Hb Hm]; [cbn; lia|].
  cbn [Cache.new cache TTLCache.new TTLCache.maxsize] in Hm.
  unfold Cache.get_size, TTLCache.len.
  pose proof (expire_bounded now _ Hb) as He.
  cbn [TTLCache.expire TTLCache.with_links TTLCache.maxsize] in He. rewrite Hm in He.
  split; [lia | exact He].
Qed.

(** Property X16.
    However the cache is used, [get_statistics] never reports a size
    above [max_size] (above zero when [CACHE_MAX_SIZE] is not positive). *)
Theorem size_never_exceeds_max_size (settings : Settings) (ops : list cache_op) (now : Z) :
  let st := Cache.get_statistics settings now (run_ops ops (Cache.new settings)) in
  0 <= Cache.size st <= Z.max 0 (Cache.max_size st).
Proof.
  cbv zeta. cbn [Cache.get_statistics Cache.size Cache.max_size].
  apply run_ops_size_bounded.
Qed.

End cache_size.

(* ================================================================== *)
(** ** The order of the samples *)
(* ================================================================== *)

Section sample_order.
Context (tz : tzinfo).
Import Models WeatherService.

#[local] Abbreviation s_date' := (sample_date tz).
#[local] Abbreviation s_dist' := (sample_dist tz).

Lemma strictly_ascending_cons x l :
  strictly_ascending (x :: l) <->
  Forall (fun y => reading_date x < reading_date y) l /\ strictly_ascending l.
Proof.
  unfold strictly_ascending, dates. cbn [List.map]. split.
  - intros H. apply StronglySorted_inv in H as [Hs Hall]. split; [|done].
    rewrite Forall_forall in Hall. rewrite Forall_forall. intros y Hy. apply Hall.
    apply list_elem_of_fmap. by exists y.
  - intros [Hall Hs]. constructor; [done|].
    rewrite Forall_forall in Hall. rewrite Forall_forall. intros d Hd.
    apply list_elem_of_fmap in Hd as (y & -> & Hy). by apply Hall.
Qed.

(** Two lists in strict date order with the same members are equal. *)
Lemma strictly_ascending_ext l1 l2 :
  strictly_ascending l1 -> strictly_ascending l2 ->
  (forall r, r ∈ l1 <-> r ∈ l2) -> l1 = l2.
Proof.
  revert l2. induction l1 as [|x l1 IH]; intros [|y l2] H1 H2 Hext.
  - done.
  - exfalso. apply (elem_of_nil y). apply Hext. left.
  - exfalso. apply (elem_of_nil x). apply Hext. left.
  - apply strictly_ascending_cons in H1 as [Hx H1].
    apply strictly_ascending_cons in H2 as [Hy H2].
    rewrite Forall_forall in Hx, Hy.
    assert (Hxy : x = y).
    { assert (Hx' : x ∈ y :: l2) by (apply Hext; left).
      assert (Hy' : y ∈ x :: l1) by (apply Hext; left).
      apply elem_of_cons in Hx' as [Hx'|Hx']; [done|].
      apply elem_of_cons in Hy' as [Hy'|Hy']; [done|].
      specialize (Hx y Hy'). specialize (Hy x Hx'). lia. }
    subst y. f_equal. apply IH; [done | done |].
    intros r. split; intros Hr.
    + assert (Hr' : r ∈ x :: l2) by (apply Hext; by right).
      apply elem_of_cons in Hr' as [->|Hr']; [|done].
      specialize (Hx x Hr). lia.
    + assert (Hr' : r ∈ x :: l1) by (apply Hext; by right).
      apply elem_of_cons in Hr' as [->|Hr']; [|done].
      specialize (Hy x Hr). lia.
Qed.

Lemma sampled_subset ts ts' :
  (forall e, e ∈ ts <-> e ∈ ts') ->
  (forall e1 e2, e1 ∈ ts -> e2 ∈ ts ->
     s_date' e1 = s_date' e2 -> s_dist' e1 = s_dist' e2 -> e1 = e2) ->
  forall r, r ∈ sampled tz ts -> r ∈ sampled tz ts'.
Proof.
  intros Hsame Hties r Hr.
  destruct (sampled_spec tz ts) as (_ & _ & Hch).
  destruct (sampled_spec tz ts') as (_ & Hd' & Hch').
  destruct (Hch r Hr) as (i & e & [Hi Hmin] & ->).
  assert (He : e ∈ ts) by (by eapply list_elem_of_lookup_2).
  assert (Hdate : s_date' e ∈ dates (sampled tz ts')).
  { apply Hd'. exists e. split; [by apply Hsame | done]. }
  apply list_elem_of_fmap in Hdate as (r' & Hdr & Hr').
  destruct (Hch' r' Hr') as (i' & e' & [Hi' Hmin'] & ->).
  cbn [reading_of reading_date] in Hdr. fold (sample_date tz e') in Hdr.
  assert (He' : e' ∈ ts) by (apply Hsame; by eapply list_elem_of_lookup_2).
  assert (e = e') as ->; [|done].
  apply list_elem_of_lookup_1 in He' as [j Hj].
  assert (He2 : e ∈ ts') by (by apply Hsame).
  apply list_elem_of_lookup_1 in He2 as [j' Hj'].
  destruct (Hmin j e' Hj) as [Hle _]; [done|].
  destruct (Hmin' j' e Hj') as [Hle' _]; [done|].
  apply Hties; try done; [by eapply list_elem_of_lookup_2 | lia].
Qed.

Lemma sampled_order_irrelevant ts ts' :
  Permutation ts ts' ->
  (forall e1 e2, e1 ∈ ts -> e2 ∈ ts ->
     s_date' e1 = s_date' e2 -> s_dist' e1 = s_dist' e2 -> e1 = e2) ->
  sampled tz ts = sampled tz ts'.
Proof.
  intros Hperm Hties.
  assert (Hsame : forall e, e ∈ ts <-> e ∈ ts') by (intros e; by rewrite Hperm).
  apply strictly_ascending_ext; try apply sampled_strictly_ascending.
  intros r. split.
  - by apply sampled_subset.
  - apply sampled_subset; [intros e; symmetry; apply Hsame|].
    intros e1 e2 H1 H2. apply Hties; by apply Hsame.
Qed.

End sample_order.

Section sample_order_of_a_call.
Context (tzs : TimezoneService) (lat lon : float) (ov : option string).
Import Models WeatherService.

(** Property X17.
    The order in which the upstream lists the samples does not matter,
    as long as no two different samples of one local date, in the zone of
    the call, are equally far from the target time: the readings selected
    are the same, and where no zone is found the call raises for either
    order. *)
Theorem process_timeseries_order_irrelevant ts ts' :
  Permutation ts ts' ->
  (forall tz e1 e2,
     Timezone.get_timezone tzs lat lon ov = Ok tz -> e1 ∈ ts -> e2 ∈ ts ->
     sample_date tz e1 = sample_date tz e2 -> sample_dist tz e1 = sample_dist tz e2 ->
     e1 = e2) ->
  _process_timeseries tzs ts lat lon ov = _process_timeseries tzs ts' lat lon ov.
Proof.
  intros Hperm Hties.
  destruct (Timezone.get_timezone tzs lat lon ov) as [tz|x] eqn:Htz.
  - rewrite !(process_timeseries_ok tzs lat lon ov tz) by done. f_equal.
    apply sampled_order_irrelevant; [done|]. intros e1 e2. by apply Hties.
  - rewrite !(process_timeseries_raise tzs lat lon ov x) by done.
    destruct ts as [|e ts], ts' as [|e' ts']; try done.
    + by apply Permutation_nil_cons in Hperm.
    + symmetry in Hperm. by apply Permutation_nil_cons in Hperm.
Qed.

End sample_order_of_a_call.

Section sample_order_witness.
Import Models WeatherService Examples.

(** The two samples of the test suite, listed the other way round. *)
Lemma process_timeseries_order_irrelevant_witness :
  _process_timeseries belgrade_tz mock_timeseries lat_belgrade lon_belgrade None =
  _process_timeseries belgrade_tz (rev mock_timeseries) lat_belgrade lon_belgrade None.
Proof.
  apply (process_timeseries_order_irrelevant belgrade_tz lat_belgrade lon_belgrade None
           mock_timeseries (rev mock_timeseries)).
  - apply Permutation_rev.
  - intros tz e1 e2 [= <-] H1 H2 Hd _. unfold mock_timeseries in H1, H2.
    apply elem_of_cons in H1 as [->|H1]; apply elem_of_cons in H2 as [->|H2];
      try done;
      repeat match goal with
             | H : _ ∈ [_] |- _ => apply list_elem_of_singleton in H as ->
             | H : _ ∈ [] |- _ => by apply elem_of_nil in H
             end; try done; by vm_compute in Hd.
Defined.

End sample_order_witness.

(* ================================================================== *)
(** ** Cache keys and printed coordinates *)
(* ================================================================== *)

Section key_injective.
Import Stdlib.Strings.Ascii.

Lemma string_forall_app P s1 s2 :
  string_forall P (s1 +:+ s2) = string_forall P s1 && string_forall P s2.
Proof.
  induction s1 as [|c s1 IH]; [done|]. simpl.
  by rewrite IH, andb_assoc.
Qed.

Lemma string_forall_impl (P Q : Ascii.ascii -> bool) s :
  (forall c, P c = true -> Q c = true) ->
  string_forall P s = true -> string_forall Q s = true.
Proof.
  intros HPQ. induction s as [|c s IH]; [done|]. cbn [string_forall].
  rewrite !andb_true_iff. intros [Hc Hs]. split; [by apply HPQ | by apply IH].
Qed.

(** A text is cut at the first occurrence of a character in one way
    only. *)
Lemma append_split_at c s1 s1' s2 s2' :
  string_forall (is_not c) s1 = true -> string_forall (is_not c) s1' = true ->
  s1 +:+ String c s2 = s1' +:+ String c s2' -> s1 = s1' /\ s2 = s2'.
Proof.
  revert s1'. induction s1 as [|a s1 IH]; intros [|a' s1'];
    simpl; rewrite ?andb_true_iff.
  - intros _ _ [= ->]. done.
  - intros _ [Ha _] [= <- _]. unfold is_not in Ha. by rewrite Ascii.eqb_refl in Ha.
  - intros [Ha _] _ [= -> _]. unfold is_not in Ha. by rewrite Ascii.eqb_refl in Ha.
  - intros [_ H1] [_ H1'] [= -> Heq]. destruct (IH s1' H1 H1' Heq) as [-> ->]. done.
Qed.

Lemma pretty_N_char_digit x : is_digit (pretty_N_char x) = true.
Proof. unfold pretty_N_char. by repeat case_match. Qed.

Lemma pretty_N_go_digits x s :
  string_forall is_digit s = true -> string_forall is_digit (pretty_N_go x s) = true.
Proof.
  revert s. induction (N.lt_wf_0 x) as [x _ IH]; intros s Hs.
  assert (x = 0 \/ 0 < x)%N as [->|Hx] by lia; [by rewrite pretty_N_go_0|].
  rewrite pretty_N_go_step by done. apply IH; [by apply N.div_lt|].
  cbn [string_forall]. by rewrite pretty_N_char_digit, Hs.
Qed.

Lemma pretty_N_go_nonempty x s : s <> EmptyString -> pretty_N_go x s <> EmptyString.
Proof.
  revert s. induction (N.lt_wf_0 x) as [x _ IH]; intros s Hs.
  assert (x = 0 \/ 0 < x)%N as [->|Hx] by lia; [by rewrite pretty_N_go_0|].
  rewrite pretty_N_go_step by done. apply IH; [by apply N.div_lt | done].
Qed.

(** The decimal text of a natural number: digits, at least one. *)
Lemma pretty_N_digits (n : N) :
  string_forall is_digit (pretty n) = true /\
  exists c s, pretty n = String c s /\ is_digit c = true.
Proof.
  assert (Hd : string_forall is_digit (pretty n) = true).
  { unfold pretty, pretty_N. case_decide; [done|]. by apply pretty_N_go_digits. }
  split; [done|].
  destruct (pretty n) as [|c s] eqn:Hp.
  - exfalso. unfold pretty, pretty_N in Hp. case_decide; [done|].
    assert (0 < n)%N as Hn by lia.
    rewrite pretty_N_go_step in Hp by done. by apply pretty_N_go_nonempty in Hp.
  - exists c, s. split; [done|]. cbn [string_forall] in Hd.
    by apply andb_true_iff in Hd as [Hc _].
Qed.

Lemma digit_char n : PyFloat.digit n = String (pretty_N_char (n mod 10)) EmptyString.
Proof.
  unfold PyFloat.digit, pretty, pretty_N.
  assert (n mod 10 < 10)%N as Hlt by (by apply N.mod_lt).
  case_decide as H0; [by rewrite H0|].
  rewrite pretty_N_go_step by (by apply N.neq_0_lt_0).
  rewrite (N.mod_small (n mod 10) 10) by done.
  rewrite (N.div_small (n mod 10) 10) by done. by rewrite pretty_N_go_0.
Qed.

(** The four decimals, as text. *)
Lemma decimals_eq n n' :
  PyFloat.digit (n / 1000) +:+ PyFloat.digit (n / 100) +:+ PyFloat.digit (n / 10) +:+
    PyFloat.digit n =
  PyFloat.digit (n' / 1000) +:+ PyFloat.digit (n' / 100) +:+ PyFloat.digit (n' / 10) +:+
    PyFloat.digit n' ->
  (n mod 10000 = n' mod 10000)%N.
Proof.
  rewrite !digit_char. simpl. intros [= H3 H2 H1 H0].
  apply pretty_N_char_inj in H3, H2, H1, H0; try (by apply N.mod_lt).
  assert (Hdec : forall m : N,
    (m mod 10000 = 1000 * ((m / 1000) mod 10) + 100 * ((m / 100) mod 10) +
                   10 * ((m / 10) mod 10) + m mod 10)%N).
  { intros m.
    pose proof (N.Div0.div_mod m 10) as E0.
    pose proof (N.Div0.div_mod (m / 10) 10) as E1.
    pose proof (N.Div0.div_mod (m / 100) 10) as E2.
    pose proof (N.Div0.div_mod (m / 1000) 10) as E3.
    pose proof (N.Div0.div_mod m 10000) as E4.
    rewrite (N.Div0.div_div m 10 10) in E1. change (10 * 10)%N with 100%N in E1.
    rewrite (N.Div0.div_div m 100 10) in E2. change (100 * 10)%N with 1000%N in E2.
    rewrite (N.Div0.div_div m 1000 10) in E3. change (1000 * 10)%N with 10000%N in E3.
    pose proof (N.mod_lt m 10) as B0. pose proof (N.mod_lt (m / 10) 10) as B1.
    pose proof (N.mod_lt (m / 100) 10) as B2. pose proof (N.mod_lt (m / 1000) 10) as B3.
    pose proof (N.mod_lt m 10000) as B4.
    generalize dependent (m mod 10000)%N. generalize dependent (m / 10000)%N.
    generalize dependent ((m / 1000) mod 10)%N. generalize dependent (m / 1000)%N.
    generalize dependent ((m / 100) mod 10)%N. generalize dependent (m / 100)%N.
    generalize dependent ((m / 10) mod 10)%N. generalize dependent (m / 10)%N.
    generalize dependent (m mod 10)%N. intros. lia. }
  rewrite (Hdec n), (Hdec n'). rewrite H3, H2, H1, H0. done.
Qed.

Lemma string_forall_digit_not c s :
  is_digit c = false -> string_forall is_digit s = true ->
  string_forall (is_not c) s = true.
Proof.
  intros Hc. apply string_forall_impl. intros a Ha. unfold is_not.
  destruct (Ascii.eqb_spec a c) as [->|]; [congruence | done].
Qed.

Lemma render_no_colon d : string_forall (is_not ":"%char) (PyFloat.render d) = true.
Proof.
  destruct d as [|[]|s n]; try done. cbn [PyFloat.render].
  rewrite !string_forall_app, !digit_char.
  destruct (pretty_N_digits (n / 10000)) as [Hq _].
  rewrite (string_forall_digit_not ":"%char _ eq_refl Hq).
  cbn [string_forall].
  assert (Hc : forall x, is_not ":"%char (pretty_N_char x) = true).
  { intros x. unfold pretty_N_char. by repeat case_match. }
  rewrite !Hc. by destruct s.
Qed.

Lemma render_DFin s n :
  exists c t,
    PyFloat.render (PyFloat.DFin s n) = (if s then String "-" (String c t) else String c t) /\
    is_digit c = true.
Proof.
  cbn [PyFloat.render].
  destruct (pretty_N_digits (n / 10000)) as [_ (c & t & -> & Hc)].
  destruct s; eexists c, _; (split; [reflexivity | done]).
Qed.

Lemma render_DFin_inj s n s' n' :
  PyFloat.render (PyFloat.DFin s n) = PyFloat.render (PyFloat.DFin s' n') ->
  s = s' /\ n = n'.
Proof.
  intros Heq.
  assert (Hs : s = s').
  { destruct (render_DFin s n) as (c & t & Hr & Hc).
    destruct (render_DFin s' n') as (c' & t' & Hr' & Hc').
    rewrite Hr, Hr' in Heq.
    destruct s, s'; try done; simplify_eq;
      try (by vm_compute in Hc); try (by vm_compute in Hc'). }
  subst s'. split; [done|].
  assert (Hrest : pretty (n / 10000)%N +:+ "." +:+ PyFloat.digit (n / 1000) +:+
                    PyFloat.digit (n / 100) +:+ PyFloat.digit (n / 10) +:+
                    PyFloat.digit n =
                  pretty (n' / 10000)%N +:+ "." +:+ PyFloat.digit (n' / 1000) +:+
                    PyFloat.digit (n' / 100) +:+ PyFloat.digit (n' / 10) +:+
                    PyFloat.digit n').
  { cbn [PyFloat.render] in Heq. by apply (inj (String.append (if s then "-" else ""))) in Heq. }
  destruct (pretty_N_digits (n / 10000)) as [Hq _].
  destruct (pretty_N_digits (n' / 10000)) as [Hq' _].
  apply (append_split_at "."%char (pretty (n / 10000)%N) (pretty (n' / 10000)%N)) in Hrest
    as [Hint Hdec];
    [|by apply (string_forall_digit_not "."%char _ eq_refl)
     |by apply (string_forall_digit_not "."%char _ eq_refl)].
  apply (inj pretty) in Hint. apply decimals_eq in Hdec.
  rewrite (N.Div0.div_mod n 10000), (N.Div0.div_mod n' 10000).
  by rewrite Hint, Hdec.
Qed.

Lemma render_inj d d' : PyFloat.render d = PyFloat.render d' -> d = d'.
Proof.
  destruct d as [|s|s n], d' as [|s'|s' n']; try done; intros Heq.
  - by destruct s'.
  - destruct (render_DFin s' n') as (c & t & Hr & Hc). rewrite Hr in Heq.
    destruct s'; cbn [PyFloat.render] in Heq; simplify_eq; try (by vm_compute in Hc).
  - by destruct s.
  - by destruct s, s'.
  - destruct (render_DFin s' n') as (c & t & Hr & Hc). rewrite Hr in Heq.
    destruct s, s'; cbn [PyFloat.render] in Heq; simplify_eq; try (by vm_compute in Hc).
  - destruct (render_DFin s n) as (c & t & Hr & Hc). rewrite Hr in Heq.
    destruct s; cbn [PyFloat.render] in Heq; simplify_eq; try (by vm_compute in Hc).
  - destruct (render_DFin s n) as (c & t & Hr & Hc). rewrite Hr in Heq.
    destruct s, s'; cbn [PyFloat.render] in Heq; simplify_eq; try (by vm_compute in Hc).
  - by destruct (render_DFin_inj s n s' n' Heq) as [-> ->].
Qed.

(** Property X18.
    Two pairs of coordinates get one cache key exactly when both
    coordinates print alike to four decimals: no two places that print
    differently share a cache entry or a lock. *)
Theorem generate_key_injective (lat lon lat' lon' : float) :
  Cache.generate_key lat lon = Cache.generate_key lat' lon' <->
  PyFloat.to_dec4 lat = PyFloat.to_dec4 lat' /\ PyFloat.to_dec4 lon = PyFloat.to_dec4 lon'.
Proof.
  unfold Cache.generate_key, PyFloat.format_4f. split.
  - intros Heq. apply (inj (String.append "forecast:")) in Heq.
    apply append_split_at in Heq as [H1 H2]; try apply render_no_colon.
    split; by apply render_inj.
  - by intros [-> ->].
Qed.

End key_injective.

(* ================================================================== *)
(** ** Geocoding and the forecast route *)
(* ================================================================== *)

Section geocoding_facts.
Context (lower strip : string -> string).

Lemma setitem_then_getitem {V} now later k (v : V) c :
  1 <= TTLCache.maxsize c ->
  exists c',
    TTLCache.setitem now k v c = Ok c' /\
    fst <$> TTLCache.getitem later k c' =
    if later <? now + TTLCache.ttl c * US_PER_SECOND then Some v else None.
Proof.
  intros Hmax. unfold TTLCache.setitem.
  destruct (Z.ltb_spec (TTLCache.maxsize c) 1); [lia|].
  eexists. split; [reflexivity|].
  unfold TTLCache.getitem. cbn [TTLCache.links TTLCache.with_links].
  rewrite find_link_app, find_link_remove_link.
  unfold TTLCache.find_link, TTLCache.is_key. cbn [List.find TTLCache.key].
  rewrite bool_decide_eq_true_2 by done.
  unfold TTLCache.live. cbn [TTLCache.expires TTLCache.value].
  by destruct (later <? now + TTLCache.ttl c * US_PER_SECOND).
Qed.


End geocoding_facts.

Section route_facts.
Context (lower strip : string -> string) (tzs : TimezoneService).

Lemma forecast_or_504_status env lat lon nm days unit_ tz app :
  let res := snd (Routes.forecast_or_504 tzs env lat lon nm days unit_ tz app) in
  status_of res = None \/ status_of res = Some 504.
Proof.
  cbv zeta. unfold Routes.forecast_or_504.
  destruct (WeatherService.get_forecast _ _ _ _ _ _ _ _ _) as [w [l|e]]; cbn; auto.
Qed.

(** Property X20.
    The outcomes of [GET /forecast]: a response, or one of the statuses
    400, 404 and 504.  400 is raised exactly when a coordinate is missing
    and no name is given, unless nothing at all is given (which means
    Belgrade), and then nothing was looked up or changed; 404 exactly when
    a coordinate is missing and geocoding the name gives nothing. *)
Theorem route_status_codes env genv lat lon nm days unit_ tz app :
  let res := snd (Routes.get_forecast lower strip tzs env genv lat lon nm days unit_ tz app) in
  let no_coordinates := lat = None \/ lon = None in
  (status_of res = None \/ status_of res = Some 400 \/
   status_of res = Some 404 \/ status_of res = Some 504) /\
  (status_of res = Some 400 <->
   no_coordinates /\ (nm = None \/ nm = Some EmptyString) /\
   ~ (lat = None /\ lon = None /\ nm = None)) /\
  (status_of res = Some 400 ->
   fst (Routes.get_forecast lower strip tzs env genv lat lon nm days unit_ tz app) = app) /\
  (status_of res = Some 404 <->
   no_coordinates /\
   exists name, nm = Some name /\ name <> EmptyString /\
     snd (Geocoding.geocode lower strip genv name (app_location_service app)) = None).
Proof.
  cbv zeta.
  assert (H504 : forall lat_ lon_ nm_ app_,
    let res := snd (Routes.forecast_or_504 tzs env lat_ lon_ nm_ days unit_ tz app_) in
    (status_of res = None \/ status_of res = Some 504))
    by (intros; apply forecast_or_504_status).
  cbv zeta in H504.
  unfold Routes.get_forecast.
  destruct lat as [lat_|], lon as [lon_|], nm as [name|];
    try (destruct (H504 lat_ lon_ (Some name) app) as [-> | ->]);
    try (destruct (H504 lat_ lon_ None app) as [-> | ->]);
    try (destruct (H504 BELGRADE_LAT BELGRADE_LON (Some "Belgrade, Serbia") app)
           as [-> | ->]);
    try (cbn [snd fst status_of]; naive_solver).
  all: case_bool_decide as Hname;
    [cbn [snd fst status_of]; subst name; naive_solver|].
  all: destruct (Geocoding.geocode lower strip genv name (app_location_service app))
         as [ls [[[lat1 lon1] display]|]] eqn:Hgeo;
    [destruct (H504 lat1 lon1 (Some display)
                {| app_world := app_world app; app_location_service := ls |})
       as [-> | ->]|];
    cbn [snd fst status_of];
    (split; [auto|]); (split; [naive_solver|]); (split; [done|]);
    (split;
      [intros H; first
         [discriminate H
         |split; [auto|]; exists name; split; [done|]; split; [done|]; by rewrite Hgeo]
      |intros (_ & n & Hn & _ & Hg); injection Hn as <-; rewrite Hgeo in Hg;
       first [done | discriminate Hg]]).
Qed.

(** Property X21.
    A geocoder that fails is reported as 404 for the name; nothing is
    cached and nothing is fetched, so the next request asks again. *)
Theorem geocoder_outage_reported_as_not_found
    env genv lat lon name days unit_ tz app e :
  lat = None \/ lon = None -> name <> EmptyString ->
  TTLCache.getitem (clock_lookup genv) (strip (lower name))
    (location_cache (app_location_service app)) = None ->
  geolocator_geocode genv name = GeocoderRaises e ->
  Routes.get_forecast lower strip tzs env genv lat lon (Some name) days unit_ tz app =
  (app, HTTPException 404
          ("Location not found: '" +:+ name +:+
           "'. Please try a different search term or use coordinates.")).
Proof.
  intros Hcoord Hname Hmiss Hraise. unfold Routes.get_forecast.
  assert (Hgeo : Geocoding.geocode lower strip genv name (app_location_service app) =
                 (app_location_service app, None)).
  { unfold Geocoding.geocode. by rewrite Hmiss, Hraise. }
  destruct app as [w ls]. cbn [app_world app_location_service] in *.
  destruct lat as [lat_|], lon as [lon_|]; try (by destruct Hcoord);
    rewrite bool_decide_eq_false_2 by done; by rewrite Hgeo.
Qed.

End route_facts.

Section route_witnesses.
Import Examples.


(** A request for Oslo by name while the geocoder is down. *)
Lemma geocoder_outage_reported_as_not_found_witness :
  Routes.get_forecast id id belgrade_tz (env_ok 0) (geocoder_down 0) None None
    (Some "Oslo") None Models.CELSIUS None new_app =
  (new_app,
   HTTPException 404
     ("Location not found: '" +:+ "Oslo" +:+
      "'. Please try a different search term or use coordinates.")).
Proof.
  apply (geocoder_outage_reported_as_not_found id id belgrade_tz (env_ok 0)
           (geocoder_down 0) None None "Oslo" None Models.CELSIUS None new_app
           (OtherError "timed out")); [by left | done | reflexivity | reflexivity].
Defined.

End route_witnesses.

(* ================================================================== *)
(** ** The health report *)
(* ================================================================== *)

Section health_report.

(** Property X22.
    [check_health] never fails, whatever the request to yr.no does: the
    report says [healthy] and [yrno_available] exactly when the request
    was answered with status 200, and [degraded] otherwise, also when the
    request raised; the cache size it reports lies between zero and
    [CACHE_MAX_SIZE], and the hit rate is missing exactly as long as the
    cache was never asked. *)
Theorem check_health_reports (settings : Settings) (app_version : string)
    (startup_time utcnow : datetime) (probe : HttpOutcome) (now : Z)
    (ops : list cache_op) :
  let h := HealthCheck.check_health settings app_version startup_time probe utcnow now
             (run_ops ops (Cache.new settings)) in
  (HealthCheck.yrno_available h = true <-> probe = Response 200) /\
  (probe = Response 200 -> HealthCheck.status h = "healthy") /\
  (probe <> Response 200 -> HealthCheck.status h = "degraded") /\
  0 <= HealthCheck.cache_size h <= Z.max 0 (CACHE_MAX_SIZE settings) /\
  (HealthCheck.cache_hit_rate h = None <-> count_gets ops = 0).
Proof.
  cbv zeta. unfold HealthCheck.check_health.
  cbn [HealthCheck.yrno_available HealthCheck.status HealthCheck.cache_size
       HealthCheck.cache_hit_rate Cache.get_statistics Cache.size Cache.hit_rate].
  assert (Hprobe : HealthService._check_yrno probe = true <-> probe = Response 200).
  { unfold HealthService._check_yrno, YrNoClient.check_availability.
    destruct probe as [code|e]; [|done]. rewrite Z.eqb_eq. split; [by intros -> | by intros [= ->]]. }
  split; [exact Hprobe|]. split; [|split; [|split]].
  - intros H. apply Hprobe in H. by rewrite H.
  - intros H. destruct (HealthService._check_yrno probe) eqn:E; [|done].
    exfalso. apply H. by apply Hprobe.
  - apply run_ops_size_bounded.
  - destruct (run_ops_stats ops (Cache.new settings)) as (Hsum & Hh & Hm).
    cbn [Cache.new stats_hits stats_misses] in Hsum, Hh, Hm.
    unfold Cache.get_hit_rate.
    destruct (Z.eqb_spec (stats_hits (run_ops ops (Cache.new settings)) +
                          stats_misses (run_ops ops (Cache.new settings))) 0).
    + split; [lia | done].
    + split; [done | lia].
Qed.

End health_report.

(* ================================================================== *)
(** ** A lone request; the statistics of a call; the timezone override *)
(* ================================================================== *)

Section lone_request.
Context (tzs : TimezoneService).
Import Models WeatherService EventLoop.

(** Property X23.
    A request that is alone on the event loop runs as [get_forecast]
    without interleaving: in one stretch when it is served from the cache,
    in two when it goes upstream; it leaves the same world and the same
    result, no lock taken, and at most one upstream request. *)
Theorem lone_request_runs_as_get_forecast env r w :
  let res := get_forecast tzs env (req_lat r) (req_lon r) (req_location_name r)
               (req_days r) (req_unit r) (req_timezone_override r) w in
  exists evs s,
    (evs = [Run 0 env] \/ evs = [Run 0 env; Respond 0 env]) /\
    run tzs evs (initial_system w [r]) = Some s /\
    world s = fst res /\ List.map status (tasks s) = [Done (snd res)] /\
    held s = ∅ /\ (length (fetch_log s) <= 1)%nat.
Proof.
  cbv zeta. unfold get_forecast, initial_system. cbn [List.map].
  destruct (probe env (req_lat r) (req_lon r) (req_days r) (req_unit r) w)
    as [w1 [l1|]] eqn:Hp.
  { exists [Run 0 env]. eexists. split; [by left|].
    cbn [run step tasks lookup list_lookup world].
    rewrite Hp. split; [reflexivity|]. cbn.
    split; [done|]. split; [done|]. split; [done | lia]. }
  destruct (reprobe env (req_lat r) (req_lon r) (req_days r) (req_unit r) w1)
    as [w2 [l2|]] eqn:Hr.
  { exists [Run 0 env]. eexists. split; [by left|].
    cbn [run step tasks lookup list_lookup world held].
    rewrite Hp. rewrite decide_False by set_solver.
    unfold locked_section. cbn [with_world world held fetch_log tasks]. rewrite Hr.
    split; [reflexivity|]. cbn.
    split; [done|]. split; [done|]. split; [done | lia]. }
  destruct (after_fetch tzs env
              (fetch_forecast env (PyFloat.truncate4 (req_lat r))
                 (PyFloat.truncate4 (req_lon r)))
              (req_lat r) (req_lon r) (req_location_name r) (req_days r) (req_unit r)
              (req_timezone_override r) w2) as [w3 res3] eqn:Ha.
  exists [Run 0 env; Respond 0 env]. eexists. split; [by right|].
  cbn [run step tasks lookup list_lookup world held].
  rewrite Hp. rewrite decide_False by set_solver.
  unfold locked_section. cbn [with_world world held fetch_log tasks]. rewrite Hr.
  cbn [run step tasks set_status alter list_alter lookup list_lookup world held
       fetch_log request status].
  rewrite Ha. split; [reflexivity|].
  cbn [world tasks held fetch_log List.map status fst snd set_status alter list_alter
       request app length].
  split; [done|]. split; [done|]. split; [set_solver | lia].
Qed.

End lone_request.

Section call_statistics.
Context (tzs : TimezoneService).
Import Models WeatherService.

Lemma after_fetch_stats env outcome lat lon nm days unit_ ov w :
  let cm' := cache_manager (fst (after_fetch tzs env outcome lat lon nm days unit_ ov w)) in
  stats_hits cm' = stats_hits (cache_manager w) /\
  stats_misses cm' = stats_misses (cache_manager w).
Proof.
  cbv zeta. unfold after_fetch. set (key := Cache.generate_key _ _).
  destruct outcome as [ts|[msg| | |msg]]; try done.
  - destruct (_process_timeseries _ _ _ _ _) as [readings|e]; [|done].
    destruct (new_Location _ _ nm) as [location_|e]; [|done].
    cbn [alloc cache_manager].
    pose proof (set_stats (clock_set env) (utcnow_entry env) key (next_loc w)
                  (cache_manager w)) as Hs.
    cbv zeta in Hs.
    destruct (Cache.set _ _ key (next_loc w) (cache_manager w)) as [cm [[]|e]];
      cbn [fst with_cache_manager with_heap cache_manager] in *; done.
  - destruct (Cache.get_stale key (cache_manager w)) as [se|]; [|done].
    pose proof (serve_stale_spec se unit_ days w) as (_ & Hcm & _).
    destruct (serve_stale se unit_ days w) as [w' l']. cbn [fst] in *. by rewrite Hcm.
Qed.

(** Property X24.
    What a call adds to the statistics the health report shows: a call
    served at its first probe counts one hit; a call that goes upstream
    has probed twice and counts two misses. *)
Theorem cache_miss_counted_twice env lat lon nm days unit_ ov w :
  let key := Cache.generate_key (PyFloat.truncate4 lat) (PyFloat.truncate4 lon) in
  let cm := cache_manager w in
  let cm' := cache_manager (fst (get_forecast tzs env lat lon nm days unit_ ov w)) in
  (TTLCache.contains (clock_probe env) key (cache cm) = true ->
   stats_hits cm' = stats_hits cm + 1 /\ stats_misses cm' = stats_misses cm) /\
  (TTLCache.contains (clock_probe env) key (cache cm) = false ->
   TTLCache.contains (clock_reprobe env) key (cache cm) = false ->
   stats_hits cm' = stats_hits cm /\ stats_misses cm' = stats_misses cm + 2).
Proof.
  intros key cm cm'. subst cm cm'. split.
  - intros Hhit. unfold get_forecast, probe. fold key.
    unfold Cache.get.
    destruct (TTLCache.getitem (clock_probe env) key (cache (cache_manager w)))
      as [[e c]|] eqn:Hg.
    + pose proof (serve_cached_cache_manager (increment_hits e) unit_ days
        (with_cache_manager
           {| cache := TTLCache.update_value increment_hits key c;
              stale_cache := stale_cache (cache_manager w);
              stats_hits := stats_hits (cache_manager w) + 1;
              stats_misses := stats_misses (cache_manager w) |} w)) as Hcm.
      destruct (serve_cached _ _ _ _) as [w' l']. cbn [fst] in *. by rewrite Hcm.
    + apply getitem_contains in Hg. congruence.
  - intros Hmiss1 Hmiss2. unfold get_forecast, probe. fold key.
    rewrite (get_miss _ _ _ Hmiss1).
    unfold reprobe. fold key.
    cbn [with_fetch_locks with_cache_manager cache_manager].
    rewrite get_miss by done.
    cbn [fst snd].
    match goal with
    | |- context [after_fetch tzs env ?o lat lon nm days unit_ ov ?w2] =>
        pose proof (after_fetch_stats env o lat lon nm days unit_ ov w2) as [Hh Hm]
    end.
    rewrite Hh, Hm. cbn [with_cache_manager cache_manager stats_hits stats_misses cache
                         stale_cache].
    split; [done | lia].
Qed.

End call_statistics.

Section timezone_override.
Context (tzs : TimezoneService).
Import Models WeatherService.

Lemma process_timeseries_ext tzs1 tzs2 ts lat lon ov1 ov2 :
  Timezone.get_timezone tzs1 lat lon ov1 = Timezone.get_timezone tzs2 lat lon ov2 ->
  _process_timeseries tzs1 ts lat lon ov1 = _process_timeseries tzs2 ts lat lon ov2.
Proof.
  intros Htz. destruct (Timezone.get_timezone tzs2 lat lon ov2) as [tz|x] eqn:Htz2.
  - by rewrite (process_timeseries_ok tzs1 lat lon ov1 tz),
               (process_timeseries_ok tzs2 lat lon ov2 tz).
  - by rewrite (process_timeseries_raise tzs1 lat lon ov1 x),
               (process_timeseries_raise tzs2 lat lon ov2 x).
Qed.

(** Property X25.
    A timezone override that is empty or that [validate_timezone]
    rejects is ignored: the readings are those of the zone found for the
    coordinates.  One that is accepted decides alone: the readings do not
    depend on the zone found for the coordinates. *)
Theorem timezone_override_valid_or_ignored ts lat lon s :
  (s = EmptyString \/ validate_timezone tzs s = false ->
   _process_timeseries tzs ts lat lon (Some s) = _process_timeseries tzs ts lat lon None) /\
  (s <> EmptyString -> validate_timezone tzs s = true ->
   forall finder,
     _process_timeseries {| pytz_timezone := pytz_timezone tzs; timezone_at := finder |}
       ts lat lon (Some s) =
     _process_timeseries tzs ts lat lon (Some s)).
Proof.
  unfold validate_timezone. split.
  - intros Hs. apply process_timeseries_ext.
    unfold Timezone.get_timezone. case_bool_decide; [done|].
    destruct Hs as [->|Hs]; [done|].
    by destruct (pytz_timezone tzs s).
  - intros Hne Hs finder. apply process_timeseries_ext.
    unfold Timezone.get_timezone. cbn [pytz_timezone timezone_at].
    rewrite bool_decide_eq_false_2 by done.
    by destruct (pytz_timezone tzs s).
Qed.

End timezone_override.

(* ================================================================== *)
(** ** Coordinates out of range *)
(* ================================================================== *)

Section invalid_coordinates.
Context (tzs : TimezoneService).
Import Models WeatherService.

Lemma get_timezone_override_used lat lon ov :
  override_used tzs ov = true -> exists tz, Timezone.get_timezone tzs lat lon ov = Ok tz.
Proof.
  unfold override_used, validate_timezone, Timezone.get_timezone.
  destruct ov as [s|]; [|done]. intros [Hne Hs]%andb_true_iff.
  apply bool_decide_eq_true in Hne. rewrite bool_decide_eq_false_2 by done.
  destruct (pytz_timezone tzs s) as [tz|]; [by exists tz | done].
Qed.

Lemma get_timezone_out_of_range lat lon ov :
  in_range (-90) 90 lat && in_range (-180) 180 lon = false ->
  override_used tzs ov = false ->
  Timezone.get_timezone tzs lat lon ov = Raise ValueError.
Proof.
  intros Hrange. unfold override_used, validate_timezone, Timezone.get_timezone.
  rewrite (tf_timezone_at_out_of_range _ _ _ Hrange).
  destruct ov as [s|]; [|done].
  destruct (decide (s = EmptyString)) as [Hs|Hs].
  - by rewrite (bool_decide_eq_true_2 (s = EmptyString)) by done.
  - rewrite (bool_decide_eq_false_2 (s = EmptyString)) by done.
    rewrite (bool_decide_eq_true_2 (s <> EmptyString)) by done. cbn [andb].
    by destruct (pytz_timezone tzs s).
Qed.

(** Property X26.
    The service does not check the range of the coordinates before it
    probes the cache and asks the upstream: a call for coordinates out of
    range (or not a number) that finds nothing cached goes upstream.  Once
    the answer is there the call raises.  With a sample to convert and no
    override that decides the zone, it is the [ValueError] of
    TimezoneFinder, which refuses the coordinates at the first sample;
    with no sample, or with an override pytz knows, the sampling returns
    and it is the validation error of [Location].  No object is created
    and nothing is cached, so every such call goes upstream again. *)
Theorem invalid_coordinates_rejected_after_fetch
    env lat lon nm days unit_ ov w timeseries :
  let lat' := PyFloat.truncate4 lat in
  let lon' := PyFloat.truncate4 lon in
  let key := Cache.generate_key lat' lon' in
  in_range (-90) 90 lat' && in_range (-180) 180 lon' = false ->
  TTLCache.contains (clock_probe env) key (cache (cache_manager w)) = false ->
  TTLCache.contains (clock_reprobe env) key (cache (cache_manager w)) = false ->
  fetch_forecast env lat' lon' = Ok timeseries ->
  exists w',
    get_forecast tzs env lat lon nm days unit_ ov w =
      (w', Raise (match timeseries with
                  | [] => ValidationError
                  | _ :: _ => if override_used tzs ov then ValidationError else ValueError
                  end)) /\
    heap w' = heap w /\
    cache (cache_manager w') = cache (cache_manager w) /\
    stale_cache (cache_manager w') = stale_cache (cache_manager w).
Proof.
  intros lat' lon' key Hrange Hmiss1 Hmiss2 Hfetch. unfold get_forecast.
  destruct (probe_miss env lat lon days unit_ w Hmiss1) as (w1 & -> & Hh1 & Hc1 & Hs1).
  fold lat' lon' key in Hc1. rewrite <- Hc1 in Hmiss2.
  destruct (reprobe_miss env lat lon days unit_ w1 Hmiss2) as (w2 & -> & Hh2 & Hc2 & Hs2).
  fold lat' lon' in Hfetch |- *. rewrite Hfetch. unfold after_fetch.
  fold lat' lon'. unfold new_Location. rewrite Hrange.
  exists w2. split; [|split; [congruence|split; congruence]].
  destruct (override_used tzs ov) eqn:Hov.
  - destruct (get_timezone_override_used lat' lon' ov Hov) as [tz Htz].
    rewrite (process_timeseries_ok tzs lat' lon' ov tz) by done.
    by destruct timeseries.
  - rewrite (process_timeseries_raise tzs lat' lon' ov ValueError)
      by (by apply get_timezone_out_of_range).
    by destruct timeseries.
Qed.

End invalid_coordinates.

Section invalid_coordinates_witness.
Import Models WeatherService Examples.

(** Latitude 95 while yr.no answers with the two samples of the tests. *)
Lemma invalid_coordinates_rejected_after_fetch_witness :
  exists w',
    get_forecast belgrade_tz (env_ok 0) (PyFloat.of_Z 95) lon_belgrade None None CELSIUS
      None world0 = (w', Raise ValueError) /\
    heap w' = heap world0.
Proof.
  destruct (invalid_coordinates_rejected_after_fetch belgrade_tz (env_ok 0)
              (PyFloat.of_Z 95) lon_belgrade None None CELSIUS None world0 mock_timeseries)
    as (w' & Hcall & Hheap & _); [vm_compute; reflexivity ..|].
  by exists w'.
Defined.

(** The same call with the override [Europe/Belgrade]: the validation
    error of [Location]. *)
Example invalid_coordinates_with_override :
  snd (get_forecast belgrade_tz (env_ok 0) (PyFloat.of_Z 95) lon_belgrade None None
         CELSIUS (Some "Europe/Belgrade") world0) = Raise ValidationError.
Proof. vm_compute. reflexivity. Qed.

End invalid_coordinates_witness.

(* ================================================================== *)
(** ** The responses of concurrent calls *)
(* ================================================================== *)

Section concurrent_responses.
Context (tzs : TimezoneService).
Import Models WeatherService EventLoop.

Lemma serve_cached_dom e u days w x :
  is_Some (heap w !! x) -> is_Some (heap (fst (serve_cached e u days w)) !! x).
Proof.
  intros [r Hr].
  destruct (serve_cached_spec e u days w) as (_ & _ & Hother & _ & Hobj).
  destruct (decide (x = data e)) as [->|Hne].
  - destruct (Hobj r Hr) as (r' & -> & _). by eexists.
  - rewrite Hother by done. by eexists.
Qed.

Lemma serve_stale_dom e u days w x :
  is_Some (heap w !! x) -> is_Some (heap (fst (serve_stale e u days w)) !! x).
Proof.
  intros [r Hr].
  destruct (serve_stale_spec e u days w) as (_ & _ & Hother & _ & Hobj).
  destruct (decide (x = data e)) as [->|Hne].
  - destruct (Hobj r Hr) as (r' & -> & _). by eexists.
  - rewrite Hother by done. by eexists.
Qed.

Lemma probe_dom env lat lon days u w x :
  is_Some (heap w !! x) -> is_Some (heap (fst (probe env lat lon days u w)) !! x).
Proof.
  intros Hx. unfold probe. destruct (Cache.get _ _ _) as [[e|] cm]; [|done].
  pose proof (serve_cached_dom e u days (with_cache_manager cm w) x Hx) as H.
  by destruct (serve_cached e u days (with_cache_manager cm w)).
Qed.

Lemma reprobe_dom env lat lon days u w x :
  is_Some (heap w !! x) -> is_Some (heap (fst (reprobe env lat lon days u w)) !! x).
Proof.
  intros Hx. unfold reprobe. destruct (Cache.get _ _ _) as [[e|] cm]; [|done].
  pose proof (serve_cached_dom e u days (with_cache_manager cm w) x Hx) as H.
  by destruct (serve_cached e u days (with_cache_manager cm w)).
Qed.

Lemma after_fetch_dom env outcome lat lon nm days u ov w x :
  is_Some (heap w !! x) ->
  is_Some (heap (fst (after_fetch tzs env outcome lat lon nm days u ov w)) !! x).
Proof.
  intros Hx. unfold after_fetch. set (key := Cache.generate_key _ _).
  destruct outcome as [ts|[msg| | |msg]]; try done.
  - destruct (_process_timeseries _ _ _ _ _) as [readings|e]; [|done].
    destruct (new_Location _ _ nm) as [location_|e]; [|done].
    cbn [alloc cache_manager].
    set (r0 := new_ForecastResponse _ _ _ _ _).
    assert (Hins : is_Some (<[next_loc w := r0]> (heap w) !! x)).
    { rewrite lookup_insert_is_Some. destruct (decide (next_loc w = x)); auto. }
    destruct (Cache.set _ _ key (next_loc w) (cache_manager w)) as [cm [[]|e]];
      cbn [fst with_cache_manager with_heap heap]; [|done].
    destruct (decide (x = next_loc w)) as [->|Hne].
    + by apply shape_is_Some.
    + by rewrite shape_heap_lookup_ne.
  - destruct (Cache.get_stale key (cache_manager w)) as [se|]; [|done].
    pose proof (serve_stale_dom se u days w x Hx) as H.
    by destruct (serve_stale se u days w).
Qed.

(** The worlds of the event loop keep what the worlds of sequential
    calls keep: sorted objects, entries that refer to objects,
    [days_returned] in step with the forecasts, and the responses
    returned so far. *)
Lemma step_responses ev s s' :
  step tzs ev s = Some s' ->
  world_ok (world s) /\ heap_all counts_forecasts (world s) /\
  (forall i t l, tasks s !! i = Some t -> status t = Done (Ok l) ->
                 is_Some (heap (world s) !! l)) ->
  world_ok (world s') /\ heap_all counts_forecasts (world s') /\
  (forall i t l, tasks s' !! i = Some t -> status t = Done (Ok l) ->
                 is_Some (heap (world s') !! l)).
Proof.
  intros Hstep (Hok & Hcount & Hdone).
  assert (Hstatus : forall i0 st ts i t l,
    set_status i0 st ts !! i = Some t -> status t = Done (Ok l) ->
    (exists t0, ts !! i = Some t0 /\ status t0 = Done (Ok l)) \/ st = Done (Ok l)).
  { intros i0 st ts i t l Hi Hst.
    apply set_status_lookup in Hi as [[_ Hst']|[_ Hi]].
    - right. congruence.
    - left. by exists t. }
  assert (Hc_probe : forall env lat lon days u w,
    heap_all counts_forecasts w ->
    heap_all counts_forecasts (fst (probe env lat lon days u w))).
  { intros. apply probe_all; unfold counts_forecasts; try done.
    - intros unit_ r Hr. cbn. by rewrite length_map. }
  assert (Hc_reprobe : forall env lat lon days u w,
    heap_all counts_forecasts w ->
    heap_all counts_forecasts (fst (reprobe env lat lon days u w))).
  { intros. apply reprobe_all; unfold counts_forecasts; try done.
    - intros unit_ r Hr. cbn. by rewrite length_map. }
  assert (Hc_fetch : forall env o lat lon nm days u ov w,
    heap_all counts_forecasts w ->
    heap_all counts_forecasts (fst (after_fetch tzs env o lat lon nm days u ov w))).
  { intros. apply after_fetch_all; unfold counts_forecasts; try done.
    - intros unit_ r Hr. cbn. by rewrite length_map.
    - intros. apply counts_forecasts_new.
    - by left. }
  (* the second probe, with the lock acquired *)
  assert (Hlocked : forall env i r s0,
    world_ok (world s0) -> heap_all counts_forecasts (world s0) ->
    (forall i t l, tasks s0 !! i = Some t -> status t = Done (Ok l) ->
                   is_Some (heap (world s0) !! l)) ->
    let s1 := locked_section env i r s0 in
    world_ok (world s1) /\ heap_all counts_forecasts (world s1) /\
    (forall i t l, tasks s1 !! i = Some t -> status t = Done (Ok l) ->
                   is_Some (heap (world s1) !! l))).
  { intros env i r s0 Hok0 Hcount0 Hdone0 s1. subst s1. unfold locked_section.
    destruct (world_ok_reprobe env (req_lat r) (req_lon r) (req_days r) (req_unit r)
                (world s0) Hok0) as [Hok1 Hres1].
    pose proof (Hc_reprobe env (req_lat r) (req_lon r) (req_days r) (req_unit r)
                  (world s0) Hcount0) as Hcount1.
    pose proof (fun x => reprobe_dom env (req_lat r) (req_lon r) (req_days r) (req_unit r)
                  (world s0) x) as Hdom.
    destruct (reprobe env (req_lat r) (req_lon r) (req_days r) (req_unit r) (world s0))
      as [w1 [l1|]]; cbn [fst snd world tasks] in *.
    - split; [done|]. split; [done|]. intros j t l Hj Hst.
      destruct (Hstatus _ _ _ _ _ _ Hj Hst) as [(t0 & Hj0 & Hst0)|[= <-]].
      + apply Hdom. by apply (Hdone0 j t0).
      + by apply Hres1.
    - split; [done|]. split; [done|]. intros j t l Hj Hst.
      destruct (Hstatus _ _ _ _ _ _ Hj Hst) as [(t0 & Hj0 & Hst0)|?]; [|done].
      apply Hdom. by apply (Hdone0 j t0). }
  destruct ev as [i env|i env]; cbn [step] in Hstep;
    destruct (tasks s !! i) as [[r st]|] eqn:Hi; try done;
    destruct st as [| | |res]; try done.
  - (* a new task *)
    destruct (world_ok_probe env (req_lat r) (req_lon r) (req_days r) (req_unit r)
                (world s) Hok) as [Hok1 Hres1].
    pose proof (Hc_probe env (req_lat r) (req_lon r) (req_days r) (req_unit r)
                  (world s) Hcount) as Hcount1.
    pose proof (fun x => probe_dom env (req_lat r) (req_lon r) (req_days r) (req_unit r)
                  (world s) x) as Hdom.
    destruct (probe env (req_lat r) (req_lon r) (req_days r) (req_unit r) (world s))
      as [w1 [l1|]]; cbn [fst snd] in *.
    + injection Hstep as <-. cbn [world tasks].
      split; [done|]. split; [done|]. intros j t l Hj Hst.
      destruct (Hstatus _ _ _ _ _ _ Hj Hst) as [(t0 & Hj0 & Hst0)|[= <-]].
      * apply Hdom. by apply (Hdone j t0).
      * by apply Hres1.
    + assert (Hdone1 : forall j t l, tasks s !! j = Some t -> status t = Done (Ok l) ->
                                     is_Some (heap w1 !! l)).
      { intros j t l Hj Hst. apply Hdom. by apply (Hdone j t). }
      destruct (decide (lock_key_of r ∈ held s)).
      * injection Hstep as <-. cbn [world tasks].
        split; [done|]. split; [done|]. intros j t l Hj Hst.
        destruct (Hstatus _ _ _ _ _ _ Hj Hst) as [(t0 & Hj0 & Hst0)|?]; [|done].
        by apply (Hdone1 j t0).
      * injection Hstep as <-. by apply Hlocked.
  - (* a task suspended on the lock *)
    destruct (decide (lock_key_of r ∈ held s)); [done|].
    injection Hstep as <-. by apply Hlocked.
  - (* a task whose request is in flight *)
    set (o := fetch_forecast env _ _) in Hstep.
    destruct (world_ok_after_fetch tzs env o (req_lat r) (req_lon r)
                (req_location_name r) (req_days r) (req_unit r)
                (req_timezone_override r) (world s) Hok) as [Hok1 Hres1].
    pose proof (Hc_fetch env o (req_lat r) (req_lon r) (req_location_name r)
                  (req_days r) (req_unit r) (req_timezone_override r) (world s) Hcount)
      as Hcount1.
    pose proof (fun x => after_fetch_dom env o (req_lat r) (req_lon r)
                  (req_location_name r) (req_days r) (req_unit r)
                  (req_timezone_override r) (world s) x) as Hdom.
    destruct (after_fetch tzs env o (req_lat r) (req_lon r) (req_location_name r)
                (req_days r) (req_unit r) (req_timezone_override r) (world s))
      as [w1 res1]; cbn [fst snd] in *.
    injection Hstep as <-. cbn [world tasks].
    split; [done|]. split; [done|]. intros j t l Hj Hst.
    destruct (Hstatus _ _ _ _ _ _ Hj Hst) as [(t0 & Hj0 & Hst0)|[= ->]].
    + apply Hdom. by apply (Hdone j t0).
    + by apply Hres1.
Qed.

(** Property X27.
    Under every schedule of concurrent calls, started in a world that
    calls of [get_forecast] lead to: the response of every call that has
    returned is an object whose forecasts are sorted strictly ascending by
    date and whose [days_returned] is their number. *)
Theorem concurrent_responses_sorted_and_counted settings w reqs evs s i t l :
  reachable settings tzs w ->
  run tzs evs (initial_system w reqs) = Some s ->
  tasks s !! i = Some t -> status t = Done (Ok l) ->
  exists r, heap (world s) !! l = Some r /\
            strictly_ascending (forecasts r) /\
            days_returned r = Z.of_nat (length (forecasts r)).
Proof.
  intros Hreach Hrun Hi Hst.
  assert (Hinv : forall evs s0 s1,
    run tzs evs s0 = Some s1 ->
    world_ok (world s0) /\ heap_all counts_forecasts (world s0) /\
    (forall i t l, tasks s0 !! i = Some t -> status t = Done (Ok l) ->
                   is_Some (heap (world s0) !! l)) ->
    world_ok (world s1) /\ heap_all counts_forecasts (world s1) /\
    (forall i t l, tasks s1 !! i = Some t -> status t = Done (Ok l) ->
                   is_Some (heap (world s1) !! l))).
  { clear. induction evs as [|ev evs IH]; intros s0 s1 Hrun H0; cbn [run] in Hrun.
    - by injection Hrun as <-.
    - destruct (step tzs ev s0) as [s2|] eqn:Hstep; [|done].
      apply (IH s2 s1 Hrun). by apply (step_responses ev s0). }
  destruct (Hinv evs _ s Hrun) as ([Hsorted _] & Hcount & Hdone).
  { split; [by apply (reachable_world_ok settings tzs)|].
    split; [by apply (reachable_counts_forecasts settings tzs)|].
    intros j t0 l0 Hj Hst0. cbn [initial_system tasks] in Hj.
    apply list_elem_of_lookup_2 in Hj.
    apply list_elem_of_fmap in Hj as (r0 & -> & _). done. }
  destruct (Hdone i t l Hi Hst) as [r Hr]. exists r.
  split; [done|]. split; [by apply (Hsorted l) | by apply (Hcount l)].
Qed.

End concurrent_responses.

Section concurrent_responses_witness.
Import Models WeatherService EventLoop Examples.

(** Three concurrent requests for Belgrade, all served. *)
Lemma concurrent_responses_sorted_and_counted_witness :
  exists s t l r,
    run belgrade_tz
      [Run 0 (env_ok 0); Run 1 (env_ok 1); Respond 0 (env_ok 2); Run 2 (env_ok 3);
       Run 1 (env_ok 4)] (initial_system world0
         [belgrade_request CELSIUS; belgrade_request FAHRENHEIT; belgrade_request CELSIUS])
    = Some s /\
    tasks s !! 1%nat = Some t /\ status t = Done (Ok l) /\
    heap (world s) !! l = Some r /\
    strictly_ascending (forecasts r) /\
    days_returned r = Z.of_nat (length (forecasts r)).
Proof.
  set (evs := [Run 0 (env_ok 0); Run 1 (env_ok 1); Respond 0 (env_ok 2);
               Run 2 (env_ok 3); Run 1 (env_ok 4)]).
  set (reqs := [belgrade_request CELSIUS; belgrade_request FAHRENHEIT;
                belgrade_request CELSIUS]).
  assert (Hsome : is_Some (run belgrade_tz evs (initial_system world0 reqs)))
    by (vm_compute; eexists; reflexivity).
  destruct Hsome as [s Hs].
  assert (Ht : match run belgrade_tz evs (initial_system world0 reqs) with
               | Some s0 => status <$> tasks s0 !! 1%nat
               | None => None
               end = Some (Done (Ok 0%nat))) by (vm_compute; reflexivity).
  rewrite Hs in Ht.
  destruct (tasks s !! 1%nat) as [t|] eqn:Hi; [|discriminate Ht].
  injection Ht as Ht.
  pose proof (concurrent_responses_sorted_and_counted belgrade_tz default_settings world0
                reqs evs s 1%nat t 0%nat (reachable_initial default_settings belgrade_tz)
                Hs Hi Ht) as (r & Hr & Hsorted & Hcount).
  exists s, t, 0%nat, r. split; [exact Hs|]. split; [exact Hi|].
  split; [exact Ht|]. split; [exact Hr|]. split; [exact Hsorted | exact Hcount].
Defined.

End concurrent_responses_witness.

(* ================================================================== *)
(** ** A request with one coordinate *)
(* ================================================================== *)

Section partial_coordinates.
Context (lower strip : string -> string) (tzs : TimezoneService).

(** Property X28.
    A validated [ForecastRequest] names a place: it has both coordinates
    or a name, and it is the request given whenever that one has.  A
    request with no name and a coordinate missing gets the coordinates of
    Belgrade, also when the other coordinate was given, which is then
    lost; the handler of [GET /forecast] answers the same parameters,
    when one coordinate is given, with status 400. *)
Theorem validate_location_defaults_where_the_route_refuses
    (self : Request.ForecastRequest) env genv app :
  let v := Request.validate_location self in
  let complete r :=
    is_Some (Request.latitude r) /\ is_Some (Request.longitude r) in
  (complete v \/ is_Some (Request.location_name v)) /\
  (complete self \/ is_Some (Request.location_name self) -> v = self) /\
  (~ complete self -> Request.location_name self = None ->
   Request.latitude v = Some BELGRADE_LAT /\ Request.longitude v = Some BELGRADE_LON /\
   (is_Some (Request.latitude self) \/ is_Some (Request.longitude self) ->
    status_of
      (snd (Routes.get_forecast lower strip tzs env genv (Request.latitude self)
              (Request.longitude self) (Request.location_name self)
              (Request.days self) (Request.unit self) (Request.timezone self) app)) =
    Some 400)).
Proof.
  cbv zeta. unfold Request.validate_location, Routes.get_forecast.
  destruct self as [[lat|] [lon|] [nm|] days unit_ tz];
    cbn [Request.latitude Request.longitude Request.location_name Request.days
         Request.unit Request.timezone negb andb];
    (split; [|split]);
    try (left; split; by eexists); try (right; by eexists);
    try done; try (intros [[? ?]|?]; by eauto using is_Some_None);
    try (by intros [[_ []] | []]); try (by intros [[[] _] | []]).
  all: intros Hc; try (by destruct Hc; split; eexists); intros _;
    (split; [done|]); (split; [done|]); try done.
  intros [[]|[]]; done.
Qed.

End partial_coordinates.
